(** * Meeting scheduler: the workflow of [flow.py] and its slot resolver

    A shallow embedding of the scheduling workflow (the nodes of [flow.py],
    their prepare / execute / finalize stages and the wiring of the graph)
    together with the properties the specification states about it.

    Conventions.
    - A Python exception is a value of [exn]; a computation that may raise
      has type [result A].
    - A Python [dict] keeps insertion order; it is an association list with
      unique keys ([PyDict]).
    - What [yaml.safe_load] returns is a [yaml] value (the JSON-like
      fragment: null, booleans, integers, strings, sequences and mappings
      with string keys).
    - A naive [datetime] is an integer number of microseconds; a [timedelta]
      is a difference of two of them.
    - The external collaborators (mailbox, reasoning step, calendar, mailer,
      the standard library's address and date parsers, the clock) are the
      fields of the class [Collaborators]: every theorem holds for all of
      them. *)

From Stdlib Require Import ZArith List String Ascii Bool Lia.
From stdpp Require Import base tactics option list.
Import ListNotations.
Open Scope string_scope.
Open Scope list_scope.
Open Scope Z_scope.
Set Warnings "-register-all".

(** ** Exceptions and the error monad *)

Inductive exn : Type :=
  | AssertionError (msg : string)
  | KeyError (key : string)
  | TypeError
  | ValueError
  | IndexError
  | AttributeError
  | InvalidRangeError
  | ConfigurationError (node action : string)
  | CollaboratorError (who : string).

Inductive result (A : Type) : Type :=
  | Ok (a : A)
  | Raise (e : exn).
Arguments Ok {A} a.
Arguments Raise {A} e.

#[global] Instance result_ret : MRet result := fun A a => Ok a.
#[global] Instance result_bind : MBind result := fun A B f m =>
  match m with
  | Ok a => f a
  | Raise e => Raise e
  end.

Definition raised {A} (r : result A) : Prop := exists e, r = Raise e.

(** [assert cond, msg] *)
Definition assert (cond : bool) (msg : string) : result unit :=
  if cond then Ok tt else Raise (AssertionError msg).

(** [d[key]] on an optional field: a missing key raises [KeyError]. *)
Definition item {A} (key : string) (field : option A) : result A :=
  match field with
  | Some a => Ok a
  | None => Raise (KeyError key)
  end.

(** ** Python dictionaries: insertion-ordered, unique keys *)

Module PyDict.
Section Dict.
Context {V : Type}.

Definition dict : Type := list (string * V).

Definition empty : dict := [].

Fixpoint get (k : string) (d : dict) : option V :=
  match d with
  | [] => None
  | (k', v) :: d' => if String.eqb k' k then Some v else get k d'
  end.

(** [d[k] = v]: an existing key keeps its position. *)
Fixpoint set (k : string) (v : V) (d : dict) : dict :=
  match d with
  | [] => [(k, v)]
  | (k', v') :: d' =>
      if String.eqb k' k then (k', v) :: d' else (k', v') :: set k v d'
  end.

(** [del d[k]] for a key that is present: the binding of [k] goes, the
    others keep their order. *)
Fixpoint del (k : string) (d : dict) : dict :=
  match d with
  | [] => []
  | (k', v') :: d' =>
      if String.eqb k' k then del k d' else (k', v') :: del k d'
  end.

Definition keys (d : dict) : list string := map fst d.

(** [{key(x): x for x in xs}] *)
Definition comprehension (key : V -> string) (xs : list V) : dict :=
  fold_left (fun d x => set (key x) x d) xs empty.

End Dict.
Arguments dict : clear implicits.
End PyDict.

(** ** Values of [yaml.safe_load] *)

Inductive yaml : Type :=
  | YNull
  | YBool (b : bool)
  | YInt (z : Z)
  | YStr (s : string)
  | YList (items : list yaml)
  | YMap (fields : list (string * yaml)).

(** Python truthiness of a loaded value. *)
Definition truthy (y : yaml) : bool :=
  match y with
  | YNull => false
  | YBool b => b
  | YInt z => negb (Z.eqb z 0)
  | YStr s => negb (String.eqb s EmptyString)
  | YList items => match items with [] => false | _ => true end
  | YMap fields => match fields with [] => false | _ => true end
  end.

(** [isinstance(y, dict)] *)
Definition is_dict (y : yaml) : bool :=
  match y with YMap _ => true | _ => false end.

(** [isinstance(y, int)]: a Python [bool] is an [int]. *)
Definition is_int (y : yaml) : bool :=
  match y with YInt _ | YBool _ => true | _ => false end.

(** [y == s] for a string [s]. *)
Definition eq_str (y : yaml) (s : string) : bool :=
  match y with YStr s' => String.eqb s' s | _ => false end.

(** [s in text] for two strings: [s] occurs in [text]. *)
Fixpoint substring_of (s text : string) : bool :=
  if String.prefix s text then true
  else match text with
       | EmptyString => false
       | String _ text' => substring_of s text'
       end.

(** [s in y]: membership for a list, key membership for a mapping,
    substring test for a string, [TypeError] otherwise. *)
Definition contains (y : yaml) (s : string) : result bool :=
  match y with
  | YList items => Ok (existsb (fun i => eq_str i s) items)
  | YMap fields => Ok (existsb (fun kv => String.eqb (fst kv) s) fields)
  | YStr text => Ok (substring_of s text)
  | _ => Raise TypeError
  end.

(** [y[key]] for a string key: only a mapping can be indexed by a string. *)
Definition field (y : yaml) (key : string) : result yaml :=
  match y with
  | YMap fields =>
      match PyDict.get key fields with
      | Some v => Ok v
      | None => Raise (KeyError key)
      end
  | _ => Raise TypeError
  end.

(** ** Data model *)

Definition datetime : Type := Z.
Definition timedelta : Type := Z.
Definition TimeSlot : Type := (datetime * datetime)%type.

Definition minute : timedelta := 60000000.
Definition hour : timedelta := 60 * minute.
Definition day : timedelta := 24 * hour.

(** [timedelta(minutes=n)] *)
Definition minutes (n : Z) : timedelta := n * minute.

(** The meeting details the extractor returns: the loaded mapping with the
    two ends of the timeframe converted to [datetime]. *)
Record Meeting : Type := {
  duration : yaml;
  timeframe : TimeSlot;
  attendees : yaml;
  location : yaml;
  description : yaml;
  reason : yaml
}.

(** The value under [chosen_slot]: a pair of datetimes once the decider has
    converted it, otherwise whatever was loaded ([None] to begin with). *)
Inductive ChosenSlot : Type :=
  | SlotPair (start stop : datetime)
  | SlotRaw (y : yaml).

Record Request : Type := {
  status : string;
  meeting : Meeting;
  available_slots : list TimeSlot;
  chosen_slot : ChosenSlot;
  event : option yaml
}.

Record Draft : Type := {
  draft_subject : string;
  draft_body : yaml
}.

(** One fetched email, the [dict] that [check_unread_emails] documents.
    The keys read with [.get] only may be absent; [request] and
    [draft_email] are added by the nodes. *)
Record Message : Type := {
  sender : string;
  to : option (list string);
  cc : list string;
  bcc : list string;
  subject : option string;
  body : string;
  message_id : string;
  references : option (list string);
  request : option Request;
  draft_email : option Draft
}.

Record EmailConfig : Type := {
  username : string;
  password : string
}.

Record Config : Type := {
  authorized_user : string;
  email : EmailConfig;
  working_hours : Z * Z
}.

(** The shared workspace: [shared["config"]] and, once the fetcher has
    stored a batch, [shared["pending_emails"]]. *)
Record Shared : Type := {
  config : Config;
  pending_emails : option (PyDict.dict Message)
}.

Definition set_pending (shared : Shared) (d : PyDict.dict Message) : Shared :=
  {| config := config shared; pending_emails := Some d |}.

(** What a run does to the outside world, in order. *)
Inductive Effect : Type :=
  | Sleep (seconds : Z)
  | FetchUnread
  | AskLLM (purpose : string)
  | ListBusy (start stop : datetime)
  | CreateEvent (start stop : datetime)
  | SendEmail (in_reply_to : string).

(** A stage that talks to the outside world: the effects it performed, then
    its value or the exception it raised. *)
Definition Eff (A : Type) : Type := (list Effect * result A)%type.

#[global] Instance eff_ret : MRet Eff := fun A a => ([], Ok a).
#[global] Instance eff_bind : MBind Eff := fun A B f m =>
  match m with
  | (t, Ok a) => let '(t', r) := f a in (t ++ t', r)
  | (t, Raise e) => (t, Raise e)
  end.

(** A step without effects. *)
Definition pure {A} (r : result A) : Eff A := ([], r).

(** A call to a collaborator: one effect, then the collaborator's answer. *)
Definition perform {A} (e : Effect) (r : result A) : Eff A := ([e], r).

(** ** String helpers of the decider *)

(** [s.split(sep)] for a separator that is not empty: cut at the leftmost
    occurrences, which do not overlap. [skip] counts the characters of a
    separator still to pass over, [piece] is the piece being read. *)
Fixpoint split_from (sep : string) (skip : nat) (piece s : string) : list string :=
  match s with
  | EmptyString => [piece]
  | String c s' =>
      match skip with
      | S n => split_from sep n piece s'
      | O =>
          if String.prefix sep s
          then piece :: split_from sep (Nat.pred (String.length sep)) EmptyString s'
          else split_from sep O (String.append piece (String c EmptyString)) s'
      end
  end.

Definition split (sep s : string) : list string := split_from sep O EmptyString s.

(** ** External collaborators *)

(** What the prompts are built from, one constructor per prompt of
    [flow.py]. *)
Inductive Query : Type :=
  | AskIntent (email_body : string) (cfg : Config)
  | AskDetails (email_body sender : string) (to_list cc_list bcc_list : list string)
      (cfg : Config) (today : datetime)
  | AskAction (email_body : string) (slots : list TimeSlot) (cfg : Config)
  | AskConfirmation (m : Meeting) (event : yaml) (start_time end_time : datetime)
      (sender : string) (to_list cc_list bcc_list : list string)
      (original_subject : string) (cfg : Config)
  | AskProposal (m : Meeting) (slots : list TimeSlot)
      (sender : string) (to_list cc_list bcc_list : list string)
      (original_subject : string) (cfg : Config)
  | AskNoSlots (m : Meeting)
      (sender : string) (to_list cc_list bcc_list : list string)
      (original_subject : string) (cfg : Config).

Definition purpose (q : Query) : string :=
  match q with
  | AskIntent _ _ => "intent"
  | AskDetails _ _ _ _ _ _ _ => "details"
  | AskAction _ _ _ => "action"
  | AskConfirmation _ _ _ _ _ _ _ _ _ _ => "confirmation"
  | AskProposal _ _ _ _ _ _ _ _ => "proposal"
  | AskNoSlots _ _ _ _ _ _ _ => "no_slots"
  end.

Record MeetingDetails : Type := {
  md_title : yaml;
  md_start_time : datetime;
  md_end_time : datetime;
  md_description : yaml;
  md_attendees : yaml;
  md_location : yaml
}.

Record Outgoing : Type := {
  out_subject : string;
  out_body : yaml;
  out_to_emails : yaml;
  out_from_email : string;
  out_app_password : string;
  out_in_reply_to : string;
  out_references : list string
}.

Class Collaborators : Type := {
  (** [utils.check_unread_emails.check_unread_emails(username, password)] *)
  check_unread_emails : string -> string -> result (list Message);
  (** the f-string that builds a prompt *)
  prompt : Query -> string;
  (** [utils.call_llm.call_llm(prompt)] *)
  call_llm : string -> result string;
  (** [yaml.safe_load(response.split("```yaml")[1].split("```")[0].strip())] *)
  load_yaml_block : string -> result yaml;
  (** [email.utils.getaddresses([x])[0][1].lower().strip()] *)
  getaddress : string -> result string;
  (** [datetime.strptime(x, "%Y-%m-%d %H:%M ET")] *)
  strptime : string -> result datetime;
  (** [datetime.fromisoformat(x)] *)
  fromisoformat : string -> result datetime;
  (** [datetime.now()] *)
  now : datetime;
  (** the calendar's busy intervals between two instants *)
  list_busy : datetime -> datetime -> result (list TimeSlot);
  (** [utils.schedule_meeting.schedule_meeting(meeting_details)] *)
  schedule_meeting : MeetingDetails -> result yaml;
  (** [utils.send_email.send_email(...)] *)
  send_email : Outgoing -> result unit
}.

(** The three lines every reasoning step shares: build the prompt, call the
    model, load the fenced block of its answer. *)
Definition ask `{Collaborators} (q : Query) : Eff yaml :=
  response ← perform (AskLLM (purpose q)) (call_llm (prompt q));
  pure (load_yaml_block response).

(** [datetime.strptime] of a loaded value: only a string can be parsed. *)
Definition strptime_value `{Collaborators} (y : yaml) : result datetime :=
  match y with
  | YStr s => strptime s
  | _ => Raise TypeError
  end.

Definition fromisoformat_value `{Collaborators} (y : yaml) : result datetime :=
  match y with
  | YStr s => fromisoformat s
  | _ => Raise TypeError
  end.

(** [msg.get(key, default)] *)
Definition get_default {A} (field : option A) (default : A) : A :=
  match field with
  | Some a => a
  | None => default
  end.

(** [shared["pending_emails"][email_id]] *)
Definition pending_email (shared : Shared) (email_id : string) : result Message :=
  d ← item "pending_emails" (pending_emails shared);
  item email_id (PyDict.get email_id d).

(** [shared["pending_emails"][email_id][...] = ...]: the message under
    [email_id] is replaced by its updated version, in place. *)
Definition update_email (shared : Shared) (email_id : string)
    (f : Message -> result Message) : result Shared :=
  d ← item "pending_emails" (pending_emails shared);
  msg ← item email_id (PyDict.get email_id d);
  msg' ← f msg;
  Ok (set_pending shared (PyDict.set email_id msg' d)).

Definition set_request (msg : Message) (r : Request) : Message :=
  {| sender := sender msg; to := to msg; cc := cc msg; bcc := bcc msg;
     subject := subject msg; body := body msg; message_id := message_id msg;
     references := references msg; request := Some r;
     draft_email := draft_email msg |}.

Definition set_draft (msg : Message) (d : Draft) : Message :=
  {| sender := sender msg; to := to msg; cc := cc msg; bcc := bcc msg;
     subject := subject msg; body := body msg; message_id := message_id msg;
     references := references msg; request := request msg;
     draft_email := Some d |}.

(** [shared["pending_emails"][email_id]["request"][...] = ...] *)
Definition update_request (shared : Shared) (email_id : string)
    (f : Request -> Request) : result Shared :=
  update_email shared email_id (fun msg =>
    r ← item "request" (request msg);
    Ok (set_request msg (f r))).

(** ** The slot resolver *)

Module SlotResolver.

Definition slot_length (s : TimeSlot) : timedelta := snd s - fst s.

(** Modelled from the spec: the body of [check_availability]
    ([utils/check_availability.py] keeps the signature only). The
    definitions of this module follow the four steps of the spec's
    section 4.5; the busy intervals are the calendar's answer. Step 2
    sorts the busy intervals by start, here by insertion. *)
Fixpoint insert_by_start (b : TimeSlot) (l : list TimeSlot) : list TimeSlot :=
  match l with
  | [] => [b]
  | c :: rest =>
      if fst b <=? fst c then b :: c :: rest else c :: insert_by_start b rest
  end.

(** Modelled from the spec: the body of [check_availability], step 2,
    busy intervals sorted. *)
Definition sort_by_start (l : list TimeSlot) : list TimeSlot :=
  fold_right insert_by_start [] l.

(** Modelled from the spec: the body of [check_availability], step 2,
    busy intervals merged if overlapping. Merge the intervals that overlap
    or touch [cur], in a list sorted by start. *)
Fixpoint merge_sorted (cur : TimeSlot) (l : list TimeSlot) : list TimeSlot :=
  match l with
  | [] => [cur]
  | b :: rest =>
      if fst b <=? snd cur
      then merge_sorted (fst cur, Z.max (snd cur) (snd b)) rest
      else cur :: merge_sorted b rest
  end.

(** Modelled from the spec: the body of [check_availability], step 2,
    the busy intervals sorted, then merged. *)
Definition merge_busy (busy : list TimeSlot) : list TimeSlot :=
  match sort_by_start busy with
  | [] => []
  | b :: rest => merge_sorted b rest
  end.

(** Modelled from the spec: the body of [check_availability], step 2.
    What is left of [lo, hi) outside the merged busy intervals. *)
Fixpoint subtract (lo hi : datetime) (busy : list TimeSlot) : list TimeSlot :=
  match busy with
  | [] => if lo <? hi then [(lo, hi)] else []
  | (bs, be) :: rest =>
      (if lo <? Z.min bs hi then [(lo, Z.min bs hi)] else [])
        ++ subtract (Z.max lo be) hi rest
  end.

(** Modelled from the spec: the body of [check_availability], step 1.
    The calendar day of an instant. *)
Definition day_index (t : datetime) : Z := t / day.

(** Modelled from the spec: the body of [check_availability], step 1.
    The calendar days the window meets, in order. *)
Definition days_in_range (window_start window_end : datetime) : list Z :=
  map (fun i => day_index window_start + Z.of_nat i)
      (seq 0 (Z.to_nat (day_index window_end - day_index window_start + 1))).

(** Modelled from the spec: the body of [check_availability], step 1.
    The working interval of a day, from its start hour to its end hour,
    cut to the window. *)
Definition working_interval (working_hours : Z * Z)
    (window_start window_end : datetime) (d : Z) : TimeSlot :=
  (Z.max window_start (d * day + fst working_hours * hour),
   Z.min window_end (d * day + snd working_hours * hour)).

(** Modelled from the spec: the body of [check_availability], steps 2 and
    3 for one day: subtract the busy intervals, drop what is shorter than
    the minimum duration. *)
Definition free_of_day (window_start window_end : datetime)
    (min_duration : timedelta) (working_hours : Z * Z)
    (merged : list TimeSlot) (d : Z) : list TimeSlot :=
  let w := working_interval working_hours window_start window_end d in
  List.filter (fun s => min_duration <=? slot_length s)
    (subtract (fst w) (snd w) merged).

(** Modelled from the spec: the body of [check_availability], step 4.
    The days in chronological order. *)
Definition free_slots (window_start window_end : datetime)
    (min_duration : timedelta) (working_hours : Z * Z)
    (busy : list TimeSlot) : list TimeSlot :=
  flat_map
    (free_of_day window_start window_end min_duration working_hours (merge_busy busy))
    (days_in_range window_start window_end).

(** Modelled from the spec: the body of [check_availability]. A window
    with start >= end fails with an invalid-range error; otherwise the
    calendar is asked for the busy intervals of the window and the free
    slots are computed from them. *)
Definition check_availability `{Collaborators}
    (start_time end_time : datetime) (min_duration : timedelta)
    (working_hours : Z * Z) : Eff (list TimeSlot) :=
  if end_time <=? start_time then pure (Raise InvalidRangeError)
  else
    busy ← perform (ListBusy start_time end_time) (list_busy start_time end_time);
    pure (Ok (free_slots start_time end_time min_duration working_hours busy)).

(** Well-formed sequences of slots (section 3 of the spec). *)
Definition sorted_by_start (l : list TimeSlot) : Prop :=
  forall i j a b, (i < j)%nat -> nth_error l i = Some a -> nth_error l j = Some b ->
    fst a <= fst b.

Definition overlap (a b : TimeSlot) : Prop :=
  fst a < snd b /\ fst b < snd a.

Definition pairwise_disjoint (l : list TimeSlot) : Prop :=
  forall i j a b, i <> j -> nth_error l i = Some a -> nth_error l j = Some b ->
    ~ overlap a b.

Definition well_formed (l : list TimeSlot) : Prop :=
  sorted_by_start l /\ pairwise_disjoint l.

End SlotResolver.

(** ** The nodes of [flow.py] *)

Module EmailFetcherNode.
Section Node.
Context `{Collaborators}.

Record Prepared : Type := {
  p_username : string;
  p_password : string;
  p_authorized_user : string
}.

Definition prep (shared : Shared) : result Prepared :=
  Ok {| p_username := username (email (config shared));
        p_password := password (email (config shared));
        p_authorized_user := authorized_user (config shared) |}.

(** The condition of the filter: the sender is the authorized user, or
    the authorized address is in [cc] or in [bcc]. *)
Definition involves (authorized_email : string) (e : Message) : result bool :=
  from ← getaddress (sender e);
  Ok (String.eqb from authorized_email
      || existsb (String.eqb authorized_email) (cc e)
      || existsb (String.eqb authorized_email) (bcc e)).

Fixpoint keep_authorized (authorized_email : string) (emails : list Message)
    : result (list Message) :=
  match emails with
  | [] => Ok []
  | e :: rest =>
      keep ← involves authorized_email e;
      kept ← keep_authorized authorized_email rest;
      Ok (if keep : bool then e :: kept else kept)
  end.

Definition exec (cfg : Prepared) : Eff (option (list Message)) :=
  emails ← perform FetchUnread (check_unread_emails (p_username cfg) (p_password cfg));
  match emails : list Message with
  | [] => pure (Ok None)
  | _ =>
      pure (authorized_email ← getaddress (p_authorized_user cfg);
            authorized_emails ← keep_authorized authorized_email emails;
            Ok (match authorized_emails : list Message with
                | [] => None
                | _ => Some authorized_emails
                end))
  end.

Definition post (shared : Shared) (prep_res : Prepared)
    (exec_res : option (list Message)) : Eff (Shared * string) :=
  match exec_res with
  | None | Some [] => perform (Sleep 30) (Ok (shared, "monitor"))
  | Some msgs =>
      pure (Ok (set_pending shared (PyDict.comprehension message_id msgs),
                "analyze_batch"))
  end.

End Node.
End EmailFetcherNode.

Module EmailIntentAnalyzerNode.
Section Node.
Context `{Collaborators}.

Definition prep (shared : Shared) (email_id : string) : result (string * Config) :=
  msg ← pending_email shared email_id;
  Ok (body msg, config shared).

Definition exec (inputs : string * Config) : Eff yaml :=
  let '(email_body, cfg) := inputs in
  loaded ← ask (AskIntent email_body cfg);
  pure (field loaded "is_scheduling";;
        field loaded "reason";;
        Ok loaded).

Definition post (shared : Shared) (email_id : string)
    (prep_res : string * Config) (exec_res : yaml) : Eff (Shared * string) :=
  pure (is_scheduling ← field exec_res "is_scheduling";
        if truthy is_scheduling then Ok (shared, "extract_availability_range")
        else
          d ← item "pending_emails" (pending_emails shared);
          item email_id (PyDict.get email_id d);;
          Ok (set_pending shared (PyDict.del email_id d), "end")).

End Node.
End EmailIntentAnalyzerNode.

Module AvailabilityRangeExtractorNode.
Section Node.
Context `{Collaborators}.

Record Prepared : Type := {
  p_email_body : string;
  p_sender : string;
  p_to_list : list string;
  p_cc_list : list string;
  p_bcc_list : list string;
  p_config : Config
}.

Definition prep (shared : Shared) (email_id : string) : result Prepared :=
  msg ← pending_email shared email_id;
  Ok {| p_email_body := body msg;
        p_sender := sender msg;
        p_to_list := get_default (to msg) [];
        p_cc_list := cc msg;
        p_bcc_list := bcc msg;
        p_config := config shared |}.

(** [result.setdefault(key, default)] on the loaded mapping *)
Definition setdefault (loaded : yaml) (key : string) (default : yaml) : result yaml :=
  match loaded with
  | YMap fields => Ok (get_default (PyDict.get key fields) default)
  | _ => Raise AttributeError
  end.

(** [if email_addr not in result["attendees"]:
       result["attendees"].append(email_addr)] *)
Definition add_attendee (att : yaml) (email_addr : string) : result yaml :=
  present ← contains att email_addr;
  if present : bool then Ok att
  else match att with
       | YList items => Ok (YList (items ++ [YStr email_addr]))
       | _ => Raise AttributeError
       end.

(** [for addr in [sender] + cc_list + bcc_list: ...] *)
Fixpoint add_participants (att : yaml) (addrs : list string) : result yaml :=
  match addrs with
  | [] => Ok att
  | addr :: rest =>
      email_addr ← getaddress addr;
      att' ← add_attendee att email_addr;
      add_participants att' rest
  end.

Definition is_str (y : yaml) : bool :=
  match y with YStr _ => true | _ => false end.

(** [', '.join(result['attendees'])] inside the last log line: every item
    must be a string. *)
Definition joinable (att : yaml) : result unit :=
  match att with
  | YList items => if forallb is_str items then Ok tt else Raise TypeError
  | YStr _ | YMap _ => Ok tt
  | _ => Raise TypeError
  end.

(** The body of [exec] after the reasoning step has answered. *)
Definition validate (inputs : Prepared) (today : datetime) (loaded : yaml)
    : result Meeting :=
  assert (is_dict loaded) "Result must be a dictionary";;
  has_duration ← contains loaded "duration";
  assert has_duration "Duration is required";;
  duration ← field loaded "duration";
  assert (is_int duration) "Duration must be an integer";;
  has_timeframe ← contains loaded "timeframe";
  assert has_timeframe "Timeframe is required";;
  timeframe ← field loaded "timeframe";
  has_start ← contains timeframe "start";
  assert has_start "Start time is required";;
  has_end ← contains timeframe "end";
  assert has_end "End time is required";;
  has_description ← contains loaded "description";
  assert has_description "Description is required";;
  has_reason ← contains loaded "reason";
  assert has_reason "Reason for timeframe selection is required";;
  start_text ← field timeframe "start";
  start ← strptime_value start_text;
  end_text ← field timeframe "end";
  stop ← strptime_value end_text;
  assert (start <? stop) "Start time must be before end time";;
  assert (today <=? start) "Start time cannot be in the past";;
  supplied ← setdefault loaded "attendees" (YList []);
  attendees ← add_participants supplied
                (p_sender inputs :: p_cc_list inputs ++ p_bcc_list inputs);
  location ← setdefault loaded "location" (YStr EmptyString);
  reason ← field loaded "reason";
  description ← field loaded "description";
  joinable attendees;;
  Ok {| duration := duration;
        timeframe := (start, stop);
        attendees := attendees;
        location := location;
        description := description;
        reason := reason |}.

Definition exec (inputs : Prepared) : Eff Meeting :=
  let today := now in
  loaded ← ask (AskDetails (p_email_body inputs) (p_sender inputs)
                  (p_to_list inputs) (p_cc_list inputs) (p_bcc_list inputs)
                  (p_config inputs) today);
  pure (validate inputs today loaded).

Definition new_request (exec_res : Meeting) : Request :=
  {| status := "pending";
     meeting := exec_res;
     available_slots := [];
     chosen_slot := SlotRaw YNull;
     event := None |}.

Definition post (shared : Shared) (email_id : string)
    (prep_res : Prepared) (exec_res : Meeting) : Eff (Shared * string) :=
  pure (shared' ← update_email shared email_id
                    (fun msg => Ok (set_request msg (new_request exec_res)));
        Ok (shared', "check_availability")).

End Node.
End AvailabilityRangeExtractorNode.

Module AvailabilityCheckerNode.
Section Node.
Context `{Collaborators}.

Record Prepared : Type := {
  p_start_time : datetime;
  p_end_time : datetime;
  p_duration : yaml;
  p_working_hours : Z * Z
}.

Definition prep (shared : Shared) (email_id : string) : result Prepared :=
  msg ← pending_email shared email_id;
  r ← item "request" (request msg);
  Ok {| p_start_time := fst (timeframe (meeting r));
        p_end_time := snd (timeframe (meeting r));
        p_duration := duration (meeting r);
        p_working_hours := working_hours (config shared) |}.

(** The integer a loaded value stands for where Python wants a number. *)
Definition int_value (y : yaml) : result Z :=
  match y with
  | YInt z => Ok z
  | YBool b => Ok (if b then 1 else 0)
  | _ => Raise TypeError
  end.

Definition exec (inputs : Prepared) : Eff (list TimeSlot) :=
  n ← pure (int_value (p_duration inputs));
  SlotResolver.check_availability (p_start_time inputs) (p_end_time inputs)
    (minutes n) (p_working_hours inputs).

Definition set_available_slots (slots : list TimeSlot) (r : Request) : Request :=
  {| status := status r; meeting := meeting r; available_slots := slots;
     chosen_slot := chosen_slot r; event := event r |}.

Definition post (shared : Shared) (email_id : string)
    (prep_res : Prepared) (exec_res : list TimeSlot) : Eff (Shared * string) :=
  pure (shared' ← update_request shared email_id (set_available_slots exec_res);
        Ok (shared', "decide_next_action")).

End Node.
End AvailabilityCheckerNode.

Module ActionDeciderNode.
Section Node.
Context `{Collaborators}.

Record Prepared : Type := {
  p_email_body : string;
  p_available_slots : list TimeSlot;
  p_meeting : Meeting;
  p_config : Config
}.

(** What [exec] returns: the loaded mapping, its [chosen_slot] converted
    when the action is [schedule] and a slot was given. *)
Record Decision : Type := {
  d_action : yaml;
  d_reason : yaml;
  d_chosen_slot : ChosenSlot
}.

Definition prep (shared : Shared) (email_id : string) : result Prepared :=
  msg ← pending_email shared email_id;
  r ← item "request" (request msg);
  Ok {| p_email_body := body msg;
        p_available_slots := available_slots r;
        p_meeting := meeting r;
        p_config := config shared |}.

(** [start_str, end_str = chosen.split(" to ")] and the two [strptime]
    calls; the end takes its date from the start. *)
Definition convert (chosen : yaml) : result ChosenSlot :=
  match chosen with
  | YStr text =>
      match split " to " text with
      | [start_str; end_str] =>
          start ← strptime start_str;
          stop ← strptime (String.append (hd EmptyString (split " " start_str))
                             (String.append " " end_str));
          Ok (SlotPair start stop)
      | _ => Raise ValueError
      end
  | _ => Raise AttributeError
  end.

(** The body of [exec] after the reasoning step has answered. *)
Definition interpret (loaded : yaml) : result Decision :=
  action ← field loaded "action";
  converted ← (if eq_str action "schedule"
               then chosen ← field loaded "chosen_slot";
                    if truthy chosen then slot ← convert chosen; Ok (Some slot)
                    else Ok None
               else Ok None);
  reason ← field loaded "reason";
  chosen ← field loaded "chosen_slot";
  Ok {| d_action := action;
        d_reason := reason;
        d_chosen_slot := match converted : option ChosenSlot with
                         | Some slot => slot
                         | None => SlotRaw chosen
                         end |}.

Definition exec (inputs : Prepared) : Eff Decision :=
  loaded ← ask (AskAction (p_email_body inputs) (p_available_slots inputs)
                  (p_config inputs));
  pure (interpret loaded).

Definition set_chosen_slot (slot : ChosenSlot) (r : Request) : Request :=
  {| status := status r; meeting := meeting r;
     available_slots := available_slots r;
     chosen_slot := slot; event := event r |}.

Definition post (shared : Shared) (email_id : string)
    (prep_res : Prepared) (exec_res : Decision) : Eff (Shared * string) :=
  if eq_str (d_action exec_res) "schedule"
  then pure (shared' ← update_request shared email_id
                         (set_chosen_slot (d_chosen_slot exec_res));
             Ok (shared', "schedule"))
  else pure (Ok (shared, "ask_time")).

End Node.
End ActionDeciderNode.

Module MeetingSchedulerNode.
Section Node.
Context `{Collaborators}.

Definition prep (shared : Shared) (email_id : string)
    : result (Meeting * ChosenSlot) :=
  msg ← pending_email shared email_id;
  r ← item "request" (request msg);
  Ok (meeting r, chosen_slot r).

(** [start_time, end_time = inputs["chosen_slot"]]. A value the decider
    did not convert is falsy where it was stored ([None], [False], 0, an
    empty string, list or mapping), and unpacking such a value raises. *)
Definition unpack (slot : ChosenSlot) : result (datetime * datetime) :=
  match slot with
  | SlotPair start stop => Ok (start, stop)
  | SlotRaw (YStr _) | SlotRaw (YList _) | SlotRaw (YMap _) => Raise ValueError
  | SlotRaw _ => Raise TypeError
  end.

Definition exec (inputs : Meeting * ChosenSlot) : Eff yaml :=
  times ← pure (unpack (snd inputs));
  let meeting_details :=
    {| md_title := description (fst inputs);
       md_start_time := fst (times : datetime * datetime);
       md_end_time := snd times;
       md_description := description (fst inputs);
       md_attendees := attendees (fst inputs);
       md_location := location (fst inputs) |} in
  created ← perform (CreateEvent (fst times) (snd times))
              (schedule_meeting meeting_details);
  (* [event.get('htmlLink')] in the log line *)
  if is_dict created then pure (Ok created) else pure (Raise AttributeError).

Definition set_scheduled (created : yaml) (r : Request) : Request :=
  {| status := "scheduled"; meeting := meeting r;
     available_slots := available_slots r;
     chosen_slot := chosen_slot r; event := Some created |}.

Definition post (shared : Shared) (email_id : string)
    (prep_res : Meeting * ChosenSlot) (exec_res : yaml) : Eff (Shared * string) :=
  pure (shared' ← update_request shared email_id (set_scheduled exec_res);
        Ok (shared', "send_confirmation")).

End Node.
End MeetingSchedulerNode.

(** The fields the three drafting nodes prepare in common. *)
Record Envelope : Type := {
  e_meeting : Meeting;
  e_config : Config;
  e_original_subject : string;
  e_sender : string;
  e_to : list string;
  e_cc : list string;
  e_bcc : list string
}.

Definition envelope (shared : Shared) (msg : Message) (r : Request) : Envelope :=
  {| e_meeting := meeting r;
     e_config := config shared;
     e_original_subject := get_default (subject msg) "Meeting Coordination";
     e_sender := sender msg;
     e_to := get_default (to msg) [];
     e_cc := cc msg;
     e_bcc := bcc msg |}.

(** The finalize stage the three drafting nodes share:
    [shared["pending_emails"][email_id]["draft_email"] = {...}]. *)
Definition store_draft (shared : Shared) (email_id : string) (exec_res : yaml)
    : Eff (Shared * string) :=
  pure (d ← item "pending_emails" (pending_emails shared);
        msg ← item email_id (PyDict.get email_id d);
        content ← field exec_res "body";
        shared' ← update_email shared email_id (fun msg =>
                    Ok (set_draft msg
                          {| draft_subject :=
                               get_default (subject msg) "Meeting Coordination";
                             draft_body := content |}));
        Ok (shared', "send_email")).

Module ScheduleConfirmationEmailNode.
Section Node.
Context `{Collaborators}.

Definition prep (shared : Shared) (email_id : string) : result (Envelope * yaml) :=
  msg ← pending_email shared email_id;
  r ← item "request" (request msg);
  created ← item "event" (event r);
  Ok (envelope shared msg r, created).

(** [datetime.fromisoformat(inputs["event"][key]["dateTime"])] *)
Definition event_time (created : yaml) (key : string) : result datetime :=
  at_key ← field created key;
  text ← field at_key "dateTime";
  fromisoformat_value text.

Definition exec (inputs : Envelope * yaml) : Eff yaml :=
  let '(env, created) := inputs in
  start_time ← pure (event_time created "start");
  end_time ← pure (event_time created "end");
  ask (AskConfirmation (e_meeting env) created start_time end_time
         (e_sender env) (e_to env) (e_cc env) (e_bcc env)
         (e_original_subject env) (e_config env)).

Definition post (shared : Shared) (email_id : string)
    (prep_res : Envelope * yaml) (exec_res : yaml) : Eff (Shared * string) :=
  store_draft shared email_id exec_res.

End Node.
End ScheduleConfirmationEmailNode.

Module ProposalEmailNode.
Section Node.
Context `{Collaborators}.

Definition prep (shared : Shared) (email_id : string)
    : result (Envelope * list TimeSlot) :=
  msg ← pending_email shared email_id;
  r ← item "request" (request msg);
  Ok (envelope shared msg r, available_slots r).

Definition exec (inputs : Envelope * list TimeSlot) : Eff yaml :=
  let '(env, slots) := inputs in
  ask (AskProposal (e_meeting env) slots
         (e_sender env) (e_to env) (e_cc env) (e_bcc env)
         (e_original_subject env) (e_config env)).

Definition post (shared : Shared) (email_id : string)
    (prep_res : Envelope * list TimeSlot) (exec_res : yaml) : Eff (Shared * string) :=
  store_draft shared email_id exec_res.

End Node.
End ProposalEmailNode.

Module NoSlotsEmailNode.
Section Node.
Context `{Collaborators}.

Definition prep (shared : Shared) (email_id : string) : result Envelope :=
  msg ← pending_email shared email_id;
  r ← item "request" (request msg);
  Ok (envelope shared msg r).

Definition exec (env : Envelope) : Eff yaml :=
  ask (AskNoSlots (e_meeting env)
         (e_sender env) (e_to env) (e_cc env) (e_bcc env)
         (e_original_subject env) (e_config env)).

Definition post (shared : Shared) (email_id : string)
    (prep_res : Envelope) (exec_res : yaml) : Eff (Shared * string) :=
  store_draft shared email_id exec_res.

End Node.
End NoSlotsEmailNode.

Module EmailSenderNode.
Section Node.
Context `{Collaborators}.

Definition prep (shared : Shared) (email_id : string) : result Outgoing :=
  msg ← pending_email shared email_id;
  draft ← item "draft_email" (draft_email msg);
  r ← item "request" (request msg);
  Ok {| out_subject := draft_subject draft;
        out_body := draft_body draft;
        out_to_emails := attendees (meeting r);
        out_from_email := username (email (config shared));
        out_app_password := password (email (config shared));
        out_in_reply_to := message_id msg;
        out_references := get_default (references msg) [] |}.

Definition exec (inputs : Outgoing) : Eff bool :=
  perform (SendEmail (out_in_reply_to inputs)) (send_email inputs);;
  pure (Ok true).

Definition post (shared : Shared) (email_id : string)
    (prep_res : Outgoing) (exec_res : bool) : Eff (Shared * string) :=
  pure (Ok (shared, "end")).

End Node.
End EmailSenderNode.

Module EmailAnalysisBatchFlow.

(** [[{"email_id": email_id} for email_id in shared["pending_emails"].keys()]]:
    one parameter set per pending message, in the order of the mapping. *)
Definition prep (shared : Shared) : result (list string) :=
  d ← item "pending_emails" (pending_emails shared);
  Ok (PyDict.keys d).

End EmailAnalysisBatchFlow.

(** ** The graph *)

Module Graph.

(** The node objects the module creates. *)
Inductive NodeId : Type :=
  | email_fetcher
  | email_analyzer
  | range_extractor
  | availability_checker
  | action_decider
  | meeting_scheduler
  | schedule_confirmation
  | time_proposal
  | no_slots
  | email_sender
  | email_analysis.

#[global] Instance node_eq_dec : EqDecision NodeId.
Proof. solve_decision. Defined.

Definition node_eqb (a b : NodeId) : bool := bool_decide (a = b).

Definition node_name (n : NodeId) : string :=
  match n with
  | email_fetcher => "email_fetcher"
  | email_analyzer => "email_analyzer"
  | range_extractor => "range_extractor"
  | availability_checker => "availability_checker"
  | action_decider => "action_decider"
  | meeting_scheduler => "meeting_scheduler"
  | schedule_confirmation => "schedule_confirmation"
  | time_proposal => "time_proposal"
  | no_slots => "no_slots"
  | email_sender => "email_sender"
  | email_analysis => "email_analysis"
  end.

(** One line [src - "action" >> dst] of the wiring; [None] is the
    termination marker. *)
Definition Edge : Type := (NodeId * string * option NodeId)%type.

Definition Table : Type := list Edge.

(** The wiring of [flow.py], line by line. *)
Definition wiring : Table := [
  (email_analyzer, "extract_availability_range", Some range_extractor);
  (email_analyzer, "end", None);
  (range_extractor, "check_availability", Some availability_checker);
  (availability_checker, "decide_next_action", Some action_decider);
  (action_decider, "schedule", Some meeting_scheduler);
  (action_decider, "ask_time", Some time_proposal);
  (meeting_scheduler, "send_confirmation", Some schedule_confirmation);
  (schedule_confirmation, "send_email", Some email_sender);
  (time_proposal, "send_email", Some email_sender);
  (email_sender, "end", None);
  (email_fetcher, "monitor", Some email_fetcher);
  (email_fetcher, "analyze_batch", Some email_analysis);
  (email_analysis, "default", Some email_fetcher)
].

(** [EmailAnalysisBatchFlow(start=email_analyzer)] and
    [Flow(start=email_fetcher)] *)
Definition batch_start : NodeId := email_analyzer.
Definition main_start : NodeId := email_fetcher.

(** Modelled from the spec: the lookup in the transition table (section 2;
    the table itself is kept by the pocketflow package). What is registered
    for an action of a node: nothing, the termination marker, or a
    destination. *)
Fixpoint successor (table : Table) (n : NodeId) (action : string)
    : option (option NodeId) :=
  match table with
  | [] => None
  | (src, a, dst) :: rest =>
      if node_eqb src n && String.eqb a action then Some dst
      else successor rest n action
  end.

(** The action names a node's finalize stage can return: the [return]
    statements of its [post]; the batch flow hands back ["default"]. *)
Definition emits (n : NodeId) : list string :=
  match n with
  | email_fetcher => ["monitor"; "analyze_batch"]
  | email_analyzer => ["extract_availability_range"; "end"]
  | range_extractor => ["check_availability"]
  | availability_checker => ["decide_next_action"]
  | action_decider => ["schedule"; "ask_time"]
  | meeting_scheduler => ["send_confirmation"]
  | schedule_confirmation => ["send_email"]
  | time_proposal => ["send_email"]
  | no_slots => ["send_email"]
  | email_sender => ["end"]
  | email_analysis => ["default"]
  end.

(** Modelled from the spec: the nodes a transition table names (section
    4.2), its sources and destinations. *)
Fixpoint endpoints (table : Table) : list NodeId :=
  match table with
  | [] => []
  | (src, _, Some dst) :: rest => src :: dst :: endpoints rest
  | (src, _, None) :: rest => src :: endpoints rest
  end.

(** Modelled from the spec: the nodes of the graph that construction
    checks (section 4.2): the two start nodes and the nodes the table
    names. *)
Definition nodes (table : Table) : list NodeId :=
  main_start :: batch_start :: endpoints table.

End Graph.

(** ** The orchestration engine *)

Module Engine.
Import Graph.

(** How a walk ended: on a termination marker, with an exception, on an
    action nobody registered, or not yet (the fuel of the model ran
    out). *)
Inductive Outcome : Type :=
  | Completed (last_action : string)
  | Failed (e : exn)
  | Unregistered (n : NodeId) (action : string)
  | Running.

Record Walk : Type := {
  path : list NodeId;
  effects : list Effect;
  final : Shared;
  outcome : Outcome
}.

Record Batch : Type := {
  outcomes : list (string * Outcome);
  visited : list (string * list NodeId);
  batch_effects : list Effect;
  batch_final : Shared;
  aggregate : string
}.

(** Modelled from the spec: the node lifecycle of section 4.1 (the base
    class [Node] belongs to the pocketflow package, which is not among
    the sources). The three stages run strictly in order; an exception of
    one stage ends the invocation. *)
Definition stages {P E : Type} (prepared : result P) (exec : P -> Eff E)
    (post : P -> E -> Eff (Shared * string)) : Eff (Shared * string) :=
  prep_res ← pure prepared;
  exec_res ← exec prep_res;
  post prep_res exec_res.

(** Modelled from the spec: graph construction with the check of section
    4.2 (the class [Flow] belongs to the pocketflow package). The pairs
    (node, action) a node of the table can emit and nobody registered. *)
Definition uncovered (table : Table) : list (NodeId * string) :=
  flat_map
    (fun n => flat_map
                (fun a => match successor table n a with
                          | None => [(n, a)]
                          | Some _ => []
                          end)
                (emits n))
    (nodes table).

(** Modelled from the spec: construction fails with a configuration error
    when some emitted action has no registered destination and no
    termination marker (section 4.2); it reads the table only. *)
Definition construct (table : Table) : result Table :=
  match uncovered table with
  | [] => Ok table
  | (n, a) :: _ => Raise (ConfigurationError (node_name n) a)
  end.

(** Modelled from the spec: one graph walk (sections 4.1 and 4.3; the
    loop itself belongs to the pocketflow package). From the current
    node, run the node, look its action up in the transition table and
    go on to the destination, until a termination marker is reached or a
    stage raises. *)
Fixpoint walk (run : NodeId -> Shared -> Eff (Shared * string))
    (table : Table) (fuel : nat) (curr : NodeId) (shared : Shared) : Walk :=
  match fuel with
  | O => {| path := []; effects := []; final := shared; outcome := Running |}
  | S fuel' =>
      match run curr shared with
      | (t, Raise e) =>
          {| path := [curr]; effects := t; final := shared; outcome := Failed e |}
      | (t, Ok (shared', action)) =>
          match successor table curr action with
          | None =>
              {| path := [curr]; effects := t; final := shared';
                 outcome := Unregistered curr action |}
          | Some None =>
              {| path := [curr]; effects := t; final := shared';
                 outcome := Completed action |}
          | Some (Some next) =>
              let w := walk run table fuel' next shared' in
              {| path := curr :: path w; effects := t ++ effects w;
                 final := final w; outcome := outcome w |}
          end
      end
  end.

(** Modelled from the spec: the batch runner of section 4.3 (the class
    [BatchFlow] belongs to the pocketflow package). The items are walked
    in snapshot order over the shared workspace; each walk's outcome is
    collected, a failed walk does not stop the next one. *)
Fixpoint run_items (walk_item : string -> Shared -> Walk)
    (keys : list string) (shared : Shared) : Batch :=
  match keys with
  | [] => {| outcomes := []; visited := []; batch_effects := [];
             batch_final := shared; aggregate := "default" |}
  | key :: rest =>
      let w := walk_item key shared in
      let b := run_items walk_item rest (final w) in
      {| outcomes := (key, outcome w) :: outcomes b;
         visited := (key, path w) :: visited b;
         batch_effects := effects w ++ batch_effects b;
         batch_final := batch_final b;
         aggregate := aggregate b |}
  end.

Section Engine.
Context `{Collaborators}.

(** Modelled from the spec: a node bound to one message (section 4.3, the
    item key is the walk's parameter); the stages themselves are those of
    [flow.py]. A node bound to one message: its three stages, with
    [email_id] as the walk's parameter. The wiring leads no message's walk to the two nodes
    of the main flow; reaching one is reported as a configuration
    error. *)
Definition run_item_node (email_id : string) (n : NodeId) (shared : Shared)
    : Eff (Shared * string) :=
  match n with
  | email_analyzer =>
      stages (EmailIntentAnalyzerNode.prep shared email_id)
        EmailIntentAnalyzerNode.exec (EmailIntentAnalyzerNode.post shared email_id)
  | range_extractor =>
      stages (AvailabilityRangeExtractorNode.prep shared email_id)
        AvailabilityRangeExtractorNode.exec
        (AvailabilityRangeExtractorNode.post shared email_id)
  | availability_checker =>
      stages (AvailabilityCheckerNode.prep shared email_id)
        AvailabilityCheckerNode.exec (AvailabilityCheckerNode.post shared email_id)
  | action_decider =>
      stages (ActionDeciderNode.prep shared email_id)
        ActionDeciderNode.exec (ActionDeciderNode.post shared email_id)
  | meeting_scheduler =>
      stages (MeetingSchedulerNode.prep shared email_id)
        MeetingSchedulerNode.exec (MeetingSchedulerNode.post shared email_id)
  | schedule_confirmation =>
      stages (ScheduleConfirmationEmailNode.prep shared email_id)
        ScheduleConfirmationEmailNode.exec
        (ScheduleConfirmationEmailNode.post shared email_id)
  | time_proposal =>
      stages (ProposalEmailNode.prep shared email_id)
        ProposalEmailNode.exec (ProposalEmailNode.post shared email_id)
  | no_slots =>
      stages (NoSlotsEmailNode.prep shared email_id)
        NoSlotsEmailNode.exec (NoSlotsEmailNode.post shared email_id)
  | email_sender =>
      stages (EmailSenderNode.prep shared email_id)
        EmailSenderNode.exec (EmailSenderNode.post shared email_id)
  | email_fetcher | email_analysis =>
      pure (Raise (ConfigurationError (node_name n) "nested in a batch walk"))
  end.

(** The walks of the model stop after [item_fuel] nodes; no path of the
    wiring from the batch's start node is that long. *)
Definition item_fuel : nat := 8.

(** Modelled from the spec: one item's walk (section 4.3), through a
    table, from the batch's start node. *)
Definition walk_item (table : Table) (email_id : string) (shared : Shared) : Walk :=
  walk (run_item_node email_id) table item_fuel batch_start shared.

(** Modelled from the spec: the batch flow as one step of its caller
    (section 4.3). The snapshot of the item keys is taken first; after
    all items the single aggregate action goes back to the caller. *)
Definition run_batch (table : Table) (shared : Shared) : result Batch :=
  keys ← EmailAnalysisBatchFlow.prep shared;
  Ok (run_items (walk_item table) keys shared).

(** Modelled from the spec: a node of the polling flow (section 4.4),
    which binds no message: the fetcher runs its three stages, the batch flow runs the batch, and a per-message node
    would miss its parameter ([self.params["email_id"]]). *)
Definition run_main_node (table : Table) (n : NodeId) (shared : Shared)
    : Eff (Shared * string) :=
  match n with
  | email_fetcher =>
      stages (EmailFetcherNode.prep shared) EmailFetcherNode.exec
        (EmailFetcherNode.post shared)
  | email_analysis =>
      match run_batch table shared with
      | Ok b => (batch_effects b, Ok (batch_final b, aggregate b))
      | Raise e => ([], Raise e)
      end
  | _ => pure (Raise (KeyError "email_id"))
  end.

End Engine.
End Engine.

(** ** Concrete collaborators for the examples *)

Module Demo.

Definition digit (c : ascii) : option Z :=
  let n := Z.of_nat (nat_of_ascii c) in
  if (48 <=? n) && (n <=? 57) then Some (n - 48) else None.

(** The number two digits spell. *)
Definition two (a b : ascii) : option Z :=
  match digit a, digit b with
  | Some x, Some y => Some (10 * x + y)
  | _, _ => None
  end.

Definition is_leap (y : Z) : bool :=
  ((y mod 4 =? 0) && negb (y mod 100 =? 0)) || (y mod 400 =? 0).

Definition days_in_month (y m : Z) : Z :=
  if m =? 2 then (if is_leap y then 29 else 28)
  else if (m =? 4) || (m =? 6) || (m =? 9) || (m =? 11) then 30
  else 31.

(** Days from 1970-01-01 to the given day of the Gregorian calendar. *)
Definition days_from_civil (y m d : Z) : Z :=
  let y' := if m <=? 2 then y - 1 else y in
  let era := y' / 400 in
  let yoe := y' - era * 400 in
  let doy := (153 * (if 2 <? m then m - 3 else m + 9) + 2) / 5 + d - 1 in
  let doe := yoe * 365 + yoe / 4 - yoe / 100 + doy in
  era * 146097 + doe - 719468.

(** [datetime(y, m, d, h, mi)] *)
Definition at_time (y m d h mi : Z) : datetime :=
  days_from_civil y m d * day + h * hour + mi * minute.

(** [datetime.strptime(s, "%Y-%m-%d %H:%M ET")] on the zero-padded layout
    [YYYY-MM-DD HH:MM ET], the one the prompts ask for; other texts are
    refused here. *)
Definition strptime_padded (s : string) : result datetime :=
  match s with
  | String y1 (String y2 (String y3 (String y4 (String "-"
    (String m1 (String m2 (String "-" (String d1 (String d2 (String " "
    (String h1 (String h2 (String ":" (String n1 (String n2 (String " "
    (String "E" (String "T" EmptyString)))))))))))))))))) =>
      match two y1 y2, two y3 y4, two m1 m2, two d1 d2, two h1 h2, two n1 n2 with
      | Some yh, Some yl, Some m, Some d, Some h, Some mi =>
          let y := 100 * yh + yl in
          if (1 <=? y) && (1 <=? m) && (m <=? 12) && (1 <=? d)
             && (d <=? days_in_month y m) && (h <=? 23) && (mi <=? 59)
          then Ok (at_time y m d h mi)
          else Raise ValueError
      | _, _, _, _, _, _ => Raise ValueError
      end
  | _ => Raise ValueError
  end.

Definition lower_ascii (c : ascii) : ascii :=
  let n := nat_of_ascii c in
  if (65 <=? n)%nat && (n <=? 90)%nat then ascii_of_nat (n + 32) else c.

Fixpoint lower (s : string) : string :=
  match s with
  | EmptyString => EmptyString
  | String c s' => String (lower_ascii c) (lower s')
  end.

(** [email.utils.getaddresses([x])[0][1].lower().strip()] on a bare
    address without blanks: the address itself, in lower case. *)
Definition getaddress_bare (x : string) : result string := Ok (lower x).

(** The prompt of the examples: what it is for and the text it is about. *)
Definition prompt_key (q : Query) : string :=
  String.append (purpose q)
    (String.append ": "
       match q with
       | AskIntent email_body _ => email_body
       | AskDetails email_body _ _ _ _ _ _ => email_body
       | AskAction email_body _ _ => email_body
       | AskConfirmation _ _ _ _ _ _ _ _ original_subject _ => original_subject
       | AskProposal _ _ _ _ _ _ original_subject _ => original_subject
       | AskNoSlots _ _ _ _ _ original_subject _ => original_subject
       end).

(** The event the calendar of the examples creates. *)
Definition created_event : yaml :=
  YMap [("htmlLink", YStr "https://calendar.example/event/1");
        ("start", YMap [("dateTime", YStr "2030-01-07T20:00:00")]);
        ("end", YMap [("dateTime", YStr "2030-01-07T21:00:00")])].

(** [datetime.fromisoformat] on the two texts of [created_event]. *)
Definition fromisoformat_known (s : string) : result datetime :=
  if String.eqb s "2030-01-07T20:00:00" then Ok (at_time 2030 1 7 20 0)
  else if String.eqb s "2030-01-07T21:00:00" then Ok (at_time 2030 1 7 21 0)
  else Raise ValueError.

(** Collaborators with scripted answers: [inbox] is what the mailbox
    holds, [answers] what the reasoning step says to each prompt (a
    prompt without an answer gets a reply without a fenced block),
    [busy] what the calendar reports, [clock] the current time. *)
Definition scripted (inbox : list Message) (answers : list (string * yaml))
    (busy : list TimeSlot) (clock : datetime) : Collaborators :=
  {| check_unread_emails := fun _ _ => Ok inbox;
     prompt := prompt_key;
     call_llm := fun p => Ok p;
     load_yaml_block := fun response =>
       match PyDict.get response answers with
       | Some y => Ok y
       | None => Raise IndexError
       end;
     getaddress := getaddress_bare;
     strptime := strptime_padded;
     fromisoformat := fromisoformat_known;
     now := clock;
     list_busy := fun _ _ => Ok busy;
     schedule_meeting := fun _ => Ok created_event;
     send_email := fun _ => Ok tt |}.

Definition the_config : Config :=
  {| authorized_user := "boss@example.com";
     email := {| username := "scheduler@example.com"; password := "app-password" |};
     working_hours := (9, 17) |}.

Definition mail (id from : string) (to_list cc_list : list string) (text : string)
    : Message :=
  {| sender := from; to := Some to_list; cc := cc_list; bcc := [];
     subject := Some id; body := text; message_id := id;
     references := None; request := None; draft_email := None |}.

Definition workspace (msgs : list Message) : Shared :=
  {| config := the_config;
     pending_emails := Some (PyDict.comprehension message_id msgs) |}.

Definition empty_workspace : Shared :=
  {| config := the_config; pending_emails := None |}.

End Demo.

(** ** Inputs of the examples *)

Module Examples.
Import Demo.

Definition clock : datetime := at_time 2030 1 1 8 0.

Definition monday_mail : Message :=
  mail "m1" "boss@example.com" ["team@example.com"] ["amy@example.com"]
    "Let us meet on Monday evening".

Definition extractor_inputs : AvailabilityRangeExtractorNode.Prepared :=
  {| AvailabilityRangeExtractorNode.p_email_body := "Let us meet on Monday evening";
     AvailabilityRangeExtractorNode.p_sender := "boss@example.com";
     AvailabilityRangeExtractorNode.p_to_list := ["team@example.com"];
     AvailabilityRangeExtractorNode.p_cc_list := ["amy@example.com"];
     AvailabilityRangeExtractorNode.p_bcc_list := [];
     AvailabilityRangeExtractorNode.p_config := the_config |}.

(** An answer of the detail extractor. *)
Definition details (start stop : string) (invited : list yaml) : yaml :=
  YMap [("duration", YInt 60);
        ("timeframe", YMap [("start", YStr start); ("end", YStr stop)]);
        ("attendees", YList invited);
        ("description", YStr "weekly sync");
        ("reason", YStr "the email names Monday evening")].

Definition good_details : yaml :=
  details "2030-01-07 09:00 ET" "2030-01-11 17:00 ET" [YStr "amy@example.com"].

Definition inverted_details : yaml :=
  details "2030-01-11 17:00 ET" "2030-01-07 09:00 ET" [YStr "amy@example.com"].

Definition duplicate_details : yaml :=
  details "2030-01-07 09:00 ET" "2030-01-11 17:00 ET"
    [YStr "zoe@example.com"; YStr "zoe@example.com"].

(** Collaborators whose detail extractor gives [answer]. *)
Definition extracting (answer : yaml) : Collaborators :=
  scripted [] [("details: Let us meet on Monday evening", answer)] [] clock.

(** The message of [monday_mail] once its request asks for an hour
    between Monday 2030-01-07 09:00 and 17:00, with [free] as the free
    slots found. *)
Definition monday_meeting : Meeting :=
  {| duration := YInt 60;
     timeframe := (at_time 2030 1 7 9 0, at_time 2030 1 7 17 0);
     attendees := YList [YStr "amy@example.com"; YStr "boss@example.com"];
     location := YStr EmptyString;
     description := YStr "weekly sync";
     reason := YStr "the email names Monday evening" |}.

Definition requested (free : list TimeSlot) : Message :=
  set_request monday_mail
    {| status := "pending"; meeting := monday_meeting;
       available_slots := free; chosen_slot := SlotRaw YNull; event := None |}.

Definition working_day : TimeSlot :=
  (at_time 2030 1 7 9 0, at_time 2030 1 7 17 0).

(** An answer of the action decider. *)
Definition decision (action : string) (chosen : yaml) : yaml :=
  YMap [("action", YStr action);
        ("reason", YStr "the email names Monday evening");
        ("chosen_slot", chosen)].

(** Collaborators whose action decider gives [answer]. *)
Definition deciding (answer : yaml) : Collaborators :=
  scripted [] [("action: Let us meet on Monday evening", answer)] [] clock.

Definition evening : yaml := YStr "2030-01-07 20:00 ET to 21:00 ET".

Definition decider_prepared : ActionDeciderNode.Prepared :=
  {| ActionDeciderNode.p_email_body := "Let us meet on Monday evening";
     ActionDeciderNode.p_available_slots := [working_day];
     ActionDeciderNode.p_meeting := monday_meeting;
     ActionDeciderNode.p_config := the_config |}.

(** What the decider makes of the answer [decision "schedule" evening]. *)
Definition evening_decision : ActionDeciderNode.Decision :=
  {| ActionDeciderNode.d_action := YStr "schedule";
     ActionDeciderNode.d_reason := YStr "the email names Monday evening";
     ActionDeciderNode.d_chosen_slot :=
       SlotPair (at_time 2030 1 7 20 0) (at_time 2030 1 7 21 0) |}.

(** An email of another sender that names the authorized user under [to]
    only. *)
Definition stranger_mail : Message :=
  mail "m2" "mallory@example.com" ["boss@example.com"] [] "Buy now".

(** Collaborators whose mailbox holds [inbox]. *)
Definition polling (inbox : list Message) : Collaborators :=
  scripted inbox [] [] clock.

(** A batch of three: the first message is scheduled, the reasoning step
    has no answer about the second, the third is not about scheduling. *)
Definition coffee_mail : Message :=
  mail "m2" "boss@example.com" ["team@example.com"] [] "Coffee next week?".

Definition lunch_mail : Message :=
  mail "m3" "boss@example.com" ["team@example.com"] [] "Lunch was great".

Definition batch_answers : list (string * yaml) :=
  [("intent: Let us meet on Monday evening",
    YMap [("is_scheduling", YBool true); ("reason", YStr "asks for a meeting")]);
   ("details: Let us meet on Monday evening", good_details);
   ("action: Let us meet on Monday evening", decision "schedule" evening);
   ("confirmation: m1", YMap [("body", YStr "See you on Monday at 20:00.")]);
   ("proposal: m1", YMap [("body", YStr "Which time suits you?")]);
   ("intent: Lunch was great",
    YMap [("is_scheduling", YBool false); ("reason", YStr "no request")])].

Definition batching : Collaborators := scripted [] batch_answers [] clock.

Definition batch_workspace : Shared :=
  workspace [monday_mail; coffee_mail; lunch_mail].

(** The wiring of [flow.py] with the line for [ask_time] left out. *)
Definition forgetful_wiring : Graph.Table :=
  List.filter
    (fun e : Graph.Edge => negb (String.eqb (snd (fst e)) "ask_time"))
    Graph.wiring.

(** The calendar is booked from Monday to Saturday; the reasoning step
    answers the action question with [answer]. *)
Definition booked_week : list TimeSlot :=
  [(at_time 2030 1 7 0 0, at_time 2030 1 12 0 0)].

Definition booked (answer : yaml) : Collaborators :=
  scripted []
    [("intent: Let us meet on Monday evening",
      YMap [("is_scheduling", YBool true); ("reason", YStr "asks for a meeting")]);
     ("details: Let us meet on Monday evening", good_details);
     ("action: Let us meet on Monday evening", answer);
     ("confirmation: m1", YMap [("body", YStr "See you on Monday at 20:00.")]);
     ("proposal: m1", YMap [("body", YStr "Which time suits you?")]);
     ("no_slots: m1", YMap [("body", YStr "No time was free.")])]
    booked_week clock.

(** The free slots stored for [m1], if its request exists. *)
Definition stored_slots (shared : Shared) : option (list TimeSlot) :=
  match pending_email shared "m1" with
  | Ok msg => available_slots <$> request msg
  | Raise _ => None
  end.

End Examples.

(** ** Predicates of the statements *)

(** The authorized user takes part in an email: as its sender, or in its
    [cc] or [bcc] list. *)
Definition involved `{Collaborators} (authorized_email : string) (e : Message) : Prop :=
  getaddress (sender e) = Ok authorized_email
  \/ In authorized_email (cc e) \/ In authorized_email (bcc e).

(** The timeframe of the extractor's answer as [exec] parses it. *)
Definition parsed_timeframe `{Collaborators} (loaded : yaml) : result TimeSlot :=
  timeframe ← field loaded "timeframe";
  start_text ← field timeframe "start";
  start ← strptime_value start_text;
  end_text ← field timeframe "end";
  stop ← strptime_value end_text;
  Ok (start, stop).

(** The addresses the extractor adds to the attendees. *)
Definition participants (inputs : AvailabilityRangeExtractorNode.Prepared) : list string :=
  AvailabilityRangeExtractorNode.p_sender inputs
    :: AvailabilityRangeExtractorNode.p_cc_list inputs
    ++ AvailabilityRangeExtractorNode.p_bcc_list inputs.

(** The attendee claim as the specification words it: after a successful
    execute stage the attendees are a list that holds the normalized
    address of every participant and no address twice. *)
Definition attendees_deduplicated : Prop :=
  forall (C : Collaborators) (inputs : AvailabilityRangeExtractorNode.Prepared)
         (t : list Effect) (m : Meeting),
    AvailabilityRangeExtractorNode.exec inputs = (t, Ok m) ->
    exists l, attendees m = YList l
      /\ (forall addr, In addr (participants inputs) ->
            exists a, getaddress addr = Ok a /\ In (YStr a) l)
      /\ List.NoDup l.

Definition details_query `{Collaborators}
    (inputs : AvailabilityRangeExtractorNode.Prepared) : Query :=
  AskDetails (AvailabilityRangeExtractorNode.p_email_body inputs)
    (AvailabilityRangeExtractorNode.p_sender inputs)
    (AvailabilityRangeExtractorNode.p_to_list inputs)
    (AvailabilityRangeExtractorNode.p_cc_list inputs)
    (AvailabilityRangeExtractorNode.p_bcc_list inputs)
    (AvailabilityRangeExtractorNode.p_config inputs) now.

(** A chosen slot lies within one of the listed free slots. *)
Definition within (slot free : TimeSlot) : Prop :=
  fst free <= fst slot /\ snd slot <= snd free.

Definition contained (chosen : ChosenSlot) (free_slots : list TimeSlot) : Prop :=
  exists start stop free,
    chosen = SlotPair start stop /\ In free free_slots /\ within (start, stop) free.

Definition action_query `{Collaborators} (p : ActionDeciderNode.Prepared) : Query :=
  AskAction (ActionDeciderNode.p_email_body p) (ActionDeciderNode.p_available_slots p)
    (ActionDeciderNode.p_config p).

(** The rejection claim as the specification words it: a run of the
    decider whose answer names [schedule] with a slot outside the free
    slots raises. *)
Definition decider_rejects_outside_slots : Prop :=
  forall (C : Collaborators) (shared : Shared) (email_id : string)
         (p : ActionDeciderNode.Prepared) (loaded : yaml)
         (d : ActionDeciderNode.Decision),
    ActionDeciderNode.prep shared email_id = Ok p ->
    snd (ask (action_query p)) = Ok loaded ->
    ActionDeciderNode.interpret loaded = Ok d ->
    eq_str (ActionDeciderNode.d_action d) "schedule" = true ->
    ~ contained (ActionDeciderNode.d_chosen_slot d)
        (ActionDeciderNode.p_available_slots p) ->
    raised (snd (Engine.run_item_node email_id Graph.action_decider shared)).

(** The invariant behind well-formedness: no slot starts before [lo], every
    slot is not empty, and each starts no earlier than its predecessor
    ends. *)
Fixpoint chain (lo : Z) (l : list TimeSlot) : Prop :=
  match l with
  | [] => True
  | s :: rest => lo <= fst s /\ fst s < snd s /\ chain (snd s) rest
  end.

(** Two workspaces look the same to the walk of message [k]: the same
    configuration and the same entry (or the same failure) under [k]. *)
Definition same_for (k : string) (s1 s2 : Shared) : Prop :=
  config s1 = config s2 /\ pending_email s1 k = pending_email s2 k.

(** Two results agree: the same exception, or values related by [R]. *)
Definition agree {A : Type} (R : A -> A -> Prop) (r1 r2 : result A) : Prop :=
  match r1, r2 with
  | Ok a1, Ok a2 => R a1 a2
  | Raise e1, Raise e2 => e1 = e2
  | _, _ => False
  end.

(** Two stages agree: the same effects and agreeing results. *)
Definition agree_eff {A : Type} (R : A -> A -> Prop) (m1 m2 : Eff A) : Prop :=
  fst m1 = fst m2 /\ agree R (snd m1) (snd m2).

(** What two finalize stages return for [k] when they agree: the same
    action, and workspaces that look the same to [k]. *)
Definition same_step (k : string) (x1 x2 : Shared * string) : Prop :=
  snd x1 = snd x2 /\ same_for k (fst x1) (fst x2).

(** The number of nodes a message's walk can still run from a node of the
    wiring. *)
Definition rank (n : Graph.NodeId) : nat :=
  match n with
  | Graph.email_analyzer => 7
  | Graph.range_extractor => 6
  | Graph.availability_checker => 5
  | Graph.action_decider => 4
  | Graph.meeting_scheduler => 3
  | Graph.schedule_confirmation => 2
  | Graph.time_proposal => 2
  | Graph.no_slots => 2
  | Graph.email_sender => 1
  | Graph.email_fetcher => 1
  | Graph.email_analysis => 1
  end.

(** A walk that ended: on the termination marker after [end], or with an
    exception. *)
Definition ended (o : Engine.Outcome) : Prop :=
  o = Engine.Completed "end" \/ exists e, o = Engine.Failed e.

(** ** [utils/call_llm.py] and the fenced block of an answer *)

Module CallLLM.

(** [_cached_call_llm(prompt)]; the cache in front of it does not change
    what is returned. *)
Definition _cached_call_llm (prompt : string) : string :=
  "This is a test response".

(** [call_llm(prompt, use_cache)]: through the cache, or through
    [__wrapped__] without it. *)
Definition call_llm (prompt : string) (use_cache : bool) : string :=
  if use_cache then _cached_call_llm prompt else _cached_call_llm prompt.

End CallLLM.

(** [l[i]] *)
Definition index {A : Type} (l : list A) (i : nat) : result A :=
  match nth_error l i with
  | Some a => Ok a
  | None => Raise IndexError
  end.

(** [response.split("```yaml")[1].split("```")[0]], the text every execute
    stage hands to [strip] and [yaml.safe_load]. *)
Definition fenced_block (response : string) : result string :=
  after ← index (split "```yaml" response) 1;
  index (split "```" after) 0.

(** The collaborators [C] with the reasoning step as the sources have it:
    [call_llm] is the one of [utils/call_llm.py], and an answer is what
    [load] ([yaml.safe_load] after [strip]) makes of the fenced block. *)
Definition shipped (C : Collaborators) (load : string -> result yaml) : Collaborators :=
  {| check_unread_emails := @check_unread_emails C;
     prompt := @prompt C;
     call_llm := fun p => Ok (CallLLM.call_llm p true);
     load_yaml_block := fun response => block ← fenced_block response; load block;
     getaddress := @getaddress C;
     strptime := @strptime C;
     fromisoformat := @fromisoformat C;
     now := @now C;
     list_busy := @list_busy C;
     schedule_meeting := @schedule_meeting C;
     send_email := @send_email C |}.

(** The text in front of the leftmost occurrence of [sep]. *)
Fixpoint before (sep s : string) : string :=
  if String.prefix sep s then EmptyString
  else match s with
       | EmptyString => EmptyString
       | String c s' => String c (before sep s')
       end.

(** ** Inputs of the further examples *)

Module Cases.
Import Demo.

(** An address parser that finds no address in an empty header, so that
    taking the first one raises. *)
Definition getaddress_nonempty (x : string) : result string :=
  match x with
  | EmptyString => Raise IndexError
  | _ => getaddress_bare x
  end.

(** Collaborators whose mailbox holds [inbox] and whose address parser
    refuses an empty sender. *)
Definition careful (inbox : list Message) : Collaborators :=
  {| check_unread_emails := fun _ _ => Ok inbox;
     prompt := prompt_key;
     call_llm := fun p => Ok p;
     load_yaml_block := fun _ => Raise IndexError;
     getaddress := getaddress_nonempty;
     strptime := strptime_padded;
     fromisoformat := fromisoformat_known;
     now := Examples.clock;
     list_busy := fun _ _ => Ok [];
     schedule_meeting := fun _ => Ok created_event;
     send_email := fun _ => Ok tt |}.

Definition fetcher_prepared : EmailFetcherNode.Prepared :=
  {| EmailFetcherNode.p_username := "scheduler@example.com";
     EmailFetcherNode.p_password := "app-password";
     EmailFetcherNode.p_authorized_user := "boss@example.com" |}.

(** An email without a sender, with the authorized user in [cc]. *)
Definition anonymous_mail : Message :=
  mail "m4" EmptyString ["team@example.com"] ["boss@example.com"] "hello".

(** An email of a colleague with the authorized user in [cc]. *)
Definition copied_mail : Message :=
  mail "m5" "amy@example.com" ["team@example.com"] ["boss@example.com"] "FYI".

(** Two emails with one message identifier. *)
Definition first_copy : Message :=
  mail "m6" "boss@example.com" ["team@example.com"] [] "first version".

Definition second_copy : Message :=
  mail "m6" "boss@example.com" ["team@example.com"] [] "second version".

(** An answer of the detail extractor with [minutes] as its duration. *)
Definition timed_details (duration_value : yaml) : yaml :=
  YMap [("duration", duration_value);
        ("timeframe", YMap [("start", YStr "2030-01-07 09:00 ET");
                            ("end", YStr "2030-01-11 17:00 ET")]);
        ("description", YStr "weekly sync");
        ("reason", YStr "the email names Monday evening")].

(** The message of [Examples.requested] once the decider has chosen
    Monday 20:00 to 21:00. *)
Definition chosen_mail : Message :=
  set_request Examples.monday_mail
    {| status := "pending"; meeting := Examples.monday_meeting;
       available_slots := [Examples.working_day];
       chosen_slot := SlotPair (at_time 2030 1 7 20 0) (at_time 2030 1 7 21 0);
       event := None |}.

(** The same message with a draft to send. *)
Definition drafted_mail : Message :=
  set_draft chosen_mail
    {| draft_subject := "m1"; draft_body := YStr "See you on Monday at 20:00." |}.

(** What the decider makes of an answer that names [schedule] without a
    slot. *)
Definition slotless_decision : ActionDeciderNode.Decision :=
  {| ActionDeciderNode.d_action := YStr "schedule";
     ActionDeciderNode.d_reason := YStr "the email names Monday evening";
     ActionDeciderNode.d_chosen_slot := SlotRaw YNull |}.


End Cases.

(** The meeting details with another duration. *)
Definition with_duration (m : Meeting) (d : yaml) : Meeting :=
  {| duration := d; timeframe := timeframe m; attendees := attendees m;
     location := location m; description := description m; reason := reason m |}.

(** The prepare stage of a node finds what it reads in the workspace. *)
Definition prepares (n : Graph.NodeId) (email_id : string) (shared : Shared) : Prop :=
  match n with
  | Graph.email_fetcher => exists p, EmailFetcherNode.prep shared = Ok p
  | Graph.email_analyzer =>
      exists p, EmailIntentAnalyzerNode.prep shared email_id = Ok p
  | Graph.range_extractor =>
      exists p, AvailabilityRangeExtractorNode.prep shared email_id = Ok p
  | Graph.availability_checker =>
      exists p, AvailabilityCheckerNode.prep shared email_id = Ok p
  | Graph.action_decider => exists p, ActionDeciderNode.prep shared email_id = Ok p
  | Graph.meeting_scheduler =>
      exists p, MeetingSchedulerNode.prep shared email_id = Ok p
  | Graph.schedule_confirmation =>
      exists p, ScheduleConfirmationEmailNode.prep shared email_id = Ok p
  | Graph.time_proposal => exists p, ProposalEmailNode.prep shared email_id = Ok p
  | Graph.no_slots => exists p, NoSlotsEmailNode.prep shared email_id = Ok p
  | Graph.email_sender => exists p, EmailSenderNode.prep shared email_id = Ok p
  | Graph.email_analysis => exists keys, EmailAnalysisBatchFlow.prep shared = Ok keys
  end.



(** * Facts *)

(** ** The error monad *)

Lemma bind_Ok {A B} (m : result A) (f : A -> result B) (b : B) :
  m ≫= f = Ok b -> exists a, m = Ok a /\ f a = Ok b.
Proof. destruct m as [a|e]; simpl; [eauto | discriminate]. Qed.

Lemma assert_Ok (c : bool) (msg : string) (u : unit) :
  assert c msg = Ok u -> c = true.
Proof. destruct c; simpl; [reflexivity | discriminate]. Qed.

Lemma item_Ok {A} (key : string) (o : option A) (a : A) :
  item key o = Ok a -> o = Some a.
Proof. destruct o; simpl; congruence. Qed.

(** When a hypothesis says a chain of binds returned, split it into the
    steps that returned. *)
Ltac ok_steps H :=
  match type of H with
  | (_ ≫= _) = Ok _ =>
      let a := fresh "a" in
      let Ha := fresh "Hstep" in
      apply bind_Ok in H; destruct H as (a & Ha & H);
      ok_steps Ha; ok_steps H
  | _ => idtac
  end.

(** ** Dictionaries *)

Section DictFacts.
Context {V : Type}.
Implicit Types (d : PyDict.dict V) (k : string) (v : V).

Lemma get_set_eq k v d : PyDict.get k (PyDict.set k v d) = Some v.
Proof.
  induction d as [|[k' v'] d IH]; simpl.
  - now rewrite String.eqb_refl.
  - destruct (String.eqb k' k) eqn:E; simpl; rewrite E; auto.
Qed.

Lemma get_set_ne k k' v d :
  k <> k' -> PyDict.get k' (PyDict.set k v d) = PyDict.get k' d.
Proof.
  intros Hne. induction d as [|[k0 v0] d IH]; simpl.
  - destruct (String.eqb k k') eqn:E; [|reflexivity].
    apply String.eqb_eq in E. contradiction.
  - destruct (String.eqb k0 k) eqn:E; simpl.
    + apply String.eqb_eq in E; subst k0.
      destruct (String.eqb k k') eqn:E'; [|reflexivity].
      apply String.eqb_eq in E'. contradiction.
    + now rewrite IH.
Qed.

Lemma get_del_ne k k' d :
  k <> k' -> PyDict.get k' (PyDict.del k d) = PyDict.get k' d.
Proof.
  intros Hne. induction d as [|[k0 v0] d IH]; simpl; [reflexivity|].
  destruct (String.eqb k0 k) eqn:E; simpl.
  - apply String.eqb_eq in E; subst k0.
    destruct (String.eqb k k') eqn:E'; [|exact IH].
    apply String.eqb_eq in E'. contradiction.
  - now rewrite IH.
Qed.

Lemma get_del_eq k d : PyDict.get k (PyDict.del k d) = None.
Proof.
  induction d as [|[k0 v0] d IH]; simpl; [reflexivity|].
  destruct (String.eqb k0 k) eqn:E; simpl; [exact IH|].
  now rewrite E.
Qed.

Lemma get_None_keys k d : PyDict.get k d = None <-> ~ In k (PyDict.keys d).
Proof.
  induction d as [|[k0 v0] d IH]; simpl; [tauto|].
  destruct (String.eqb k0 k) eqn:E.
  - apply String.eqb_eq in E; subst k0. split; [discriminate | tauto].
  - apply String.eqb_neq in E. rewrite IH. tauto.
Qed.

Lemma keys_set k v d k' :
  In k' (PyDict.keys (PyDict.set k v d)) <-> k' = k \/ In k' (PyDict.keys d).
Proof.
  induction d as [|[k0 v0] d IH]; simpl.
  - intuition congruence.
  - destruct (String.eqb k0 k) eqn:E; simpl.
    + apply String.eqb_eq in E; subst k0. intuition congruence.
    + rewrite IH. intuition congruence.
Qed.

Lemma keys_fold_set (key : V -> string) (xs : list V) d0 k :
  In k (PyDict.keys (fold_left (fun d x => PyDict.set (key x) x d) xs d0))
  <-> In k (PyDict.keys d0) \/ In k (map key xs).
Proof.
  revert d0. induction xs as [|x xs IH]; intros d0; simpl; [tauto|].
  rewrite IH, keys_set. intuition congruence.
Qed.

Lemma keys_comprehension (key : V -> string) (xs : list V) k :
  In k (PyDict.keys (PyDict.comprehension key xs)) <-> In k (map key xs).
Proof.
  unfold PyDict.comprehension. rewrite keys_fold_set. simpl. tauto.
Qed.

(** Every value of a comprehension is one of the items, filed under its
    own key. *)
Lemma get_fold_set (key : V -> string) (xs : list V) d0 k v :
  PyDict.get k (fold_left (fun d x => PyDict.set (key x) x d) xs d0) = Some v ->
  (In v xs /\ key v = k) \/ PyDict.get k d0 = Some v.
Proof.
  revert d0. induction xs as [|x xs IH]; intros d0; simpl; [tauto|].
  intros Hget. apply IH in Hget. destruct Hget as [[H1 H2]|Hget]; [left; tauto|].
  destruct (string_dec (key x) k) as [E|E].
  - rewrite <- E, get_set_eq in Hget. injection Hget as <-. left; tauto.
  - rewrite get_set_ne in Hget by exact E. now right.
Qed.

Lemma get_comprehension (key : V -> string) (xs : list V) k v :
  PyDict.get k (PyDict.comprehension key xs) = Some v -> In v xs /\ key v = k.
Proof.
  intros Hget. apply get_fold_set in Hget.
  destruct Hget as [Hget|Hget]; [exact Hget | discriminate Hget].
Qed.

(** A dictionary holds each key once; the operations keep it so. *)
Lemma NoDup_keys_set k v d :
  List.NoDup (PyDict.keys d) -> List.NoDup (PyDict.keys (PyDict.set k v d)).
Proof.
  induction d as [|[k0 v0] d IH]; simpl; intros Hnd.
  - constructor; [simpl; tauto | constructor].
  - inversion Hnd as [|? ? Hnotin Hrest]; subst.
    destruct (String.eqb k0 k) eqn:E; simpl.
    + constructor; assumption.
    + constructor; [|auto].
      fold (PyDict.keys (PyDict.set k v d)). rewrite keys_set.
      apply String.eqb_neq in E. intros [->|Hin]; [congruence | contradiction].
Qed.

Lemma NoDup_keys_comprehension (key : V -> string) (xs : list V) :
  List.NoDup (PyDict.keys (PyDict.comprehension key xs)).
Proof.
  unfold PyDict.comprehension.
  assert (Hgen : forall d0, List.NoDup (PyDict.keys d0) ->
            List.NoDup (PyDict.keys (fold_left (fun d x => PyDict.set (key x) x d) xs d0))).
  { induction xs as [|x xs IH]; intros d0 Hd0; simpl; [exact Hd0|].
    apply IH, NoDup_keys_set, Hd0. }
  apply Hgen. constructor.
Qed.

End DictFacts.

(** ** The fetcher *)

Section FetcherFacts.
Context `{Collaborators}.
Import Graph Engine.

Lemma existsb_eqb_In (x : string) (l : list string) :
  existsb (String.eqb x) l = true <-> In x l.
Proof.
  rewrite existsb_exists. split.
  - intros (y & Hin & Heq). apply String.eqb_eq in Heq. now subst.
  - intros Hin. exists x. split; [assumption | apply String.eqb_refl].
Qed.

Lemma involves_true (auth : string) (e : Message) :
  EmailFetcherNode.involves auth e = Ok true -> involved auth e.
Proof.
  unfold EmailFetcherNode.involves, involved.
  destruct (getaddress (sender e)) as [from|err]; simpl; [|discriminate].
  intros [= Hb]. apply orb_true_iff in Hb. destruct Hb as [Hb|Hb].
  - apply orb_true_iff in Hb. destruct Hb as [Hb|Hb].
    + apply String.eqb_eq in Hb. left. now subst.
    + right; left. now apply existsb_eqb_In.
  - right; right. now apply existsb_eqb_In.
Qed.

Lemma keep_authorized_sound (auth : string) (emails kept : list Message) :
  EmailFetcherNode.keep_authorized auth emails = Ok kept ->
  forall e, In e kept -> In e emails /\ involved auth e.
Proof.
  revert kept. induction emails as [|e0 rest IH]; simpl; intros kept Hk e Hin.
  - injection Hk as <-. contradiction.
  - ok_steps Hk. injection Hk as <-.
    destruct a.
    + destruct Hin as [<-|Hin].
      * split; [now left | now apply involves_true].
      * destruct (IH _ Hstep0 _ Hin). split; [now right | assumption].
    + destruct (IH _ Hstep0 _ Hin). split; [now right | assumption].
Qed.

(** What the execute stage hands to the finalize stage: nothing, or a
    list that is not empty and holds only emails that involve the
    authorized user. *)
Lemma fetcher_exec_Some (cfg : EmailFetcherNode.Prepared) (t : list Effect)
    (msgs : list Message) :
  EmailFetcherNode.exec cfg = (t, Ok (Some msgs)) ->
  msgs <> [] /\
  exists emails auth,
    check_unread_emails (EmailFetcherNode.p_username cfg)
      (EmailFetcherNode.p_password cfg) = Ok emails /\
    getaddress (EmailFetcherNode.p_authorized_user cfg) = Ok auth /\
    forall e, In e msgs -> In e emails /\ involved auth e.
Proof.
  unfold EmailFetcherNode.exec, perform, pure. simpl.
  destruct (check_unread_emails _ _) as [emails|err]; simpl; [|discriminate].
  destruct emails as [|e0 rest]; [simpl; discriminate|].
  cbn -[EmailFetcherNode.keep_authorized]. generalize (e0 :: rest). intros emails.
  destruct (getaddress (EmailFetcherNode.p_authorized_user cfg)) as [auth|err];
    cbn -[EmailFetcherNode.keep_authorized]; [|discriminate].
  destruct (EmailFetcherNode.keep_authorized auth emails) as [kept|err] eqn:Hk;
    cbn -[EmailFetcherNode.keep_authorized]; [|discriminate].
  destruct kept as [|k0 krest]; [discriminate|].
  intros [= <- <-]. split; [discriminate|].
  exists emails, auth. repeat split; try reflexivity.
  all: apply (keep_authorized_sound _ _ _ Hk); assumption.
Qed.

(** C6. One polling cycle of the fetcher. When the execute stage found no
    email involving the authorized user, the finalize stage waits 30
    seconds, leaves the workspace as it is and returns [monitor], whose
    registered successor is the fetcher itself. When it found some, the
    finalize stage stores them under [pending_emails], each under its
    message identifier, and returns [analyze_batch], whose registered
    successor is the batch analysis flow. *)
Theorem fetcher_cycle (shared : Shared) (prep_res : EmailFetcherNode.Prepared)
    (exec_res : option (list Message)) :
  ((exec_res = None \/ exec_res = Some []) ->
     EmailFetcherNode.post shared prep_res exec_res
     = ([Sleep 30], Ok (shared, "monitor")))
  /\ successor wiring email_fetcher "monitor" = Some (Some email_fetcher)
  /\ (forall msgs, exec_res = Some msgs -> msgs <> [] ->
       exists d,
         EmailFetcherNode.post shared prep_res exec_res
         = ([], Ok (set_pending shared d, "analyze_batch"))
         /\ (forall k m, PyDict.get k d = Some m -> In m msgs /\ message_id m = k)
         /\ (forall m, In m msgs ->
               exists m', PyDict.get (message_id m) d = Some m'))
  /\ successor wiring email_fetcher "analyze_batch" = Some (Some email_analysis).
Proof.
  split; [|split; [reflexivity|split; [|reflexivity]]].
  - intros [->| ->]; reflexivity.
  - intros msgs -> Hne. exists (PyDict.comprehension message_id msgs).
    split; [|split].
    + destruct msgs; [contradiction | reflexivity].
    + intros k m Hget. now apply get_comprehension.
    + intros m Hin.
      destruct (PyDict.get (message_id m) (PyDict.comprehension message_id msgs))
        as [m'|] eqn:Hget; [eauto|].
      apply get_None_keys in Hget. exfalso. apply Hget.
      apply keys_comprehension. now apply in_map.
Qed.

(** C9. A cycle of the fetcher node that ends with [analyze_batch] leaves
    in the workspace only fetched emails that involve the authorized
    user: the sender's address (parsed, lower case, stripped) is the
    authorized address, or the authorized address is in the email's [cc]
    or [bcc] list. An email of another sender with the authorized address
    in neither list is not stored, whatever its [to] list holds. A cycle
    that ends with [monitor] stores nothing. *)
Theorem fetcher_admits_only_involved (table : Table) (shared shared' : Shared)
    (t : list Effect) (action : string) :
  run_main_node table email_fetcher shared = (t, Ok (shared', action)) ->
  (action = "monitor" /\ shared' = shared)
  \/ (action = "analyze_batch" /\
      exists emails auth d,
        check_unread_emails (username (email (config shared)))
          (password (email (config shared))) = Ok emails
        /\ getaddress (authorized_user (config shared)) = Ok auth
        /\ pending_emails shared' = Some d
        /\ (forall k e, PyDict.get k d = Some e -> In e emails /\ involved auth e)
        /\ (forall e from, getaddress (sender e) = Ok from -> from <> auth ->
              ~ In auth (cc e) -> ~ In auth (bcc e) ->
              forall k, PyDict.get k d <> Some e)).
Proof.
  unfold run_main_node, stages, EmailFetcherNode.prep, pure. simpl.
  destruct (EmailFetcherNode.exec _) as [t1 [exec_res|err]] eqn:Hexec;
    [|discriminate].
  destruct exec_res as [msgs|].
  - destruct (fetcher_exec_Some _ _ _ Hexec) as (Hne & emails & auth & Hf & Ha & Hall).
    destruct msgs as [|m0 msgs']; [contradiction|].
    simpl. intros [= <- <- <-]. right. split; [reflexivity|].
    exists emails, auth, (PyDict.comprehension message_id (m0 :: msgs')).
    split; [exact Hf|split; [exact Ha|split; [reflexivity|split]]].
    + intros k e Hget. apply get_comprehension in Hget. apply Hall, Hget.
    + intros e from Hfrom Hneq Hcc Hbcc k Hget.
      apply get_comprehension in Hget. destruct Hget as [Hin _].
      destruct (Hall e Hin) as [_ [Hs|[Hc|Hb]]]; [|contradiction|contradiction].
      congruence.
  - simpl. intros [= <- <- <-]. left. split; reflexivity.
Qed.

(** C10. When the fetch found emails involving the authorized user, the
    finalize stage puts a new mapping under [pending_emails], built from
    the fetched emails alone: the configuration is kept, every entry of
    the new mapping is a fetched email under its own identifier, and an
    entry stored before under an identifier that is not among the fetched
    ones is gone. *)
Theorem fetcher_post_replaces_pending (shared : Shared)
    (prep_res : EmailFetcherNode.Prepared) (msgs : list Message) :
  msgs <> [] ->
  exists d,
    EmailFetcherNode.post shared prep_res (Some msgs)
    = ([], Ok ({| config := config shared; pending_emails := Some d |},
               "analyze_batch"))
    /\ d = PyDict.comprehension message_id msgs
    /\ (forall k m, PyDict.get k d = Some m -> In m msgs /\ message_id m = k)
    /\ (forall k, In k (map message_id msgs) -> exists m, PyDict.get k d = Some m)
    /\ (forall old k m, pending_emails shared = Some old ->
          PyDict.get k old = Some m ->
          ~ In k (map message_id msgs) -> PyDict.get k d = None).
Proof.
  intros Hne. exists (PyDict.comprehension message_id msgs).
  split; [destruct msgs; [contradiction | reflexivity]|].
  split; [reflexivity|]. split; [|split].
  - intros k m Hget. now apply get_comprehension.
  - intros k Hin.
    destruct (PyDict.get k (PyDict.comprehension message_id msgs)) as [m|] eqn:Hget;
      [eauto|].
    apply get_None_keys in Hget. exfalso. apply Hget.
    now apply keys_comprehension.
  - intros old k m _ _ Hnotin. apply get_None_keys.
    intros Hin. apply Hnotin. exact (proj1 (keys_comprehension _ _ _) Hin).
Qed.

End FetcherFacts.

Lemma fetcher_cycle_witness :
  EmailFetcherNode.post Demo.empty_workspace
    {| EmailFetcherNode.p_username := "scheduler@example.com";
       EmailFetcherNode.p_password := "app-password";
       EmailFetcherNode.p_authorized_user := "boss@example.com" |} None
  = ([Sleep 30], Ok (Demo.empty_workspace, "monitor"))
  /\ exists d,
       EmailFetcherNode.post Demo.empty_workspace
         {| EmailFetcherNode.p_username := "scheduler@example.com";
            EmailFetcherNode.p_password := "app-password";
            EmailFetcherNode.p_authorized_user := "boss@example.com" |}
         (Some [Examples.monday_mail])
       = ([], Ok (set_pending Demo.empty_workspace d, "analyze_batch"))
       /\ PyDict.keys d = ["m1"].
Proof.
  split.
  - apply (proj1 (fetcher_cycle Demo.empty_workspace _ None)). now left.
  - destruct (proj1 (proj2 (proj2 (fetcher_cycle Demo.empty_workspace
                {| EmailFetcherNode.p_username := "scheduler@example.com";
                   EmailFetcherNode.p_password := "app-password";
                   EmailFetcherNode.p_authorized_user := "boss@example.com" |}
                (Some [Examples.monday_mail]))))
              [Examples.monday_mail] eq_refl) as (d & Hpost & _ & _).
    + discriminate.
    + exists d. split; [exact Hpost|].
      injection Hpost as <-. reflexivity.
Defined.

(** The mailbox holds an email of the authorized user and one of a stranger
    that names the authorized user under [to]: only the first is stored. *)
Lemma fetcher_admits_only_involved_witness :
  exists t shared',
    Engine.run_main_node
      (H := Examples.polling [Examples.monday_mail; Examples.stranger_mail])
      Graph.wiring Graph.email_fetcher Demo.empty_workspace
    = (t, Ok (shared', "analyze_batch"))
    /\ pending_email shared' "m1" = Ok Examples.monday_mail
    /\ forall k d, pending_emails shared' = Some d ->
         PyDict.get k d <> Some Examples.stranger_mail.
Proof.
  destruct (Engine.run_main_node
              (H := Examples.polling [Examples.monday_mail; Examples.stranger_mail])
              Graph.wiring Graph.email_fetcher Demo.empty_workspace)
    as [t [[shared' action]|err]] eqn:Hrun;
    [|vm_compute in Hrun; discriminate Hrun].
  destruct (fetcher_admits_only_involved
              (H := Examples.polling [Examples.monday_mail; Examples.stranger_mail])
              _ _ _ _ _ Hrun)
    as [[Hact _]|(Hact & emails & auth & d & _ & Hauth & Hd & _ & Hout)].
  - vm_compute in Hrun. injection Hrun as _ _ <-. discriminate Hact.
  - exists t, shared'. subst action. split; [reflexivity|]. split.
    + vm_compute in Hrun. injection Hrun as _ <-. reflexivity.
    + intros k d' Hd'. rewrite Hd in Hd'. injection Hd' as <-.
      vm_compute in Hauth. injection Hauth as <-.
      apply (Hout Examples.stranger_mail "mallory@example.com").
      * reflexivity.
      * discriminate.
      * simpl. tauto.
      * simpl. tauto.
Defined.

Lemma fetcher_post_replaces_pending_witness :
  exists d,
    EmailFetcherNode.post (Demo.workspace [Examples.stranger_mail])
      {| EmailFetcherNode.p_username := "scheduler@example.com";
         EmailFetcherNode.p_password := "app-password";
         EmailFetcherNode.p_authorized_user := "boss@example.com" |}
      (Some [Examples.monday_mail])
    = ([], Ok ({| config := Demo.the_config; pending_emails := Some d |},
               "analyze_batch"))
    /\ PyDict.get "m1" d = Some Examples.monday_mail
    /\ PyDict.get "m2" d = None.
Proof.
  destruct (fetcher_post_replaces_pending
              (Demo.workspace [Examples.stranger_mail])
              {| EmailFetcherNode.p_username := "scheduler@example.com";
                 EmailFetcherNode.p_password := "app-password";
                 EmailFetcherNode.p_authorized_user := "boss@example.com" |}
              [Examples.monday_mail])
    as (d & Hpost & Hd & _ & _ & Hdrop).
  - discriminate.
  - exists d. split; [exact Hpost|]. split.
    + rewrite Hd. reflexivity.
    + apply (Hdrop _ "m2" Examples.stranger_mail eq_refl eq_refl).
      simpl. intros [Heq|[]]. discriminate Heq.
Defined.

(** ** The detail extractor *)

Section ExtractorFacts.
Context `{Collaborators}.
Import AvailabilityRangeExtractorNode.

Lemma eq_str_true (y : yaml) (s : string) : eq_str y s = true <-> y = YStr s.
Proof.
  destruct y; simpl; try (split; [discriminate | congruence]).
  rewrite String.eqb_eq. split; congruence.
Qed.

Lemma contains_list (l : list yaml) (s : string) (b : bool) :
  contains (YList l) s = Ok b -> (b = true <-> In (YStr s) l).
Proof.
  simpl. intros [= <-]. rewrite existsb_exists. split.
  - intros (y & Hin & Heq). apply eq_str_true in Heq. now subst.
  - intros Hin. exists (YStr s). split; [assumption | now apply eq_str_true].
Qed.

(** One round of the loop: the address is present afterwards, what was
    present stays, and a list grows by at most this address, which it did
    not hold. *)
Lemma add_attendee_spec (att att' : yaml) (a : string) :
  add_attendee att a = Ok att' ->
  contains att' a = Ok true
  /\ (att' = att
      \/ exists l, att = YList l /\ att' = YList (l ++ [YStr a]) /\ ~ In (YStr a) l).
Proof.
  unfold add_attendee. intros Hadd. ok_steps Hadd. destruct a0.
  - injection Hadd as <-. split; [assumption | now left].
  - destruct att as [| | | |l|]; try discriminate Hadd.
    injection Hadd as <-. split.
    + simpl. f_equal. rewrite existsb_app. simpl.
      rewrite String.eqb_refl. now rewrite orb_true_r.
    + right. exists l. repeat split.
      intros Hin. apply (contains_list _ _ _ Hstep) in Hin. discriminate Hin.
Qed.

Lemma contains_grows (l : list yaml) (a b : string) :
  contains (YList l) b = Ok true -> contains (YList (l ++ [YStr a])) b = Ok true.
Proof.
  simpl. intros [= Hb]. f_equal. rewrite existsb_app, Hb. reflexivity.
Qed.

(** The whole loop over a list that was supplied as [YList l0]: the
    result is [l0] followed by addresses that were added, each the
    normalized address of a participant, none of them in [l0], none
    twice. *)
Lemma add_participants_list (addrs : list string) (l0 : list yaml) (att' : yaml) :
  add_participants (YList l0) addrs = Ok att' ->
  exists added,
    att' = YList (l0 ++ map YStr added)
    /\ List.NoDup added
    /\ (forall a, In a added -> ~ In (YStr a) l0)
    /\ (forall a, In a added -> exists addr, In addr addrs /\ getaddress addr = Ok a).
Proof.
  revert l0. induction addrs as [|addr rest IH]; simpl; intros l0 Hloop.
  - injection Hloop as <-. exists []. rewrite app_nil_r.
    repeat split; [constructor | contradiction | contradiction].
  - ok_steps Hloop. destruct (add_attendee_spec _ _ _ Hstep0) as [_ [->|Hgrow]].
    + destruct (IH _ Hloop) as (added & -> & Hnd & Hfresh & Hfrom).
      exists added. repeat split; auto.
      intros b Hb. destruct (Hfrom b Hb) as (addr' & Hin & Hget). eauto.
    + destruct Hgrow as (l & [= <-] & -> & Hnew).
      destruct (IH _ Hloop) as (added & -> & Hnd & Hfresh & Hfrom).
      exists (a :: added). simpl. rewrite <- app_assoc. simpl.
      split; [reflexivity|]. split; [|split].
      * constructor; [|assumption].
        intros Hin. apply (Hfresh a Hin). apply in_or_app. right. now left.
      * intros b [<-|Hb]; [assumption|].
        intros Hin. apply (Hfresh b Hb). apply in_or_app. now left.
      * intros b [<-|Hb]; [eauto|].
        destruct (Hfrom b Hb) as (addr' & Hin & Hget). eauto.
Qed.

(** After the loop every participant's normalized address is present. *)
Lemma add_participants_present (addrs : list string) (att att' : yaml) :
  add_participants att addrs = Ok att' ->
  (forall b, contains att b = Ok true -> contains att' b = Ok true)
  /\ (forall addr, In addr addrs ->
        exists a, getaddress addr = Ok a /\ contains att' a = Ok true).
Proof.
  revert att. induction addrs as [|addr rest IH]; simpl; intros att Hloop.
  - injection Hloop as <-. split; [auto | contradiction].
  - ok_steps Hloop. destruct (IH _ Hloop) as [Hkeep Hall].
    destruct (add_attendee_spec _ _ _ Hstep0) as [Hnow Hshape].
    assert (Hmono : forall b, contains att b = Ok true -> contains a0 b = Ok true).
    { destruct Hshape as [->|(l & -> & -> & _)]; [auto|].
      intros b. apply contains_grows. }
    split; [auto|].
    intros addr' [<-|Hin]; [eauto | auto].
Qed.

Lemma validate_Ok (inputs : Prepared) (today : datetime) (loaded : yaml) (m : Meeting) :
  validate inputs today loaded = Ok m ->
  exists supplied,
    parsed_timeframe loaded = Ok (timeframe m)
    /\ fst (timeframe m) < snd (timeframe m)
    /\ today <= fst (timeframe m)
    /\ setdefault loaded "attendees" (YList []) = Ok supplied
    /\ add_participants supplied (participants inputs) = Ok (attendees m)
    /\ is_int (duration m) = true.
Proof.
  unfold validate. intros Hv. ok_steps Hv. injection Hv as <-. simpl.
  repeat match goal with
    | Hx : assert _ _ = Ok _ |- _ => apply assert_Ok in Hx
    end.
  match goal with
  | Hx : setdefault loaded "attendees" _ = Ok ?y |- _ => exists y
  end.
  unfold parsed_timeframe, participants.
  repeat match goal with
    | Hx : ?c = Ok _ |- context [?c ≫= _] => rewrite Hx; simpl
    end.
  repeat split; try assumption; try reflexivity.
  - now apply Z.ltb_lt.
  - now apply Z.leb_le.
Qed.

(** The execute stage is the reasoning step followed by [validate]. *)
Lemma extractor_exec_result (inputs : Prepared) :
  snd (exec inputs) = snd (ask (details_query inputs)) ≫= validate inputs now.
Proof.
  unfold exec, details_query.
  destruct (ask _) as [t [loaded|err]]; simpl; [|reflexivity].
  unfold pure. reflexivity.
Qed.

Lemma extractor_exec_Ok (inputs : Prepared) (t : list Effect) (m : Meeting) :
  exec inputs = (t, Ok m) ->
  exists loaded,
    snd (ask (details_query inputs)) = Ok loaded
    /\ validate inputs now loaded = Ok m.
Proof.
  intros Hexec. pose proof (extractor_exec_result inputs) as Hres.
  rewrite Hexec in Hres. simpl in Hres. symmetry in Hres.
  apply bind_Ok in Hres. exact Hres.
Qed.

Lemma pending_email_update (shared shared' : Shared) (email_id : string)
    (f : Message -> result Message) :
  update_email shared email_id f = Ok shared' ->
  exists msg msg',
    pending_email shared email_id = Ok msg
    /\ f msg = Ok msg'
    /\ pending_email shared' email_id = Ok msg'.
Proof.
  unfold update_email, pending_email. intros Hu. ok_steps Hu.
  injection Hu as <-. exists a0, a1. rewrite Hstep. simpl.
  rewrite Hstep0. simpl. rewrite get_set_eq. auto.
Qed.

(** C7. The execute stage of the detail extractor raises whenever the
    timeframe it parsed from the answer has its start at or after its
    end, or before the time read at the start of the call. When the stage
    returns, the timeframe it returns has start < end and a start not
    before that time, and the finalize stage stores exactly these meeting
    details in the message's request. *)
Theorem extractor_timeframe_checked (shared : Shared) (email_id : string)
    (inputs : Prepared) :
  (forall loaded start stop,
      snd (ask (details_query inputs)) = Ok loaded ->
      parsed_timeframe loaded = Ok (start, stop) ->
      stop <= start \/ start < now ->
      raised (snd (exec inputs)))
  /\ (forall t m,
        exec inputs = (t, Ok m) ->
        fst (timeframe m) < snd (timeframe m)
        /\ now <= fst (timeframe m)
        /\ forall t' shared' action,
             post shared email_id inputs m = (t', Ok (shared', action)) ->
             exists msg r,
               pending_email shared' email_id = Ok msg
               /\ request msg = Some r
               /\ meeting r = m).
Proof.
  split.
  - intros loaded start stop Hask Hparsed Hbad.
    rewrite extractor_exec_result, Hask. simpl.
    destruct (validate inputs now loaded) as [m|err] eqn:Hv; [|now exists err].
    apply validate_Ok in Hv. destruct Hv as (_ & Hp & Hlt & Hle & _).
    rewrite Hparsed in Hp. injection Hp as Hp. rewrite <- Hp in Hlt, Hle.
    simpl in Hlt, Hle. lia.
  - intros t m Hexec.
    destruct (extractor_exec_Ok _ _ _ Hexec) as (loaded & _ & Hv).
    apply validate_Ok in Hv. destruct Hv as (_ & _ & Hlt & Hle & _).
    split; [exact Hlt|]. split; [exact Hle|].
    intros t' shared' action. unfold post, pure. intros [= <- Hpost].
    ok_steps Hpost. injection Hpost as <- <-.
    apply pending_email_update in Hstep.
    destruct Hstep as (msg & msg' & _ & [= <-] & Hget).
    exists (set_request msg (new_request m)), (new_request m).
    repeat split. exact Hget.
Qed.

End ExtractorFacts.

(** An answer whose timeframe ends before it starts makes the execute stage
    raise; an answer with a timeframe in order and in the future is returned
    with that timeframe. *)
Lemma extractor_timeframe_checked_witness :
  raised (snd (AvailabilityRangeExtractorNode.exec
                 (H := Examples.extracting Examples.inverted_details)
                 Examples.extractor_inputs))
  /\ exists t m,
       AvailabilityRangeExtractorNode.exec
         (H := Examples.extracting Examples.good_details)
         Examples.extractor_inputs = (t, Ok m)
       /\ fst (timeframe m) < snd (timeframe m)
       /\ Examples.clock <= fst (timeframe m).
Proof.
  split.
  - apply (proj1 (extractor_timeframe_checked
                    (H := Examples.extracting Examples.inverted_details)
                    (Demo.workspace [Examples.monday_mail]) "m1"
                    Examples.extractor_inputs)
             Examples.inverted_details
             (Demo.at_time 2030 1 11 17 0) (Demo.at_time 2030 1 7 9 0)).
    + reflexivity.
    + reflexivity.
    + left. vm_compute. discriminate.
  - destruct (AvailabilityRangeExtractorNode.exec
                (H := Examples.extracting Examples.good_details)
                Examples.extractor_inputs) as [t [m|err]] eqn:Hexec;
      [|vm_compute in Hexec; discriminate Hexec].
    exists t, m. split; [reflexivity|].
    destruct (proj2 (extractor_timeframe_checked
                       (H := Examples.extracting Examples.good_details)
                       (Demo.workspace [Examples.monday_mail]) "m1"
                       Examples.extractor_inputs) t m Hexec) as (Hlt & Hle & _).
    split; [exact Hlt | exact Hle].
Defined.

Section AttendeeFacts.
Context `{Collaborators}.
Import AvailabilityRangeExtractorNode.

Lemma NoDup_map_YStr (l : list string) : List.NoDup l -> List.NoDup (map YStr l).
Proof.
  induction 1 as [|a l Hnotin Hnd IH]; simpl; constructor; [|assumption].
  rewrite in_map_iff. intros (b & [= ->] & Hin). contradiction.
Qed.

(** C8, as the code has it. After a successful execute stage the
    attendees hold the normalized address of the sender and of every cc
    and bcc recipient. The stage appends to the list the extractor
    supplied: only such addresses, each at most once and only when the
    list does not hold it yet; what the extractor supplied stays as it
    is. So the result has no duplicates whenever the supplied list had
    none. *)
Theorem extractor_attendees (inputs : Prepared) (t : list Effect) (m : Meeting) :
  exec inputs = (t, Ok m) ->
  (forall addr, In addr (participants inputs) ->
     exists a, getaddress addr = Ok a /\ contains (attendees m) a = Ok true)
  /\ (forall l, attendees m = YList l ->
       forall addr, In addr (participants inputs) ->
         exists a, getaddress addr = Ok a /\ In (YStr a) l)
  /\ (forall loaded supplied,
       snd (ask (details_query inputs)) = Ok loaded ->
       setdefault loaded "attendees" (YList []) = Ok (YList supplied) ->
       exists added,
         attendees m = YList (supplied ++ map YStr added)
         /\ List.NoDup added
         /\ (forall a, In a added -> ~ In (YStr a) supplied)
         /\ (forall a, In a added ->
               exists addr, In addr (participants inputs) /\ getaddress addr = Ok a)
         /\ (List.NoDup supplied -> List.NoDup (supplied ++ map YStr added))).
Proof.
  intros Hexec.
  destruct (extractor_exec_Ok _ _ _ Hexec) as (loaded & Hask & Hv).
  apply validate_Ok in Hv.
  destruct Hv as (supplied & _ & _ & _ & Hsup & Hloop & _).
  destruct (add_participants_present _ _ _ Hloop) as [_ Hpresent].
  split; [exact Hpresent|]. split.
  - intros l Hl addr Hin. destruct (Hpresent addr Hin) as (a & Hget & Hc).
    exists a. split; [exact Hget|]. rewrite Hl in Hc.
    now apply (contains_list _ _ _ Hc).
  - intros loaded' supplied' Hask' Hsup'.
    rewrite Hask in Hask'. injection Hask' as <-.
    rewrite Hsup in Hsup'. injection Hsup' as ->.
    destruct (add_participants_list _ _ _ Hloop) as (added & Hatt & Hnd & Hfresh & Hfrom).
    exists added. repeat split; try assumption.
    intros Hnd0. apply List.NoDup_app; [assumption | now apply NoDup_map_YStr |].
    intros y Hy Hy'. apply in_map_iff in Hy'. destruct Hy' as (a & <- & Ha).
    exact (Hfresh a Ha Hy).
Qed.

End AttendeeFacts.

(** The extractor names one address twice; the execute stage returns, and
    the list it returns still names it twice. *)
Lemma attendees_deduplicated_fails : ~ attendees_deduplicated.
Proof.
  intros Hclaim.
  destruct (AvailabilityRangeExtractorNode.exec
              (H := Examples.extracting Examples.duplicate_details)
              Examples.extractor_inputs) as [t [m|err]] eqn:Hexec;
    [|vm_compute in Hexec; discriminate Hexec].
  destruct (Hclaim _ _ _ _ Hexec) as (l & Hl & _ & Hnd).
  vm_compute in Hexec. injection Hexec as _ <-. simpl in Hl.
  injection Hl as <-.
  inversion Hnd as [|y l' Hnotin _]; subst. apply Hnotin. now left.
Qed.

Lemma extractor_attendees_witness :
  exists t m,
    AvailabilityRangeExtractorNode.exec
      (H := Examples.extracting Examples.good_details)
      Examples.extractor_inputs = (t, Ok m)
    /\ forall addr, In addr (participants Examples.extractor_inputs) ->
         exists a, Demo.getaddress_bare addr = Ok a
                   /\ contains (attendees m) a = Ok true.
Proof.
  destruct (AvailabilityRangeExtractorNode.exec
              (H := Examples.extracting Examples.good_details)
              Examples.extractor_inputs) as [t [m|err]] eqn:Hexec;
    [|vm_compute in Hexec; discriminate Hexec].
  exists t, m. split; [reflexivity|].
  exact (proj1 (extractor_attendees
                  (H := Examples.extracting Examples.good_details)
                  Examples.extractor_inputs t m Hexec)).
Defined.

(** ** The action decider *)

Section DeciderFacts.
Context `{Collaborators}.
Import ActionDeciderNode.

Lemma decider_exec_result (p : Prepared) :
  snd (exec p) = snd (ask (action_query p)) ≫= interpret.
Proof.
  unfold exec, action_query.
  destruct (ask _) as [t [loaded|err]]; simpl; [|reflexivity].
  unfold pure. reflexivity.
Qed.

Lemma pending_email_update_request (shared shared' : Shared) (email_id : string)
    (f : Request -> Request) :
  update_request shared email_id f = Ok shared' ->
  exists msg r,
    pending_email shared email_id = Ok msg
    /\ request msg = Some r
    /\ pending_email shared' email_id = Ok (set_request msg (f r)).
Proof.
  unfold update_request. intros Hu. apply pending_email_update in Hu.
  destruct Hu as (msg & msg' & Hget & Hf & Hget').
  ok_steps Hf. injection Hf as <-. apply item_Ok in Hstep.
  exists msg, a. auto.
Qed.

(** C1, as the code has it. When the decision names [schedule], the
    finalize stage stores the decision's chosen slot in the request, as
    the execute stage converted it, and returns [schedule]. The free
    slots play no part: the stage looks neither at the slot nor at
    [available_slots]. *)
Theorem decider_stores_chosen_slot (shared : Shared) (email_id : string)
    (p : Prepared) (t : list Effect) (d : Decision) :
  prep shared email_id = Ok p ->
  exec p = (t, Ok d) ->
  eq_str (d_action d) "schedule" = true ->
  exists shared' msg r,
    post shared email_id p d = ([], Ok (shared', "schedule"))
    /\ pending_email shared email_id = Ok msg
    /\ request msg = Some r
    /\ pending_email shared' email_id
       = Ok (set_request msg (set_chosen_slot (d_chosen_slot d) r))
    /\ snd (Engine.run_item_node email_id Graph.action_decider shared)
       = Ok (shared', "schedule").
Proof.
  intros Hprep Hexec Haction.
  pose proof Hprep as Hp. unfold prep, pending_email in Hp. ok_steps Hp.
  injection Hp as Hp.
  match goal with
  | Hd : item "pending_emails" _ = Ok ?d0,
    Hm : item email_id (PyDict.get email_id ?d0) = Ok ?msg,
    Hr : item "request" (request ?msg) = Ok ?r |- _ =>
      rename Hd into Hdict; rename Hm into Hmsg; rename Hr into Hreq;
      rename d0 into pending; rename msg into the_msg; rename r into the_req
  end.
  set (stored := set_pending shared
                   (PyDict.set email_id
                      (set_request the_msg
                         (set_chosen_slot (d_chosen_slot d) the_req)) pending)).
  assert (Hup : update_request shared email_id (set_chosen_slot (d_chosen_slot d))
                = Ok stored).
  { unfold update_request, update_email. rewrite Hdict. simpl.
    rewrite Hmsg. simpl. rewrite Hreq. reflexivity. }
  assert (Hpost : post shared email_id p d = ([], Ok (stored, "schedule"))).
  { unfold post. rewrite Haction. unfold pure. rewrite Hup. reflexivity. }
  exists stored, the_msg, the_req. split; [exact Hpost|].
  split; [unfold pending_email; rewrite Hdict; simpl; exact Hmsg|].
  split; [now apply item_Ok in Hreq|]. split.
  - unfold pending_email, stored, set_pending. simpl. now rewrite get_set_eq.
  - unfold Engine.run_item_node, Engine.stages. rewrite Hprep.
    unfold pure, mbind, eff_bind. rewrite Hexec, Hpost. reflexivity.
Qed.

End DeciderFacts.

(** The free slots are Monday 09:00 to 17:00 and the answer names
    [schedule] for Monday 20:00 to 21:00: the node returns. *)
Lemma decider_accepts_slot_outside_free_slots : ~ decider_rejects_outside_slots.
Proof.
  intros Hclaim.
  assert (Hraised :
    raised (snd (Engine.run_item_node
                   (H := Examples.deciding (Examples.decision "schedule" Examples.evening))
                   "m1" Graph.action_decider
                   (Demo.workspace [Examples.requested [Examples.working_day]])))).
  { apply (Hclaim _ _ _ Examples.decider_prepared
             (Examples.decision "schedule" Examples.evening)
             Examples.evening_decision).
    - reflexivity.
    - reflexivity.
    - reflexivity.
    - reflexivity.
    - intros (start & stop & free & Hslot & Hin & Hw).
      injection Hslot as <- <-.
      destruct Hin as [<-|[]]. destruct Hw as [_ Hw].
      vm_compute in Hw. apply Hw. reflexivity. }
  destruct Hraised as [e He]. vm_compute in He. discriminate He.
Qed.

Lemma decider_stores_chosen_slot_witness :
  exists shared',
    snd (Engine.run_item_node
           (H := Examples.deciding (Examples.decision "schedule" Examples.evening))
           "m1" Graph.action_decider
           (Demo.workspace [Examples.requested [Examples.working_day]]))
    = Ok (shared', "schedule")
    /\ exists msg,
         pending_email shared' "m1" = Ok msg
         /\ (chosen_slot <$> request msg)
            = Some (SlotPair (Demo.at_time 2030 1 7 20 0) (Demo.at_time 2030 1 7 21 0)).
Proof.
  destruct (decider_stores_chosen_slot
              (H := Examples.deciding (Examples.decision "schedule" Examples.evening))
              (Demo.workspace [Examples.requested [Examples.working_day]]) "m1"
              Examples.decider_prepared
              [AskLLM "action"] Examples.evening_decision
              eq_refl eq_refl eq_refl)
    as (shared' & msg & r & _ & _ & _ & Hstored & Hrun).
  exists shared'. split; [exact Hrun|].
  eexists. split; [exact Hstored|]. reflexivity.
Defined.

(** ** The slot resolver *)

Section SlotFacts.
Import SlotResolver.

Lemma chain_weaken (lo lo' : Z) (l : list TimeSlot) :
  lo' <= lo -> chain lo l -> chain lo' l.
Proof. destruct l as [|s rest]; simpl; [trivial|]. intros Hle (H1 & H2 & H3).
  split; [lia | split; assumption]. Qed.

Lemma chain_app (lo mid : Z) (l1 l2 : list TimeSlot) :
  chain lo l1 -> Forall (fun s => snd s <= mid) l1 -> lo <= mid ->
  chain mid l2 -> chain lo (l1 ++ l2).
Proof.
  revert lo. induction l1 as [|s rest IH]; simpl; intros lo Hc Hall Hle Hc2.
  - now apply chain_weaken with mid.
  - destruct Hc as (H1 & H2 & H3). inversion Hall as [|? ? Hs Hrest]; subst.
    split; [assumption | split; [assumption|]]. apply IH; assumption.
Qed.

Lemma chain_filter (keep : TimeSlot -> bool) (lo : Z) (l : list TimeSlot) :
  chain lo l -> chain lo (List.filter keep l).
Proof.
  revert lo. induction l as [|s rest IH]; simpl; intros lo Hc; [trivial|].
  destruct Hc as (H1 & H2 & H3). destruct (keep s); simpl.
  - split; [assumption | split; [assumption | now apply IH]].
  - apply IH. apply chain_weaken with (snd s); [lia | assumption].
Qed.

(** In a chain, an earlier slot ends before a later one starts. *)
Lemma chain_nth (lo : Z) (l : list TimeSlot) (i j : nat) (a b : TimeSlot) :
  chain lo l -> (i < j)%nat ->
  nth_error l i = Some a -> nth_error l j = Some b ->
  fst a < snd a /\ snd a <= fst b.
Proof.
  revert lo i j. induction l as [|s rest IH]; intros lo i j Hc Hij Ha Hb.
  - destruct i; discriminate Ha.
  - destruct Hc as (H1 & H2 & H3). destruct j as [|j]; [lia|].
    simpl in Hb. destruct i as [|i].
    + injection Ha as <-. split; [assumption|].
      clear IH Hij. revert H3 Hb. generalize (snd s) as lo'. revert j.
      induction rest as [|s' rest' IH']; intros j lo' Hc' Hb; [destruct j; discriminate Hb|].
      destruct Hc' as (K1 & K2 & K3). destruct j as [|j].
      * injection Hb as <-. assumption.
      * simpl in Hb. specialize (IH' j (snd s') K3 Hb). lia.
    + simpl in Ha. apply (IH (snd s) i j); [assumption | lia | assumption | assumption].
Qed.

Lemma chain_well_formed (lo : Z) (l : list TimeSlot) : chain lo l -> well_formed l.
Proof.
  intros Hc. split.
  - intros i j a b Hij Ha Hb. destruct (chain_nth _ _ _ _ _ _ Hc Hij Ha Hb). lia.
  - intros i j a b Hij Ha Hb [Hab Hba].
    destruct (Nat.lt_total i j) as [Hlt|[Heq|Hgt]]; [|contradiction|].
    + destruct (chain_nth _ _ _ _ _ _ Hc Hlt Ha Hb). lia.
    + destruct (chain_nth _ _ _ _ _ _ Hc Hgt Hb Ha). lia.
Qed.

(** Sorting and merging keep every busy interval in order. *)
Lemma insert_by_start_Forall (P : TimeSlot -> Prop) (b : TimeSlot) (l : list TimeSlot) :
  P b -> Forall P l -> Forall P (insert_by_start b l).
Proof.
  intros Hb. induction 1 as [|c rest Hc Hrest IH]; simpl.
  - constructor; [assumption | constructor].
  - destruct (_ <=? _); repeat constructor; assumption.
Qed.

Lemma sort_by_start_Forall (P : TimeSlot -> Prop) (l : list TimeSlot) :
  Forall P l -> Forall P (sort_by_start l).
Proof.
  induction 1 as [|b rest Hb Hrest IH]; simpl; [constructor|].
  now apply insert_by_start_Forall.
Qed.

Lemma merge_sorted_ordered (cur : TimeSlot) (l : list TimeSlot) :
  fst cur <= snd cur -> Forall (fun b => fst b <= snd b) l ->
  Forall (fun b => fst b <= snd b) (merge_sorted cur l).
Proof.
  intros Hcur Hall. revert cur Hcur.
  induction Hall as [|b rest Hb Hrest IH]; simpl; intros cur Hcur.
  - constructor; [assumption | constructor].
  - destruct (_ <=? _).
    + apply IH. simpl. lia.
    + constructor; [assumption | now apply IH].
Qed.

Lemma merge_busy_ordered (busy : list TimeSlot) :
  Forall (fun b => fst b <= snd b) busy ->
  Forall (fun b => fst b <= snd b) (merge_busy busy).
Proof.
  intros Hall. unfold merge_busy.
  pose proof (sort_by_start_Forall _ _ Hall) as Hsorted.
  destruct (sort_by_start busy) as [|b rest]; [constructor|].
  inversion Hsorted; subst. now apply merge_sorted_ordered.
Qed.

(** What is left of an interval is a chain inside it. *)
Lemma subtract_chain (busy : list TimeSlot) (lo hi : Z) :
  Forall (fun b => fst b <= snd b) busy ->
  chain lo (subtract lo hi busy)
  /\ Forall (fun s => snd s <= hi) (subtract lo hi busy).
Proof.
  intros Hall. revert lo.
  induction Hall as [|[bs be] rest Hb Hrest IH]; simpl; intros lo.
  - destruct (lo <? hi) eqn:E; simpl; [|split; [trivial | constructor]].
    apply Z.ltb_lt in E. split; [split; [lia | split; [assumption | exact I]]|].
    constructor; [simpl; lia | constructor].
  - simpl in Hb. destruct (IH (Z.max lo be)) as [Hc Hends].
    destruct (lo <? Z.min bs hi) eqn:E; simpl.
    + apply Z.ltb_lt in E. split.
      * split; [simpl; lia | split; [assumption|]].
        apply chain_weaken with (Z.max lo be); [lia | assumption].
      * constructor; [simpl; lia | assumption].
    + split; [|assumption].
      apply chain_weaken with (Z.max lo be); [lia | assumption].
Qed.

Lemma Forall_filter_keeps (P : TimeSlot -> Prop) (keep : TimeSlot -> bool)
    (l : list TimeSlot) :
  Forall P l -> Forall P (List.filter keep l).
Proof.
  induction 1 as [|s rest Hs Hrest IH]; simpl; [constructor|].
  destruct (keep s); [constructor|]; assumption.
Qed.

Lemma filter_all_pass (keep : TimeSlot -> bool) (l : list TimeSlot) :
  Forall (fun s => keep s = true) (List.filter keep l).
Proof.
  induction l as [|s rest IH]; simpl; [constructor|].
  destruct (keep s) eqn:E; [constructor|]; assumption.
Qed.

Section Days.
Variables (window_start window_end : datetime) (min_duration : timedelta).
Variables (working_hours : Z * Z) (merged : list TimeSlot).
Hypothesis merged_ordered : Forall (fun b => fst b <= snd b) merged.
Hypothesis within_a_day : snd working_hours - fst working_hours <= 24.

Let free (d : Z) : list TimeSlot :=
  free_of_day window_start window_end min_duration working_hours merged d.

Let opening (d : Z) : Z := d * day + fst working_hours * hour.

(** The free slots of a day start after the day's opening hour, end by the
    next day's opening hour and last long enough. *)
Lemma free_of_day_chain (d : Z) :
  chain (opening d) (free d)
  /\ Forall (fun s => snd s <= opening (d + 1)) (free d)
  /\ Forall (fun s => min_duration <= slot_length s) (free d).
Proof.
  unfold free, free_of_day, opening. cbv zeta.
  set (w := working_interval working_hours window_start window_end d).
  destruct (subtract_chain merged (fst w) (snd w) merged_ordered) as [Hc Hends].
  split; [|split].
  - apply chain_filter. apply chain_weaken with (fst w); [|exact Hc].
    unfold w, working_interval. simpl. lia.
  - apply Forall_filter_keeps.
    apply List.Forall_impl with (P := fun s : TimeSlot => snd s <= snd w); [|exact Hends].
    intros [a b] Hs. unfold w, working_interval in Hs. simpl in Hs |- *.
    unfold day, hour, minute in *. lia.
  - apply List.Forall_impl
      with (P := fun s : TimeSlot => (min_duration <=? slot_length s) = true).
    + intros s Hs. now apply Z.leb_le.
    + apply (filter_all_pass (fun s => min_duration <=? slot_length s)).
Qed.

(** Consecutive days, one after the other. *)
Lemma days_chain (n : nat) (d : Z) :
  chain (opening d)
    (flat_map free (map (fun i => d + Z.of_nat i) (seq 0 n)))
  /\ Forall (fun s => min_duration <= slot_length s)
       (flat_map free (map (fun i => d + Z.of_nat i) (seq 0 n))).
Proof.
  revert d. induction n as [|n IH]; intros d; [split; [exact I | constructor]|].
  change (seq 0 (S n)) with (0%nat :: seq 1 n).
  rewrite <- seq_shift, map_cons, map_map. simpl flat_map.
  replace (d + Z.of_nat 0) with d by lia.
  rewrite (map_ext (fun i => d + Z.of_nat (S i)) (fun i => (d + 1) + Z.of_nat i))
    by (intros i; lia).
  destruct (free_of_day_chain d) as (Hc & Hends & Hlen).
  destruct (IH (d + 1)) as [Hrest Hrestlen].
  split.
  - apply chain_app with (opening (d + 1)); try assumption.
    unfold opening, day, hour, minute. lia.
  - apply List.Forall_app. split; assumption.
Qed.

End Days.

(** C3. For a window with start < end, when the calendar answered with
    busy intervals (each with start <= end) and the working hours span at
    most a day, [check_availability] returns a list of slots (possibly
    empty) that is sorted ascending by start, pairwise non-overlapping, and
    whose slots all last at least the minimum duration. *)
Theorem check_availability_well_formed `{Collaborators}
    (start_time end_time : datetime) (min_duration : timedelta)
    (working_hours : Z * Z) (busy : list TimeSlot) :
  start_time < end_time ->
  snd working_hours - fst working_hours <= 24 ->
  list_busy start_time end_time = Ok busy ->
  Forall (fun b => fst b <= snd b) busy ->
  exists slots,
    snd (check_availability start_time end_time min_duration working_hours) = Ok slots
    /\ sorted_by_start slots
    /\ pairwise_disjoint slots
    /\ Forall (fun s => min_duration <= slot_length s) slots.
Proof.
  intros Hwindow Hhours Hbusy Hordered.
  exists (free_slots start_time end_time min_duration working_hours busy).
  split.
  - unfold check_availability.
    destruct (end_time <=? start_time) eqn:E; [apply Z.leb_le in E; lia|].
    unfold perform, pure. rewrite Hbusy. reflexivity.
  - pose proof (merge_busy_ordered _ Hordered) as Hmerged.
    destruct (days_chain start_time end_time min_duration working_hours
                (merge_busy busy) Hmerged Hhours
                (Z.to_nat (day_index end_time - day_index start_time + 1))
                (day_index start_time)) as [Hc Hlen].
    destruct (chain_well_formed _ _ Hc) as [Hsorted Hdisjoint].
    split; [exact Hsorted | split; [exact Hdisjoint | exact Hlen]].
Qed.

End SlotFacts.

(** Monday 09:00 to Tuesday 17:00 with a meeting on Monday from 10:00 to
    12:00 and hour-long slots wanted. *)
Lemma check_availability_well_formed_witness :
  exists slots,
    snd (SlotResolver.check_availability
           (H := Demo.scripted [] []
                   [(Demo.at_time 2030 1 7 10 0, Demo.at_time 2030 1 7 12 0)]
                   Examples.clock)
           (Demo.at_time 2030 1 7 9 0) (Demo.at_time 2030 1 8 17 0)
           (minutes 60) (9, 17)) = Ok slots
    /\ SlotResolver.sorted_by_start slots
    /\ SlotResolver.pairwise_disjoint slots
    /\ Forall (fun s => minutes 60 <= SlotResolver.slot_length s) slots.
Proof.
  apply (check_availability_well_formed
           (H := Demo.scripted [] []
                   [(Demo.at_time 2030 1 7 10 0, Demo.at_time 2030 1 7 12 0)]
                   Examples.clock)
           (Demo.at_time 2030 1 7 9 0) (Demo.at_time 2030 1 8 17 0)
           (minutes 60) (9, 17)
           [(Demo.at_time 2030 1 7 10 0, Demo.at_time 2030 1 7 12 0)]).
  - reflexivity.
  - simpl. lia.
  - reflexivity.
  - constructor; [|constructor]. vm_compute. discriminate.
Defined.

(** ** The engine *)

Section EngineFacts.
Context `{Collaborators}.
Import Graph Engine.

(** A node invocation that returned went through its finalize stage. *)
Lemma stages_Ok {P E : Type} (prepared : result P) (exec : P -> Eff E)
    (post : P -> E -> Eff (Shared * string)) (t : list Effect)
    (x : Shared * string) :
  stages prepared exec post = (t, Ok x) ->
  exists p e t1 t2,
    prepared = Ok p /\ exec p = (t1, Ok e) /\ post p e = (t2, Ok x) /\ t = t1 ++ t2.
Proof.
  unfold stages, pure. destruct prepared as [p|err]; simpl; [|discriminate].
  destruct (exec p) as [t1 [e|err]] eqn:Hexec; simpl; [|discriminate].
  destruct (post p e) as [t2 r] eqn:Hpost. intros [= <- ->].
  exists p, e, t1, t2. auto.
Qed.

(** Two invocations with the same prepared input and agreeing finalize
    stages agree. *)
Lemma stages_agree {P E : Type} (R : Shared * string -> Shared * string -> Prop)
    (prepared : result P) (exec : P -> Eff E)
    (post1 post2 : P -> E -> Eff (Shared * string)) :
  (forall p e, agree_eff R (post1 p e) (post2 p e)) ->
  agree_eff R (stages prepared exec post1) (stages prepared exec post2).
Proof.
  intros Hpost. unfold stages, pure.
  destruct prepared as [p|err]; simpl; [|split; reflexivity].
  destruct (exec p) as [t1 [e|err]]; simpl; [|split; reflexivity].
  destruct (Hpost p e) as [Ht Hr].
  destruct (post1 p e) as [t2 r2], (post2 p e) as [t2' r2']. simpl in *.
  subst t2'. split; [reflexivity | exact Hr].
Qed.

Lemma same_for_refl (k : string) (s : Shared) : same_for k s s.
Proof. split; reflexivity. Qed.

Lemma same_for_sym (k : string) (s1 s2 : Shared) : same_for k s1 s2 -> same_for k s2 s1.
Proof. intros [H1 H2]. split; symmetry; assumption. Qed.

Lemma same_for_trans (k : string) (s1 s2 s3 : Shared) :
  same_for k s1 s2 -> same_for k s2 s3 -> same_for k s1 s3.
Proof. intros [H1 H2] [H3 H4]. split; etransitivity; eassumption. Qed.

Lemma pending_email_set_pending_eq (s : Shared) (k : string) (msg : Message)
    (d : PyDict.dict Message) :
  pending_email (set_pending s (PyDict.set k msg d)) k = Ok msg.
Proof. unfold pending_email. simpl. now rewrite get_set_eq. Qed.

Lemma pending_email_set_pending_ne (s : Shared) (k k' : string) (msg : Message)
    (d : PyDict.dict Message) :
  pending_emails s = Some d -> k <> k' ->
  pending_email (set_pending s (PyDict.set k msg d)) k' = pending_email s k'.
Proof.
  intros Hd Hne. unfold pending_email. simpl. rewrite Hd. simpl.
  now rewrite get_set_ne.
Qed.

(** [update_email] in terms of the entry of the message. *)
Lemma update_email_cases (s : Shared) (k : string) (f : Message -> result Message) :
  match pending_email s k with
  | Raise e => update_email s k f = Raise e
  | Ok msg =>
      match f msg with
      | Raise e => update_email s k f = Raise e
      | Ok msg' =>
          exists d, pending_emails s = Some d
                    /\ update_email s k f = Ok (set_pending s (PyDict.set k msg' d))
      end
  end.
Proof.
  unfold pending_email, update_email.
  destruct (pending_emails s) as [d|]; simpl; [|reflexivity].
  destruct (PyDict.get k d) as [msg|]; simpl; [|reflexivity].
  destruct (f msg) as [msg'|e]; simpl; [|reflexivity].
  exists d. auto.
Qed.

(** Updating the entry of [k] in two workspaces that look the same to [k]
    gives the same failure or workspaces that look the same to [k]. *)
Lemma update_email_agree (k : string) (s1 s2 : Shared) (f : Message -> result Message) :
  same_for k s1 s2 ->
  agree (same_for k) (update_email s1 k f) (update_email s2 k f).
Proof.
  intros [Hc Hp].
  pose proof (update_email_cases s1 k f) as H1.
  pose proof (update_email_cases s2 k f) as H2.
  rewrite <- Hp in H2.
  destruct (pending_email s1 k) as [msg|e]; [|rewrite H1, H2; reflexivity].
  destruct (f msg) as [msg'|e]; [|rewrite H1, H2; reflexivity].
  destruct H1 as (d1 & Hd1 & ->), H2 as (d2 & Hd2 & ->). simpl.
  split; [exact Hc|]. now rewrite !pending_email_set_pending_eq.
Qed.

(** Updating the entry of [k] leaves every other entry as it was. *)
Lemma update_email_frame (k k' : string) (s s' : Shared) (f : Message -> result Message) :
  update_email s k f = Ok s' -> k <> k' -> same_for k' s s'.
Proof.
  intros Hu Hne. pose proof (update_email_cases s k f) as Hc.
  destruct (pending_email s k) as [msg|e]; [|congruence].
  destruct (f msg) as [msg'|e]; [|congruence].
  destruct Hc as (d & Hd & Heq). rewrite Heq in Hu. injection Hu as <-.
  split; [reflexivity|]. symmetry. now apply pending_email_set_pending_ne.
Qed.

Lemma pure_agree {A : Type} (R : A -> A -> Prop) (r1 r2 : result A) :
  agree R r1 r2 -> agree_eff R (pure r1) (pure r2).
Proof. intros Hr. split; [reflexivity | exact Hr]. Qed.

(** The three ways a finalize stage treats the workspace: keep it, update
    the entry of its message, or drop that entry. *)
Lemma keep_agree (k a : string) (s1 s2 : Shared) :
  same_for k s1 s2 -> agree (same_step k) (Ok (s1, a)) (Ok (s2, a)).
Proof. intros Hs. split; [reflexivity | exact Hs]. Qed.

Lemma update_agree (k a : string) (f : Message -> result Message) (s1 s2 : Shared) :
  same_for k s1 s2 ->
  agree (same_step k)
    (update_email s1 k f ≫= fun s' => Ok (s', a))
    (update_email s2 k f ≫= fun s' => Ok (s', a)).
Proof.
  intros Hs. pose proof (update_email_agree k s1 s2 f Hs) as Hu.
  destruct (update_email s1 k f), (update_email s2 k f); simpl in *;
    try contradiction; [|exact Hu].
  split; [reflexivity | exact Hu].
Qed.

Lemma update_frame (k a : string) (f : Message -> result Message) (s : Shared)
    (x : Shared * string) :
  (update_email s k f ≫= fun s' => Ok (s', a)) = Ok x ->
  snd x = a /\ forall k', k <> k' -> same_for k' s (fst x).
Proof.
  intros Hx. apply bind_Ok in Hx. destruct Hx as (s' & Hu & [= <-]).
  split; [reflexivity|]. intros k' Hne. now apply (update_email_frame k k' s s' f).
Qed.

Lemma drop_agree (k a : string) (s1 s2 : Shared) :
  same_for k s1 s2 ->
  agree (same_step k)
    (d ← item "pending_emails" (pending_emails s1);
     item k (PyDict.get k d);; Ok (set_pending s1 (PyDict.del k d), a))
    (d ← item "pending_emails" (pending_emails s2);
     item k (PyDict.get k d);; Ok (set_pending s2 (PyDict.del k d), a)).
Proof.
  intros [Hc Hp]. unfold pending_email in Hp.
  destruct (pending_emails s1) as [d1|], (pending_emails s2) as [d2|]; simpl in *.
  - destruct (PyDict.get k d1), (PyDict.get k d2); simpl in *; try discriminate Hp.
    + split; [reflexivity|]. split; [exact Hc|].
      unfold pending_email. simpl. now rewrite !get_del_eq.
    + congruence.
  - destruct (PyDict.get k d1); simpl in *; [discriminate Hp | congruence].
  - destruct (PyDict.get k d2); simpl in *; [discriminate Hp | congruence].
  - reflexivity.
Qed.

Lemma drop_frame (k a : string) (s : Shared) (x : Shared * string) :
  (d ← item "pending_emails" (pending_emails s);
   item k (PyDict.get k d);; Ok (set_pending s (PyDict.del k d), a)) = Ok x ->
  snd x = a /\ forall k', k <> k' -> same_for k' s (fst x).
Proof.
  intros Hx. ok_steps Hx. injection Hx as <-. split; [reflexivity|].
  intros k' Hne. split; [reflexivity|].
  apply item_Ok in Hstep. unfold pending_email. simpl. rewrite Hstep. simpl.
  now rewrite get_del_ne.
Qed.

(** The finalize stage of the drafting nodes reads the entry, then the
    draft, then updates the entry. *)
Lemma store_draft_unfold (s : Shared) (k : string) (exec_res : yaml) :
  store_draft s k exec_res
  = pure (pending_email s k;;
          content ← field exec_res "body";
          update_email s k (fun msg =>
            Ok (set_draft msg
                  {| draft_subject := get_default (subject msg) "Meeting Coordination";
                     draft_body := content |}))
          ≫= fun s' => Ok (s', "send_email")).
Proof.
  unfold store_draft, pending_email. f_equal.
  destruct (pending_emails s) as [d|]; simpl; [|reflexivity].
  destruct (PyDict.get k d); reflexivity.
Qed.

Lemma store_draft_agree (k : string) (s1 s2 : Shared) (exec_res : yaml) :
  same_for k s1 s2 ->
  agree_eff (same_step k) (store_draft s1 k exec_res) (store_draft s2 k exec_res).
Proof.
  intros Hs. rewrite !store_draft_unfold. apply pure_agree.
  destruct Hs as [Hc Hp]. rewrite <- Hp.
  destruct (pending_email s1 k) as [msg|e] eqn:Hm; simpl; [|reflexivity].
  destruct (field exec_res "body") as [content|e]; simpl; [|reflexivity].
  apply update_agree. split; [exact Hc | congruence].
Qed.

Lemma store_draft_frame (k : string) (s : Shared) (exec_res : yaml)
    (t : list Effect) (x : Shared * string) :
  store_draft s k exec_res = (t, Ok x) ->
  snd x = "send_email" /\ forall k', k <> k' -> same_for k' s (fst x).
Proof.
  rewrite store_draft_unfold. unfold pure. intros [= _ Hx].
  apply bind_Ok in Hx. destruct Hx as (msg & _ & Hx).
  apply bind_Ok in Hx. destruct Hx as (content & _ & Hx).
  now apply update_frame in Hx.
Qed.

(** The prepare stage of a per-message node reads the configuration and
    the entry of its message only. *)
Ltac same_prep :=
  match goal with
  | Hs : same_for _ _ _ |- _ =>
      let Hc := fresh "Hc" in
      let Hp := fresh "Hp" in
      destruct Hs as [Hc Hp];
      unfold EmailIntentAnalyzerNode.prep, AvailabilityRangeExtractorNode.prep,
        AvailabilityCheckerNode.prep, ActionDeciderNode.prep,
        MeetingSchedulerNode.prep, ScheduleConfirmationEmailNode.prep,
        ProposalEmailNode.prep, NoSlotsEmailNode.prep, EmailSenderNode.prep,
        envelope;
      rewrite Hp, ?Hc; reflexivity
  end.

(** Run on two workspaces that look the same to its message, a node does
    the same: the same effects, the same exception or the same action, and
    workspaces that still look the same to the message. *)
Lemma node_agree (k : string) (n : NodeId) (s1 s2 : Shared) :
  same_for k s1 s2 ->
  agree_eff (same_step k) (run_item_node k n s1) (run_item_node k n s2).
Proof.
  intros Hs. destruct n; unfold run_item_node.
  - split; reflexivity.
  - replace (EmailIntentAnalyzerNode.prep s1 k)
      with (EmailIntentAnalyzerNode.prep s2 k) by (symmetry; same_prep).
    apply stages_agree. intros p e. unfold EmailIntentAnalyzerNode.post.
    apply pure_agree.
    destruct (field e "is_scheduling") as [flag|err]; simpl; [|reflexivity].
    destruct (truthy flag); [now apply keep_agree | now apply drop_agree].
  - replace (AvailabilityRangeExtractorNode.prep s1 k)
      with (AvailabilityRangeExtractorNode.prep s2 k) by (symmetry; same_prep).
    apply stages_agree. intros p e. unfold AvailabilityRangeExtractorNode.post.
    apply pure_agree. now apply update_agree.
  - replace (AvailabilityCheckerNode.prep s1 k)
      with (AvailabilityCheckerNode.prep s2 k) by (symmetry; same_prep).
    apply stages_agree. intros p e.
    unfold AvailabilityCheckerNode.post, update_request.
    apply pure_agree. now apply update_agree.
  - replace (ActionDeciderNode.prep s1 k)
      with (ActionDeciderNode.prep s2 k) by (symmetry; same_prep).
    apply stages_agree. intros p e.
    unfold ActionDeciderNode.post, update_request.
    destruct (eq_str _ _); apply pure_agree;
      [now apply update_agree | now apply keep_agree].
  - replace (MeetingSchedulerNode.prep s1 k)
      with (MeetingSchedulerNode.prep s2 k) by (symmetry; same_prep).
    apply stages_agree. intros p e.
    unfold MeetingSchedulerNode.post, update_request.
    apply pure_agree. now apply update_agree.
  - replace (ScheduleConfirmationEmailNode.prep s1 k)
      with (ScheduleConfirmationEmailNode.prep s2 k) by (symmetry; same_prep).
    apply stages_agree. intros p e. now apply store_draft_agree.
  - replace (ProposalEmailNode.prep s1 k)
      with (ProposalEmailNode.prep s2 k) by (symmetry; same_prep).
    apply stages_agree. intros p e. now apply store_draft_agree.
  - replace (NoSlotsEmailNode.prep s1 k)
      with (NoSlotsEmailNode.prep s2 k) by (symmetry; same_prep).
    apply stages_agree. intros p e. now apply store_draft_agree.
  - replace (EmailSenderNode.prep s1 k)
      with (EmailSenderNode.prep s2 k) by (symmetry; same_prep).
    apply stages_agree. intros p e. unfold EmailSenderNode.post.
    apply pure_agree. now apply keep_agree.
  - split; reflexivity.
Qed.

(** A node that returned gave one of the actions of its finalize stage,
    and touched no entry but the one of its message. *)
Lemma node_frame (k : string) (n : NodeId) (s : Shared) (t : list Effect)
    (x : Shared * string) :
  run_item_node k n s = (t, Ok x) ->
  In (snd x) (emits n) /\ forall k', k <> k' -> same_for k' s (fst x).
Proof.
  destruct n; unfold run_item_node; intros Hrun;
    try (unfold pure in Hrun; discriminate Hrun);
    apply stages_Ok in Hrun;
    destruct Hrun as (p & e & t1 & t2 & _ & _ & Hpost & _).
  - unfold EmailIntentAnalyzerNode.post, pure in Hpost. injection Hpost as _ Hx.
    apply bind_Ok in Hx. destruct Hx as (flag & _ & Hx).
    destruct (truthy flag).
    + injection Hx as <-. simpl. split; [tauto|]. intros; apply same_for_refl.
    + apply drop_frame in Hx. destruct Hx as [-> Hx]. simpl. split; [tauto | exact Hx].
  - unfold AvailabilityRangeExtractorNode.post, pure in Hpost. injection Hpost as _ Hx.
    apply update_frame in Hx. destruct Hx as [-> Hx]. simpl. split; [tauto | exact Hx].
  - unfold AvailabilityCheckerNode.post, update_request, pure in Hpost.
    injection Hpost as _ Hx.
    apply update_frame in Hx. destruct Hx as [-> Hx]. simpl. split; [tauto | exact Hx].
  - unfold ActionDeciderNode.post, update_request, pure in Hpost.
    destruct (eq_str _ _); injection Hpost as _ Hx.
    + apply update_frame in Hx. destruct Hx as [-> Hx]. simpl. split; [tauto | exact Hx].
    + subst x. simpl. split; [tauto|]. intros; apply same_for_refl.
  - unfold MeetingSchedulerNode.post, update_request, pure in Hpost.
    injection Hpost as _ Hx.
    apply update_frame in Hx. destruct Hx as [-> Hx]. simpl. split; [tauto | exact Hx].
  - apply store_draft_frame in Hpost. destruct Hpost as [-> Hx].
    simpl. split; [tauto | exact Hx].
  - apply store_draft_frame in Hpost. destruct Hpost as [-> Hx].
    simpl. split; [tauto | exact Hx].
  - apply store_draft_frame in Hpost. destruct Hpost as [-> Hx].
    simpl. split; [tauto | exact Hx].
  - unfold EmailSenderNode.post, pure in Hpost. injection Hpost as _ <-.
    simpl. split; [tauto|]. intros; apply same_for_refl.
Qed.

(** Two walks of message [k] from workspaces that look the same to [k] are
    the same walk. *)
Lemma walk_agree (table : Table) (k : string) (fuel : nat) :
  forall (n : NodeId) (s1 s2 : Shared),
    same_for k s1 s2 ->
    path (walk (run_item_node k) table fuel n s1)
    = path (walk (run_item_node k) table fuel n s2)
    /\ effects (walk (run_item_node k) table fuel n s1)
       = effects (walk (run_item_node k) table fuel n s2)
    /\ outcome (walk (run_item_node k) table fuel n s1)
       = outcome (walk (run_item_node k) table fuel n s2)
    /\ same_for k (final (walk (run_item_node k) table fuel n s1))
         (final (walk (run_item_node k) table fuel n s2)).
Proof.
  induction fuel as [|fuel IH]; intros n s1 s2 Hs; simpl; [auto|].
  destruct (node_agree k n s1 s2 Hs) as [Ht Hr].
  destruct (run_item_node k n s1) as [t1 [[s1' a1]|e1]],
           (run_item_node k n s2) as [t2 [[s2' a2]|e2]];
    simpl in Ht, Hr; try contradiction; subst t2.
  - destruct Hr as [Ha Hs']. simpl in Ha, Hs'. subst a2.
    destruct (successor table n a1) as [[next|]|]; simpl; auto.
    destruct (IH next s1' s2' Hs') as (Hp & He & Ho & Hf).
    rewrite Hp, He, Ho. auto.
  - subst e2. simpl. auto.
Qed.

(** The walk of message [k] leaves the entries of the other messages as
    they were. *)
Lemma walk_frame (table : Table) (k k' : string) (fuel : nat) :
  k <> k' ->
  forall (n : NodeId) (s : Shared),
    same_for k' s (final (walk (run_item_node k) table fuel n s)).
Proof.
  intros Hne. induction fuel as [|fuel IH]; intros n s; simpl;
    [apply same_for_refl|].
  destruct (run_item_node k n s) as [t [[s' a]|e]] eqn:Hrun; simpl;
    [|apply same_for_refl].
  destruct (node_frame _ _ _ _ _ Hrun) as [_ Hframe]. simpl in Hframe.
  destruct (successor table n a) as [[next|]|]; simpl; auto.
  apply same_for_trans with s'; auto.
Qed.

(** From a node of the wiring, a walk with enough fuel ends: on the
    termination marker after [end], or with an exception. *)
Lemma walk_ended (k : string) (fuel : nat) :
  forall (n : NodeId) (s : Shared),
    n <> no_slots -> (rank n <= fuel)%nat ->
    ended (outcome (walk (run_item_node k) wiring fuel n s)).
Proof.
  induction fuel as [|fuel IH]; intros n s Hn Hrank.
  - destruct n; simpl in Hrank; lia.
  - simpl. destruct (run_item_node k n s) as [t [[s' a]|e]] eqn:Hrun; simpl;
      [|right; eauto].
    destruct (node_frame _ _ _ _ _ Hrun) as [Hemit _]. simpl in Hemit.
    destruct n; simpl in Hemit, Hrank;
      try contradiction;
      try (unfold run_item_node, pure in Hrun; discriminate Hrun);
      repeat (destruct Hemit as [<-|Hemit]; [|try contradiction]);
      simpl;
      try (left; reflexivity);
      try (apply IH; [discriminate | simpl; lia]).
Qed.

(** The batch runner gives every item the outcome its walk has on its own,
    from the workspace the batch started with. *)
Lemma run_items_isolated (table : Table) (keys : list string) :
  List.NoDup keys ->
  forall (s s0 : Shared),
    (forall k, In k keys -> same_for k s s0) ->
    outcomes (run_items (walk_item table) keys s)
    = map (fun k => (k, outcome (walk_item table k s0))) keys
    /\ visited (run_items (walk_item table) keys s)
       = map (fun k => (k, path (walk_item table k s0))) keys
    /\ aggregate (run_items (walk_item table) keys s) = "default".
Proof.
  induction 1 as [|k rest Hnotin Hnd IH]; intros s s0 Hsame; simpl; [auto|].
  destruct (walk_agree table k item_fuel batch_start s s0 (Hsame k (or_introl eq_refl)))
    as (Hp & _ & Ho & _).
  destruct (IH (final (walk_item table k s)) s0) as (Hout & Hvis & Hagg).
  - intros k' Hin. apply same_for_trans with s; [|apply Hsame; now right].
    apply same_for_sym. unfold walk_item. apply walk_frame.
    intros ->. contradiction.
  - unfold walk_item in *. rewrite Hout, Hvis, Hp, Ho. auto.
Qed.

(** C4. A batch over the pending messages (a mapping holds each key once)
    gives every message the outcome its walk has on its own from the
    workspace the batch started with, whatever happens to the walks of the
    other messages: a walk that raises does not keep another walk from
    reaching [end]. Every walk ends, on the termination marker after [end]
    or with its exception, and after all of them the batch flow hands the
    single action [default] to the polling flow, where the fetcher is
    registered for it. *)
Theorem batch_walks_isolated (shared : Shared) (d : PyDict.dict Message) :
  pending_emails shared = Some d ->
  List.NoDup (PyDict.keys d) ->
  exists b,
    run_batch wiring shared = Ok b
    /\ outcomes b
       = map (fun k => (k, outcome (walk_item wiring k shared))) (PyDict.keys d)
    /\ (forall k, In k (PyDict.keys d) ->
          outcome (walk_item wiring k shared) = Completed "end" ->
          In (k, Completed "end") (outcomes b))
    /\ (forall k o, In (k, o) (outcomes b) -> ended o)
    /\ aggregate b = "default"
    /\ snd (run_main_node wiring email_analysis shared) = Ok (batch_final b, "default")
    /\ successor wiring email_analysis "default" = Some (Some email_fetcher).
Proof.
  intros Hd Hnd.
  exists (run_items (walk_item wiring) (PyDict.keys d) shared).
  destruct (run_items_isolated wiring (PyDict.keys d) Hnd shared shared
              (fun k _ => same_for_refl k shared)) as (Hout & _ & Hagg).
  assert (Hbatch : run_batch wiring shared
                   = Ok (run_items (walk_item wiring) (PyDict.keys d) shared)).
  { unfold run_batch, EmailAnalysisBatchFlow.prep. rewrite Hd. reflexivity. }
  split; [exact Hbatch|]. split; [exact Hout|]. split; [|split; [|split; [|split]]].
  - intros k Hin Hend. rewrite Hout. apply in_map_iff. exists k.
    split; [now rewrite Hend | exact Hin].
  - intros k o Hin. rewrite Hout in Hin. apply in_map_iff in Hin.
    destruct Hin as (k' & [= <- <-] & _).
    unfold walk_item, batch_start, item_fuel. apply walk_ended; [discriminate | simpl; lia].
  - exact Hagg.
  - unfold run_main_node. rewrite Hbatch. simpl. now rewrite Hagg.
  - reflexivity.
Qed.

End EngineFacts.

(** Three pending messages; the walk of the second raises in its first
    execute stage. The first and the third reach [end], and the batch hands
    back [default]. *)
Lemma batch_walks_isolated_witness :
  exists b,
    Engine.run_batch (H := Examples.batching) Graph.wiring Examples.batch_workspace
    = Ok b
    /\ Engine.outcomes b
       = [("m1", Engine.Completed "end");
          ("m2", Engine.Failed IndexError);
          ("m3", Engine.Completed "end")]
    /\ Engine.aggregate b = "default".
Proof.
  destruct (batch_walks_isolated (H := Examples.batching) Examples.batch_workspace
              (PyDict.comprehension message_id
                 [Examples.monday_mail; Examples.coffee_mail; Examples.lunch_mail])
              eq_refl (NoDup_keys_comprehension _ _))
    as (b & Hrun & Hout & _ & _ & Hagg & _).
  exists b. split; [exact Hrun|]. split; [|exact Hagg].
  rewrite Hout. reflexivity.
Defined.

(** ** Graph construction *)

Section ConstructionFacts.
Context `{Collaborators}.
Import Graph Engine.

Lemma uncovered_complete (table : Table) (n : NodeId) (a : string) :
  In n (nodes table) -> In a (emits n) -> successor table n a = None ->
  In (n, a) (uncovered table).
Proof.
  intros Hn Ha Hnone. unfold uncovered.
  apply in_flat_map. exists n. split; [exact Hn|].
  apply in_flat_map. exists a. split; [exact Ha|].
  rewrite Hnone. now left.
Qed.

Lemma successor_endpoint (table : Table) (n next : NodeId) (a : string) :
  successor table n a = Some (Some next) -> In next (nodes table).
Proof.
  intros Hs. right; right. induction table as [|[[src a'] dst] rest IH]; simpl in *;
    [discriminate|].
  destruct (node_eqb src n && String.eqb a' a).
  - injection Hs as ->. simpl. tauto.
  - destruct dst; simpl; auto.
Qed.

Lemma constructed_covers (table g : Table) :
  construct table = Ok g ->
  g = table
  /\ forall n a, In n (nodes table) -> In a (emits n) -> successor table n a <> None.
Proof.
  unfold construct. destruct (uncovered table) as [|[n0 a0] rest] eqn:Hu;
    [|discriminate].
  intros [= <-]. split; [reflexivity|].
  intros n a Hn Ha Hnone.
  pose proof (uncovered_complete _ _ _ Hn Ha Hnone) as Hin.
  rewrite Hu in Hin. contradiction.
Qed.

Lemma aggregate_default (walk_one : string -> Shared -> Walk) (keys : list string)
    (s : Shared) :
  aggregate (run_items walk_one keys s) = "default".
Proof. revert s. induction keys as [|k rest IH]; intros s; simpl; auto. Qed.

(** A node of the main flow that returned gave one of its actions. *)
Lemma main_node_emits (table : Table) (n : NodeId) (s : Shared) (t : list Effect)
    (x : Shared * string) :
  run_main_node table n s = (t, Ok x) -> In (snd x) (emits n).
Proof.
  destruct n; unfold run_main_node; intros Hrun;
    try (unfold pure in Hrun; discriminate Hrun).
  - apply stages_Ok in Hrun.
    destruct Hrun as (p & e & t1 & t2 & _ & _ & Hpost & _).
    unfold EmailFetcherNode.post, perform, pure in Hpost.
    destruct e as [[|m msgs]|]; injection Hpost as _ <-; simpl; tauto.
  - destruct (run_batch table s) as [b|e] eqn:Hb; [|discriminate Hrun].
    injection Hrun as _ <-. simpl. left. symmetry.
    unfold run_batch in Hb. apply bind_Ok in Hb.
    destruct Hb as (keys & _ & [= <-]). apply aggregate_default.
Qed.

(** In a graph that was constructed, no walk comes to an action nobody
    registered. *)
Lemma constructed_walk (table : Table) (run : NodeId -> Shared -> Eff (Shared * string)) :
  (forall n a, In n (nodes table) -> In a (emits n) -> successor table n a <> None) ->
  (forall n s t x, run n s = (t, Ok x) -> In (snd x) (emits n)) ->
  forall (fuel : nat) (start : NodeId) (s : Shared) (n : NodeId) (a : string),
    In start (nodes table) ->
    outcome (walk run table fuel start s) <> Unregistered n a.
Proof.
  intros Hcov Hemit. induction fuel as [|fuel IH]; intros start s n a Hstart; simpl;
    [discriminate|].
  destruct (run start s) as [t [[s' a']|e]] eqn:Hrun; simpl; [|discriminate].
  pose proof (Hemit _ _ _ _ Hrun) as Ha. simpl in Ha.
  destruct (successor table start a') as [[next|]|] eqn:Hs; simpl.
  - apply IH. now apply (successor_endpoint table start next a').
  - discriminate.
  - exfalso. exact (Hcov start a' Hstart Ha Hs).
Qed.

Lemma item_node_emits (k : string) (n : NodeId) (s : Shared) (t : list Effect)
    (x : Shared * string) :
  run_item_node k n s = (t, Ok x) -> In (snd x) (emits n).
Proof. intros Hrun. now destruct (node_frame _ _ _ _ _ Hrun). Qed.

(** C5. Construction fails, with a configuration error, whenever a node of
    the graph can emit an action that has neither a registered destination
    nor a termination marker; it reads the transition table only, so it
    fails before any workspace or collaborator is involved. In a graph that
    was constructed, no walk (of a message, of the polling flow, or inside
    a batch) ever meets an unregistered action. *)
Theorem construction_rejects_uncovered_action (table : Table) :
  (forall n a,
      In n (nodes table) -> In a (emits n) -> successor table n a = None ->
      exists n' a', construct table = Raise (ConfigurationError (node_name n') a'))
  /\ (forall g,
        construct table = Ok g ->
        g = table
        /\ forall (fuel : nat) (start : NodeId) (shared : Shared) (email_id : string)
                  (n : NodeId) (a : string),
             In start (nodes table) ->
             outcome (walk (run_item_node email_id) g fuel start shared)
               <> Unregistered n a
             /\ outcome (walk (run_main_node g) g fuel start shared)
                  <> Unregistered n a
             /\ forall b, run_batch g shared = Ok b ->
                  ~ In (email_id, Unregistered n a) (outcomes b)).
Proof.
  split.
  - intros n a Hn Ha Hnone. pose proof (uncovered_complete _ _ _ Hn Ha Hnone) as Hin.
    unfold construct. destruct (uncovered table) as [|[n' a'] rest]; [contradiction|].
    eauto.
  - intros g Hg. destruct (constructed_covers _ _ Hg) as [-> Hcov].
    split; [reflexivity|]. intros fuel start shared email_id n a Hstart.
    split; [|split].
    + apply constructed_walk; [exact Hcov | apply item_node_emits | exact Hstart].
    + apply constructed_walk; [exact Hcov | apply main_node_emits | exact Hstart].
    + intros b Hb. unfold run_batch in Hb. apply bind_Ok in Hb.
      destruct Hb as (keys & _ & [= <-]).
      generalize shared. induction keys as [|k rest IH]; intros s; simpl; [tauto|].
      intros [[= <- Hout]|Hin]; [|exact (IH _ Hin)].
      revert Hout. unfold walk_item.
      apply constructed_walk; [exact Hcov | apply item_node_emits |].
      right; left. reflexivity.
Qed.

(** The graph of [flow.py] is constructed. *)
Lemma wiring_constructed : construct wiring = Ok wiring.
Proof. reflexivity. Qed.

End ConstructionFacts.

(** Without the line for [ask_time] construction fails; with the wiring of
    [flow.py] it succeeds and the walk of a message meets no unregistered
    action. *)
Lemma construction_rejects_uncovered_action_witness :
  (exists n' a',
      Engine.construct Examples.forgetful_wiring
      = Raise (ConfigurationError (Graph.node_name n') a'))
  /\ forall n a,
       Engine.outcome
         (Engine.walk (Engine.run_item_node (H := Examples.batching) "m1")
            Graph.wiring 8 Graph.email_analyzer Examples.batch_workspace)
       <> Engine.Unregistered n a.
Proof.
  split.
  - apply (proj1 (construction_rejects_uncovered_action
                    (H := Examples.batching) Examples.forgetful_wiring)
             Graph.action_decider "ask_time").
    + vm_compute. tauto.
    + simpl. tauto.
    + reflexivity.
  - intros n a.
    destruct (proj2 (construction_rejects_uncovered_action
                       (H := Examples.batching) Graph.wiring)
                Graph.wiring eq_refl) as [_ Hwalk].
    apply (Hwalk 8%nat Graph.email_analyzer Examples.batch_workspace "m1" n a).
    vm_compute. tauto.
Defined.

(** ** The path for a request without free slots *)

Section NoSlotsFacts.
Import Graph Engine.

(** A walk visits its start node and destinations of the table. *)
Lemma walk_path_nodes (run : NodeId -> Shared -> Eff (Shared * string))
    (table : Table) (fuel : nat) :
  forall (start : NodeId) (s : Shared) (m : NodeId),
    In m (path (walk run table fuel start s)) -> m = start \/ In m (nodes table).
Proof.
  induction fuel as [|fuel IH]; intros start s m; simpl; [contradiction|].
  destruct (run start s) as [t [[s' a]|e]]; simpl; [|intuition congruence].
  destruct (successor table start a) as [[next|]|] eqn:Hs; simpl;
    try (intuition congruence).
  intros [<-|Hin]; [now left|]. right.
  destruct (IH next s' m Hin) as [->|Hm]; [|exact Hm].
  now apply (successor_endpoint table start next a).
Qed.

(** C2 on the code. No walk of a message visits the no-slots node: no line
    of the wiring leads to it, and the decider returns [schedule] or
    [ask_time] only. With a calendar booked all week the free-slot list is
    empty; when the reasoning step then answers [ask_time] the walk goes to
    the proposal node, and when it answers [schedule] the walk goes to the
    scheduler, which creates the event. *)
Theorem no_slots_node_never_visited :
  (forall (C : Collaborators) (email_id : string) (shared : Shared),
      ~ In no_slots (path (walk_item wiring email_id shared)))
  /\ (let w := walk_item (H := Examples.booked (Examples.decision "ask_time" YNull))
                 wiring "m1" (Demo.workspace [Examples.monday_mail]) in
      Examples.stored_slots (final w) = Some []
      /\ path w = [email_analyzer; range_extractor; availability_checker;
                   action_decider; time_proposal; email_sender]
      /\ outcome w = Completed "end")
  /\ (let w := walk_item
                 (H := Examples.booked (Examples.decision "schedule" Examples.evening))
                 wiring "m1" (Demo.workspace [Examples.monday_mail]) in
      Examples.stored_slots (final w) = Some []
      /\ path w = [email_analyzer; range_extractor; availability_checker;
                   action_decider; meeting_scheduler; schedule_confirmation;
                   email_sender]
      /\ In (CreateEvent (Demo.at_time 2030 1 7 20 0) (Demo.at_time 2030 1 7 21 0))
            (effects w)).
Proof.
  split; [|split].
  - intros C email_id shared Hin. unfold walk_item in Hin.
    apply walk_path_nodes in Hin. destruct Hin as [Heq|Hin]; [discriminate Heq|].
    vm_compute in Hin. intuition discriminate.
  - vm_compute. repeat split.
  - vm_compute. repeat split. tauto.
Qed.

End NoSlotsFacts.

(** * Further properties of the code *)

(** ** Splitting a string, and the fenced block of an answer *)

Section SplitFacts.

Lemma append_empty_r (s : string) : String.append s EmptyString = s.
Proof. induction s as [|c s IH]; simpl; [reflexivity | now rewrite IH]. Qed.

Lemma append_assoc_char (piece : string) (c : ascii) (s : string) :
  String.append (String.append piece (String c EmptyString)) s
  = String.append piece (String c s).
Proof. induction piece as [|a piece IH]; simpl; [reflexivity | now rewrite IH]. Qed.

Lemma prefix_of_empty (sep : string) :
  sep <> EmptyString -> String.prefix sep EmptyString = false.
Proof. destruct sep; [congruence | reflexivity]. Qed.

(** A prefix of a text is a prefix of every extension of it. *)
Lemma prefix_extend (sep a r : string) :
  String.prefix sep a = true -> String.prefix sep (String.append a r) = true.
Proof.
  revert a. induction sep as [|c sep IH]; intros a;
    [intros _; now destruct (String.append a r)|].
  destruct a as [|c' a]; simpl; [discriminate|].
  destruct (ascii_dec c c'); [apply IH | discriminate].
Qed.

(** [split] never returns an empty list. *)
Lemma split_from_not_nil (sep : string) (s : string) :
  forall (skip : nat) (piece : string), split_from sep skip piece s <> [].
Proof.
  induction s as [|c s IH]; intros skip piece; cbn [split_from before substring_of hd String.append]; [discriminate|].
  destruct skip; [|apply IH].
  destruct (String.prefix sep (String c s)); [discriminate | apply IH].
Qed.

Lemma before_is_prefix (sep s : string) :
  exists r, s = String.append (before sep s) r.
Proof.
  induction s as [|c s IH].
  - exists EmptyString. cbn [split_from before substring_of hd String.append]. now destruct (String.prefix sep EmptyString).
  - cbn [split_from before substring_of hd String.append]. destruct (String.prefix sep (String c s)).
    + exists (String c s). reflexivity.
    + destruct IH as [r Hr]. exists r. cbn [split_from before substring_of hd String.append]. now rewrite <- Hr.
Qed.

(** No occurrence of [sep] lies in front of the leftmost one. *)
Lemma before_free (sep s : string) :
  sep <> EmptyString -> substring_of sep (before sep s) = false.
Proof.
  intros Hsep. induction s as [|c s IH].
  - cbn [split_from before substring_of hd String.append]. destruct (String.prefix sep EmptyString) eqn:E; cbn [split_from before substring_of hd String.append];
      now rewrite prefix_of_empty.
  - cbn [split_from before substring_of hd String.append]. destruct (String.prefix sep (String c s)) eqn:E.
    + cbn [split_from before substring_of hd String.append]. now rewrite prefix_of_empty.
    + change (substring_of sep (String c (before sep s)))
        with (if String.prefix sep (String c (before sep s)) then true
              else substring_of sep (before sep s)).
      rewrite IH.
      destruct (String.prefix sep (String c (before sep s))) eqn:E'; [|reflexivity].
      destruct (before_is_prefix sep s) as [r Hr].
      apply (prefix_extend _ _ r) in E'. cbn [String.append] in E'. rewrite <- Hr in E'.
      congruence.
Qed.

(** The first piece of a split is the text in front of the leftmost
    separator. *)
Lemma split_from_head (sep : string) (s : string) :
  forall piece,
    hd EmptyString (split_from sep O piece s) = String.append piece (before sep s).
Proof.
  induction s as [|c s IH]; intros piece.
  - cbn [split_from before substring_of hd String.append]. destruct (String.prefix sep EmptyString); now rewrite append_empty_r.
  - cbn [split_from before substring_of hd String.append]. destruct (String.prefix sep (String c s)).
    + cbn [split_from before substring_of hd String.append]. now rewrite append_empty_r.
    + rewrite IH. apply append_assoc_char.
Qed.

(** A split has a second piece exactly when the separator occurs. *)
Lemma split_from_second (sep : string) (s : string) :
  sep <> EmptyString ->
  forall piece,
    (substring_of sep s = true ->
       exists first second rest, split_from sep O piece s = first :: second :: rest)
    /\ (substring_of sep s = false -> split_from sep O piece s = [String.append piece s]).
Proof.
  intros Hsep. induction s as [|c s IH]; intros piece.
  - cbn [split_from before substring_of hd String.append]. rewrite (prefix_of_empty _ Hsep). split; [discriminate|].
    intros _. now rewrite append_empty_r.
  - change (substring_of sep (String c s))
      with (if String.prefix sep (String c s) then true else substring_of sep s).
    cbn [split_from]. destruct (String.prefix sep (String c s)).
    + split; [|discriminate]. intros _.
      destruct (split_from sep (Nat.pred (String.length sep)) EmptyString s)
        as [|second rest] eqn:E; [now apply split_from_not_nil in E|].
      eauto.
    + destruct (IH (String.append piece (String c EmptyString))) as [Hyes Hno].
      split; [exact Hyes|]. intros Hnone. rewrite (Hno Hnone).
      now rewrite append_assoc_char.
Qed.

End SplitFacts.

(** X1. The fenced block of an answer. An answer without the opening fence
    makes the extraction raise [IndexError]; an answer with it always
    yields a block, and the block holds no fence. *)
Theorem fenced_block_needs_fence (response : string) :
  (substring_of "```yaml" response = false ->
     fenced_block response = Raise IndexError)
  /\ (substring_of "```yaml" response = true ->
       exists block,
         fenced_block response = Ok block /\ substring_of "```" block = false).
Proof.
  assert (Hfence : "```yaml" <> EmptyString) by discriminate.
  assert (Hticks : "```" <> EmptyString) by discriminate.
  unfold fenced_block, split.
  destruct (split_from_second "```yaml" response Hfence EmptyString) as [Hyes Hno].
  split; intros Hocc.
  - rewrite (Hno Hocc). reflexivity.
  - destruct (Hyes Hocc) as (first & second & rest & ->).
    cbn [index nth_error mbind result_bind].
    exists (before "```" second). split; [|now apply before_free].
    pose proof (split_from_head "```" second EmptyString) as Hhd.
    destruct (split_from "```" O EmptyString second) as [|b bs] eqn:E;
      [now apply split_from_not_nil in E|].
    simpl in Hhd. subst b. reflexivity.
Qed.

Lemma fenced_block_needs_fence_witness :
  fenced_block "Sure." = Raise IndexError
  /\ exists block,
       fenced_block "```yaml action: ask_time ``` done" = Ok block
       /\ substring_of "```" block = false.
Proof.
  split.
  - apply (proj1 (fenced_block_needs_fence "Sure.")). reflexivity.
  - apply (proj2 (fenced_block_needs_fence "```yaml action: ask_time ``` done")).
    reflexivity.
Defined.

(** X2. With the [call_llm] of [utils/call_llm.py], whose answer is the
    same unfenced text for every prompt, every reasoning step raises
    [IndexError], whatever the prompt and whatever the loader would do; so
    does the execute stage of the intent analyzer, the first node of every
    message's walk. *)
Theorem shipped_reasoning_step_raises (C : Collaborators)
    (load : string -> result yaml) :
  (forall prompt use_cache,
      fenced_block (CallLLM.call_llm prompt use_cache) = Raise IndexError)
  /\ (forall q, snd (ask (H := shipped C load) q) = Raise IndexError)
  /\ (forall inputs,
        snd (EmailIntentAnalyzerNode.exec (H := shipped C load) inputs)
        = Raise IndexError).
Proof.
  split; [|split].
  - intros prompt [|]; reflexivity.
  - intros q. reflexivity.
  - intros [email_body cfg]. reflexivity.
Qed.

(** ** More on the fetcher *)

Section FetcherCompleteness.
Context `{Collaborators}.
Import EmailFetcherNode.

Lemma involves_of_involved (auth : string) (e : Message) (b : bool) :
  involves auth e = Ok b -> involved auth e -> b = true.
Proof.
  unfold involves, involved. destruct (getaddress (sender e)) as [from|err];
    simpl; [|discriminate].
  intros [= <-] [Hs|[Hc|Hb]].
  - injection Hs as ->. now rewrite String.eqb_refl.
  - apply existsb_eqb_In in Hc. rewrite Hc. now rewrite orb_true_r.
  - apply existsb_eqb_In in Hb. rewrite Hb. now rewrite orb_true_r.
Qed.

Lemma keep_authorized_complete (auth : string) (emails kept : list Message) :
  keep_authorized auth emails = Ok kept ->
  forall e, In e emails -> involved auth e -> In e kept.
Proof.
  revert kept. induction emails as [|e0 rest IH]; intros kept Hk e Hin Hinv;
    [contradiction|].
  cbn [keep_authorized] in Hk. ok_steps Hk. injection Hk as <-.
  destruct Hin as [<-|Hin].
  - rewrite (involves_of_involved _ _ _ Hstep Hinv). now left.
  - specialize (IH _ Hstep0 e Hin Hinv). destruct a; [now right | exact IH].
Qed.

Lemma keep_authorized_raises (auth : string) (emails : list Message) (e : Message)
    (err : exn) :
  In e emails -> getaddress (sender e) = Raise err ->
  raised (keep_authorized auth emails).
Proof.
  intros Hin Herr. induction emails as [|e0 rest IH]; [contradiction|].
  cbn [keep_authorized].
  destruct Hin as [<-|Hin].
  - unfold involves. rewrite Herr. now exists err.
  - destruct (involves auth e0) as [keep|err0]; [|now exists err0].
    destruct (IH Hin) as [err1 Hrest]. rewrite Hrest. now exists err1.
Qed.

(** X3. The fetcher drops no email that involves the authorized user: when
    the execute stage returns, every fetched email whose sender is the
    authorized address, or that has it in [cc] or [bcc], is in the list it
    returns. *)
Theorem fetcher_keeps_every_involved (cfg : Prepared) (emails : list Message)
    (auth : string) (t : list Effect) (r : option (list Message)) :
  check_unread_emails (p_username cfg) (p_password cfg) = Ok emails ->
  getaddress (p_authorized_user cfg) = Ok auth ->
  exec cfg = (t, Ok r) ->
  forall e, In e emails -> involved auth e -> exists msgs, r = Some msgs /\ In e msgs.
Proof.
  intros Hfetch Hauth Hexec e Hin Hinv. revert Hexec.
  unfold exec, perform, pure. rewrite Hfetch.
  cbn -[keep_authorized].
  destruct emails as [|e0 rest]; [contradiction|].
  cbn -[keep_authorized]. rewrite Hauth. cbn -[keep_authorized].
  generalize dependent (e0 :: rest). intros emails Hfetch Hin.
  destruct (keep_authorized auth emails) as [kept|err] eqn:Hk;
    cbn -[keep_authorized]; [|discriminate].
  pose proof (keep_authorized_complete _ _ _ Hk e Hin Hinv) as Hkept.
  destruct kept as [|k0 krest]; [contradiction|].
  intros [= _ <-]. eauto.
Qed.

(** X4. One email whose sender cannot be parsed makes the whole fetch
    cycle raise, even when other fetched emails involve the authorized
    user: nothing is handed to the finalize stage. *)
Theorem fetcher_unparsable_sender_aborts (cfg : Prepared) (emails : list Message)
    (e : Message) (err : exn) :
  check_unread_emails (p_username cfg) (p_password cfg) = Ok emails ->
  In e emails ->
  getaddress (sender e) = Raise err ->
  raised (snd (exec cfg)).
Proof.
  intros Hfetch Hin Herr.
  unfold exec, perform, pure. rewrite Hfetch. cbn -[keep_authorized].
  destruct emails as [|e0 rest]; [contradiction|].
  cbn -[keep_authorized].
  destruct (getaddress (p_authorized_user cfg)) as [auth|err0];
    cbn -[keep_authorized]; [|now exists err0].
  destruct (keep_authorized_raises auth (e0 :: rest) e err Hin Herr) as [err1 Hk].
  rewrite Hk. now exists err1.
Qed.

End FetcherCompleteness.

Lemma fetcher_keeps_every_involved_witness :
  exists t msgs,
    EmailFetcherNode.exec
      (H := Examples.polling [Examples.stranger_mail; Cases.copied_mail])
      Cases.fetcher_prepared = (t, Ok (Some msgs))
    /\ In Cases.copied_mail msgs.
Proof.
  destruct (EmailFetcherNode.exec
              (H := Examples.polling [Examples.stranger_mail; Cases.copied_mail])
              Cases.fetcher_prepared) as [t [r|err]] eqn:Hexec;
    [|vm_compute in Hexec; discriminate Hexec].
  destruct (fetcher_keeps_every_involved
              (H := Examples.polling [Examples.stranger_mail; Cases.copied_mail])
              Cases.fetcher_prepared
              [Examples.stranger_mail; Cases.copied_mail] "boss@example.com" t r
              eq_refl eq_refl Hexec Cases.copied_mail)
    as (msgs & -> & Hin).
  - right; left; reflexivity.
  - right; left. simpl. now left.
  - exists t, msgs. split; [reflexivity | exact Hin].
Defined.

Lemma fetcher_unparsable_sender_aborts_witness :
  raised (snd (EmailFetcherNode.exec
                 (H := Cases.careful [Examples.monday_mail; Cases.anonymous_mail])
                 Cases.fetcher_prepared)).
Proof.
  apply (fetcher_unparsable_sender_aborts
           (H := Cases.careful [Examples.monday_mail; Cases.anonymous_mail])
           Cases.fetcher_prepared
           [Examples.monday_mail; Cases.anonymous_mail]
           Cases.anonymous_mail IndexError).
  - reflexivity.
  - right; left; reflexivity.
  - reflexivity.
Defined.

(** ** Emails that share a message identifier *)

Section DuplicateIds.
Context {V : Type}.

Lemma get_fold_set_skip (key : V -> string) (post : list V) (k : string) :
  (forall y, In y post -> key y <> k) ->
  forall d,
    PyDict.get k (fold_left (fun d x => PyDict.set (key x) x d) post d)
    = PyDict.get k d.
Proof.
  induction post as [|y post IH]; intros Hskip d; simpl; [reflexivity|].
  rewrite IH by (intros z Hz; apply Hskip; now right).
  apply get_set_ne. apply Hskip. now left.
Qed.

(** Of the items with one key, a comprehension keeps the last. *)
Lemma get_comprehension_last (key : V -> string) (pre post : list V) (x : V) :
  (forall y, In y post -> key y <> key x) ->
  PyDict.get (key x) (PyDict.comprehension key (pre ++ x :: post)) = Some x.
Proof.
  intros Hskip. unfold PyDict.comprehension.
  rewrite fold_left_app. simpl. rewrite get_fold_set_skip by exact Hskip.
  apply get_set_eq.
Qed.

End DuplicateIds.

(** X5. After the fetcher stored a fetch, the batch flow prepares one item
    per message identifier, no identifier twice; of the fetched emails that
    share an identifier, the one fetched last is the one stored. *)
Theorem fetched_batch_has_one_item_per_id (shared : Shared)
    (prep_res : EmailFetcherNode.Prepared) (msgs : list Message) :
  msgs <> [] ->
  exists shared' keys,
    EmailFetcherNode.post shared prep_res (Some msgs)
    = ([], Ok (shared', "analyze_batch"))
    /\ EmailAnalysisBatchFlow.prep shared' = Ok keys
    /\ List.NoDup keys
    /\ (forall k, In k keys <-> In k (map message_id msgs))
    /\ (forall pre m post,
          msgs = pre ++ m :: post ->
          (forall m', In m' post -> message_id m' <> message_id m) ->
          pending_email shared' (message_id m) = Ok m).
Proof.
  intros Hne.
  exists (set_pending shared (PyDict.comprehension message_id msgs)),
         (PyDict.keys (PyDict.comprehension message_id msgs)).
  split; [destruct msgs; [contradiction | reflexivity]|].
  split; [reflexivity|]. split; [apply NoDup_keys_comprehension|]. split.
  - intros k. apply keys_comprehension.
  - intros pre m post -> Hlast. unfold pending_email. simpl.
    now rewrite get_comprehension_last.
Qed.

Lemma fetched_batch_has_one_item_per_id_witness :
  exists shared',
    EmailFetcherNode.post Demo.empty_workspace Cases.fetcher_prepared
      (Some [Cases.first_copy; Examples.monday_mail; Cases.second_copy])
    = ([], Ok (shared', "analyze_batch"))
    /\ EmailAnalysisBatchFlow.prep shared' = Ok ["m6"; "m1"]
    /\ pending_email shared' "m6" = Ok Cases.second_copy.
Proof.
  destruct (fetched_batch_has_one_item_per_id Demo.empty_workspace
              Cases.fetcher_prepared
              [Cases.first_copy; Examples.monday_mail; Cases.second_copy])
    as (shared' & keys & Hpost & Hprep & _ & _ & Hlast).
  - discriminate.
  - exists shared'. split; [exact Hpost|]. split.
    + injection Hpost as <-. reflexivity.
    + apply (Hlast [Cases.first_copy; Examples.monday_mail] Cases.second_copy []).
      * reflexivity.
      * intros m' [].
Defined.

(** ** The intent analyzer *)

Section AnalyzerFacts.
Import EmailIntentAnalyzerNode.

Lemma keys_del {V : Type} (k : string) (d : PyDict.dict V) :
  PyDict.keys (PyDict.del k d)
  = List.filter (fun k' => negb (String.eqb k' k)) (PyDict.keys d).
Proof.
  induction d as [|[k0 v0] d IH]; simpl; [reflexivity|].
  destruct (String.eqb k0 k); simpl; [exact IH | now rewrite IH].
Qed.

(** X6. The finalize stage of the intent analyzer. A truthy
    [is_scheduling] leaves the workspace as it is and goes on to the
    extractor. Anything else removes the message from [pending_emails] and
    ends the walk: the message is gone, the configuration and the other
    messages stay, and a later batch keeps the other identifiers in their
    order. *)
Theorem analyzer_drops_non_scheduling (shared : Shared) (email_id : string)
    (msg : Message) (prep_res : string * Config) (exec_res flag : yaml) :
  pending_email shared email_id = Ok msg ->
  field exec_res "is_scheduling" = Ok flag ->
  (truthy flag = true ->
     post shared email_id prep_res exec_res
     = ([], Ok (shared, "extract_availability_range")))
  /\ (truthy flag = false ->
       exists shared',
         post shared email_id prep_res exec_res = ([], Ok (shared', "end"))
         /\ config shared' = config shared
         /\ pending_email shared' email_id = Raise (KeyError email_id)
         /\ (forall k, k <> email_id ->
               pending_email shared' k = pending_email shared k)
         /\ (forall keys,
               EmailAnalysisBatchFlow.prep shared = Ok keys ->
               EmailAnalysisBatchFlow.prep shared'
               = Ok (List.filter (fun k => negb (String.eqb k email_id)) keys))).
Proof.
  intros Hmsg Hflag. unfold post, pure. rewrite Hflag. simpl.
  split; intros Ht; rewrite Ht; [reflexivity|].
  unfold pending_email in Hmsg.
  destruct (pending_emails shared) as [d|] eqn:Hd; [|discriminate Hmsg].
  simpl in Hmsg. destruct (PyDict.get email_id d) as [m|] eqn:Hget;
    [|discriminate Hmsg].
  simpl. rewrite Hget. simpl. exists (set_pending shared (PyDict.del email_id d)).
  split; [reflexivity|]. split; [reflexivity|]. split; [|split].
  - unfold pending_email. simpl. now rewrite get_del_eq.
  - intros k Hk. unfold pending_email. simpl. rewrite Hd. simpl.
    rewrite get_del_ne by congruence. reflexivity.
  - intros keys. unfold EmailAnalysisBatchFlow.prep. simpl. rewrite Hd. simpl.
    intros [= <-]. now rewrite keys_del.
Qed.

End AnalyzerFacts.

Lemma analyzer_drops_non_scheduling_witness :
  exists shared',
    EmailIntentAnalyzerNode.post Examples.batch_workspace "m2"
      ("Coffee next week?", Demo.the_config)
      (YMap [("is_scheduling", YBool false); ("reason", YStr "small talk")])
    = ([], Ok (shared', "end"))
    /\ pending_email shared' "m2" = Raise (KeyError "m2")
    /\ EmailAnalysisBatchFlow.prep shared' = Ok ["m1"; "m3"].
Proof.
  destruct (proj2 (analyzer_drops_non_scheduling Examples.batch_workspace "m2"
                     Examples.coffee_mail ("Coffee next week?", Demo.the_config)
                     (YMap [("is_scheduling", YBool false);
                            ("reason", YStr "small talk")])
                     (YBool false) eq_refl eq_refl) eq_refl)
    as (shared' & Hpost & _ & Hgone & _ & Hkeys).
  exists shared'. split; [exact Hpost|]. split; [exact Hgone|].
  apply (Hkeys ["m1"; "m2"; "m3"]). reflexivity.
Defined.

(** ** The checks of the detail extractor *)

Section ValidateFacts.
Context `{Collaborators}.
Import AvailabilityRangeExtractorNode.

(** [key in mapping] holds exactly when [mapping[key]] exists. *)
Lemma contains_map (fields : list (string * yaml)) (key : string) :
  contains (YMap fields) key
  = Ok (match PyDict.get key fields with Some _ => true | None => false end).
Proof.
  simpl. f_equal. induction fields as [|[k v] rest IH]; simpl; [reflexivity|].
  destruct (String.eqb k key); simpl; [reflexivity | exact IH].
Qed.

(** X7. What the extractor reports for an answer it cannot use: an answer
    that is no mapping, a mapping without [duration], a [duration] that is
    no integer, and a mapping without [timeframe] each raise the assertion
    error of their own check, in this order. *)
Theorem extractor_reports_missing_fields (inputs : Prepared) (today : datetime)
    (loaded : yaml) :
  (is_dict loaded = false ->
     validate inputs today loaded
     = Raise (AssertionError "Result must be a dictionary"))
  /\ (forall fields,
        loaded = YMap fields ->
        (PyDict.get "duration" fields = None ->
           validate inputs today loaded
           = Raise (AssertionError "Duration is required"))
        /\ (forall d,
              PyDict.get "duration" fields = Some d -> is_int d = false ->
              validate inputs today loaded
              = Raise (AssertionError "Duration must be an integer"))
        /\ (forall d,
              PyDict.get "duration" fields = Some d -> is_int d = true ->
              PyDict.get "timeframe" fields = None ->
              validate inputs today loaded
              = Raise (AssertionError "Timeframe is required"))).
Proof.
  split.
  - intros Hdict. unfold validate. rewrite Hdict. reflexivity.
  - intros fields ->. unfold validate. cbn [is_dict assert mbind result_bind].
    rewrite !contains_map. cbn [field].
    split; [|split].
    + intros ->. reflexivity.
    + intros d -> Hint. cbn [assert mbind result_bind]. rewrite Hint. reflexivity.
    + intros d -> Hint ->. cbn [assert mbind result_bind]. rewrite Hint. reflexivity.
Qed.

(** X8. The extractor never looks at the value of an integer duration: an
    answer it accepts with one duration it accepts with any other, zero
    and negative ones included, and returns the same details with that
    duration. *)
Theorem extractor_accepts_any_integer_duration (inputs : Prepared)
    (today : datetime) (rest : list (string * yaml)) (n n' : Z) (m : Meeting) :
  validate inputs today (YMap (("duration", YInt n) :: rest)) = Ok m ->
  validate inputs today (YMap (("duration", YInt n') :: rest))
  = Ok (with_duration m (YInt n')).
Proof.
  unfold validate. rewrite !contains_map.
  cbn [is_dict is_int assert mbind result_bind field setdefault PyDict.get
       String.eqb Ascii.eqb Bool.eqb].
  intros Hv. ok_steps Hv. injection Hv as <-.
  repeat match goal with
    | Hx : ?c = Ok _ |- context [?c] => rewrite Hx; cbn [mbind result_bind]
    end.
  reflexivity.
Qed.

End ValidateFacts.

Lemma extractor_reports_missing_fields_witness :
  AvailabilityRangeExtractorNode.validate
    (H := Examples.extracting Examples.good_details)
    Examples.extractor_inputs Examples.clock (YStr "no yaml here")
  = Raise (AssertionError "Result must be a dictionary")
  /\ AvailabilityRangeExtractorNode.validate
       (H := Examples.extracting Examples.good_details)
       Examples.extractor_inputs Examples.clock
       (YMap [("duration", YStr "an hour"); ("reason", YStr "guess")])
     = Raise (AssertionError "Duration must be an integer").
Proof.
  split.
  - apply (proj1 (extractor_reports_missing_fields
                    (H := Examples.extracting Examples.good_details)
                    Examples.extractor_inputs Examples.clock (YStr "no yaml here"))).
    reflexivity.
  - apply (proj1 (proj2 (proj2 (extractor_reports_missing_fields
                    (H := Examples.extracting Examples.good_details)
                    Examples.extractor_inputs Examples.clock
                    (YMap [("duration", YStr "an hour"); ("reason", YStr "guess")]))
                    [("duration", YStr "an hour"); ("reason", YStr "guess")] eq_refl))
             (YStr "an hour")); reflexivity.
Defined.

(** An answer with a duration of minus thirty minutes is accepted. *)
Lemma extractor_accepts_any_integer_duration_witness :
  exists m,
    AvailabilityRangeExtractorNode.validate
      (H := Examples.extracting Examples.good_details)
      Examples.extractor_inputs Examples.clock (Cases.timed_details (YInt (-30)))
    = Ok m
    /\ duration m = YInt (-30).
Proof.
  destruct (AvailabilityRangeExtractorNode.validate
              (H := Examples.extracting Examples.good_details)
              Examples.extractor_inputs Examples.clock
              (Cases.timed_details (YInt 60))) as [m|err] eqn:Hv;
    [|vm_compute in Hv; discriminate Hv].
  exists (with_duration m (YInt (-30))). split; [|reflexivity].
  exact (extractor_accepts_any_integer_duration
           (H := Examples.extracting Examples.good_details)
           Examples.extractor_inputs Examples.clock _ 60 (-30) m Hv).
Defined.

(** ** From one node to the next *)

Section Handover.
Context `{Collaborators}.
Import Graph Engine.

(** What the finalize stage of a drafting node stores. *)
Lemma store_draft_stores (s s' : Shared) (k a : string) (exec_res : yaml)
    (t : list Effect) :
  store_draft s k exec_res = (t, Ok (s', a)) ->
  exists msg content,
    pending_email s k = Ok msg
    /\ field exec_res "body" = Ok content
    /\ a = "send_email"
    /\ pending_email s' k
       = Ok (set_draft msg
               {| draft_subject := get_default (subject msg) "Meeting Coordination";
                  draft_body := content |}).
Proof.
  rewrite store_draft_unfold. unfold pure. intros [= _ Hx].
  apply bind_Ok in Hx. destruct Hx as (msg & Hmsg & Hx).
  apply bind_Ok in Hx. destruct Hx as (content & Hbody & Hx).
  apply bind_Ok in Hx. destruct Hx as (s1 & Hu & [= <- <-]).
  apply pending_email_update in Hu.
  destruct Hu as (msg0 & msg' & Hmsg0 & [= <-] & Hget).
  rewrite Hmsg in Hmsg0. injection Hmsg0 as <-.
  exists msg, content. auto.
Qed.

(** X9. When a node of a message's walk returns an action and the wiring
    registers a next node for it, the prepare stage of that node succeeds
    on the workspace the node left: no transition of the wiring leads to a
    node that misses its state. *)
Theorem handover_finds_its_state (k : string) (n next : NodeId) (s s' : Shared)
    (t : list Effect) (a : string) :
  run_item_node k n s = (t, Ok (s', a)) ->
  successor wiring n a = Some (Some next) ->
  prepares next k s'.
Proof.
  intros Hrun Hnext.
  destruct n; unfold run_item_node in Hrun;
    try (unfold pure in Hrun; discriminate Hrun);
    apply stages_Ok in Hrun;
    destruct Hrun as (p & e & t1 & t2 & Hprep & _ & Hpost & _).
  - unfold EmailIntentAnalyzerNode.prep in Hprep. ok_steps Hprep.
    unfold EmailIntentAnalyzerNode.post, pure in Hpost. injection Hpost as _ Hx.
    apply bind_Ok in Hx. destruct Hx as (flag & _ & Hx).
    destruct (truthy flag).
    + injection Hx as <- <-. vm_compute in Hnext. injection Hnext as <-.
      unfold prepares, AvailabilityRangeExtractorNode.prep. rewrite Hstep. simpl. eauto.
    + ok_steps Hx. injection Hx as <- <-. discriminate Hnext.
  - unfold AvailabilityRangeExtractorNode.post, pure in Hpost.
    injection Hpost as _ Hx. apply bind_Ok in Hx.
    destruct Hx as (s1 & Hu & [= <- <-]). apply pending_email_update in Hu.
    destruct Hu as (msg & msg' & _ & [= <-] & Hget).
    vm_compute in Hnext. injection Hnext as <-.
    unfold prepares, AvailabilityCheckerNode.prep. rewrite Hget. simpl. eauto.
  - unfold AvailabilityCheckerNode.post, pure in Hpost.
    injection Hpost as _ Hx. apply bind_Ok in Hx.
    destruct Hx as (s1 & Hu & [= <- <-]). apply pending_email_update_request in Hu.
    destruct Hu as (msg & r & _ & _ & Hget).
    vm_compute in Hnext. injection Hnext as <-.
    unfold prepares, ActionDeciderNode.prep. rewrite Hget. simpl. eauto.
  - unfold ActionDeciderNode.prep in Hprep. ok_steps Hprep.
    unfold ActionDeciderNode.post, pure in Hpost.
    destruct (eq_str _ _).
    + injection Hpost as _ Hx. apply bind_Ok in Hx.
      destruct Hx as (s1 & Hu & [= <- <-]). apply pending_email_update_request in Hu.
      destruct Hu as (msg & r & _ & _ & Hget).
      vm_compute in Hnext. injection Hnext as <-.
      unfold prepares, MeetingSchedulerNode.prep. rewrite Hget. simpl. eauto.
    + injection Hpost as _ <- <-. vm_compute in Hnext. injection Hnext as <-.
      unfold prepares, ProposalEmailNode.prep. rewrite Hstep. simpl.
      rewrite Hstep0. simpl. eauto.
  - unfold MeetingSchedulerNode.post, pure in Hpost.
    injection Hpost as _ Hx. apply bind_Ok in Hx.
    destruct Hx as (s1 & Hu & [= <- <-]). apply pending_email_update_request in Hu.
    destruct Hu as (msg & r & _ & _ & Hget).
    vm_compute in Hnext. injection Hnext as <-.
    unfold prepares, ScheduleConfirmationEmailNode.prep. rewrite Hget. simpl. eauto.
  - unfold ScheduleConfirmationEmailNode.prep in Hprep. ok_steps Hprep.
    unfold ScheduleConfirmationEmailNode.post in Hpost.
    apply store_draft_stores in Hpost.
    destruct Hpost as (msg & content & Hmsg & _ & -> & Hget).
    rewrite Hstep in Hmsg. injection Hmsg as <-.
    vm_compute in Hnext. injection Hnext as <-.
    unfold prepares, EmailSenderNode.prep. rewrite Hget. simpl.
    rewrite Hstep0. simpl. eauto.
  - unfold ProposalEmailNode.prep in Hprep. ok_steps Hprep.
    unfold ProposalEmailNode.post in Hpost.
    apply store_draft_stores in Hpost.
    destruct Hpost as (msg & content & Hmsg & _ & -> & Hget).
    rewrite Hstep in Hmsg. injection Hmsg as <-.
    vm_compute in Hnext. injection Hnext as <-.
    unfold prepares, EmailSenderNode.prep. rewrite Hget. simpl.
    rewrite Hstep0. simpl. eauto.
  - unfold NoSlotsEmailNode.post in Hpost. apply store_draft_stores in Hpost.
    destruct Hpost as (msg & content & _ & _ & -> & _). discriminate Hnext.
  - unfold EmailSenderNode.post, pure in Hpost. injection Hpost as _ <- <-.
    discriminate Hnext.
Qed.
(** A string with one more character is another string. *)
Lemma longer_differs (c : ascii) (k : string) : String c k <> k.
Proof.
  intros Heq. apply (f_equal String.length) in Heq. simpl in Heq. lia.
Qed.

(** X10. A node of a message's walk that returns keeps the configuration
    and every other message's entry as they were. *)
Theorem node_writes_only_its_message (k : string) (n : NodeId) (s s' : Shared)
    (t : list Effect) (a : string) :
  run_item_node k n s = (t, Ok (s', a)) ->
  config s' = config s
  /\ forall k', k' <> k -> pending_email s' k' = pending_email s k'.
Proof.
  intros Hrun. destruct (node_frame _ _ _ _ _ Hrun) as [_ Hframe]. simpl in Hframe.
  split.
  - destruct (Hframe (String "x" k)) as [Hc _]; [|now symmetry].
    intros Heq. symmetry in Heq. now apply longer_differs in Heq.
  - intros k' Hne. destruct (Hframe k') as [_ Hp]; [congruence | now symmetry].
Qed.

End Handover.

Lemma handover_finds_its_state_witness :
  exists t s',
    Engine.run_item_node (H := Examples.batching) "m1" Graph.range_extractor
      Examples.batch_workspace = (t, Ok (s', "check_availability"))
    /\ prepares Graph.availability_checker "m1" s'.
Proof.
  destruct (Engine.run_item_node (H := Examples.batching) "m1" Graph.range_extractor
              Examples.batch_workspace) as [t [[s' a]|err]] eqn:Hrun;
    [|vm_compute in Hrun; discriminate Hrun].
  assert (Ha : a = "check_availability")
    by (vm_compute in Hrun; now injection Hrun as _ _ <-).
  subst a. exists t, s'. split; [reflexivity|].
  exact (handover_finds_its_state (H := Examples.batching) "m1"
           Graph.range_extractor Graph.availability_checker
           Examples.batch_workspace s' t "check_availability" Hrun eq_refl).
Defined.

Lemma node_writes_only_its_message_witness :
  exists t s',
    Engine.run_item_node (H := Examples.batching) "m3" Graph.email_analyzer
      Examples.batch_workspace = (t, Ok (s', "end"))
    /\ pending_email s' "m1" = Ok Examples.monday_mail.
Proof.
  destruct (Engine.run_item_node (H := Examples.batching) "m3" Graph.email_analyzer
              Examples.batch_workspace) as [t [[s' a]|err]] eqn:Hrun;
    [|vm_compute in Hrun; discriminate Hrun].
  assert (Ha : a = "end") by (vm_compute in Hrun; now injection Hrun as _ _ <-).
  subst a. exists t, s'. split; [reflexivity|].
  destruct (node_writes_only_its_message (H := Examples.batching) "m3"
              Graph.email_analyzer Examples.batch_workspace s' t "end" Hrun)
    as [_ Hframe].
  rewrite (Hframe "m1"); [reflexivity | discriminate].
Defined.

(** ** Single nodes *)

Section NodeRuns.
Context `{Collaborators}.
Import Graph Engine.

(** What a successful update of a message's entry returns. *)
Lemma update_email_result (s s' : Shared) (k : string) (f : Message -> result Message) :
  update_email s k f = Ok s' ->
  exists d msg msg',
    pending_emails s = Some d
    /\ pending_email s k = Ok msg
    /\ f msg = Ok msg'
    /\ s' = set_pending s (PyDict.set k msg' d).
Proof.
  intros Hu. pose proof (update_email_cases s k f) as Hc.
  destruct (pending_email s k) as [msg|e]; [|congruence].
  destruct (f msg) as [msg'|e] eqn:Hf; [|congruence].
  destruct Hc as (d & Hd & Heq). rewrite Heq in Hu. injection Hu as <-.
  exists d, msg, msg'. auto.
Qed.

(** X11. The decider schedules only for the action [schedule], spelled
    exactly so: for any other action of the answer (another word, another
    spelling, no string at all) the node returns [ask_time], leaves the
    workspace as it is, and neither parses nor stores the chosen slot the
    answer may carry. *)
Theorem decider_asks_for_any_other_action (shared : Shared) (email_id : string)
    (p : ActionDeciderNode.Prepared) (loaded action reason chosen : yaml) :
  ActionDeciderNode.prep shared email_id = Ok p ->
  snd (ask (action_query p)) = Ok loaded ->
  field loaded "action" = Ok action ->
  eq_str action "schedule" = false ->
  field loaded "reason" = Ok reason ->
  field loaded "chosen_slot" = Ok chosen ->
  snd (ActionDeciderNode.exec p)
  = Ok {| ActionDeciderNode.d_action := action;
          ActionDeciderNode.d_reason := reason;
          ActionDeciderNode.d_chosen_slot := SlotRaw chosen |}
  /\ snd (run_item_node email_id action_decider shared) = Ok (shared, "ask_time").
Proof.
  intros Hprep Hask Haction Hother Hreason Hchosen.
  assert (Hexec : snd (ActionDeciderNode.exec p)
                  = Ok {| ActionDeciderNode.d_action := action;
                          ActionDeciderNode.d_reason := reason;
                          ActionDeciderNode.d_chosen_slot := SlotRaw chosen |}).
  { rewrite decider_exec_result, Hask. simpl. unfold ActionDeciderNode.interpret.
    rewrite Haction. simpl. rewrite Hother. simpl.
    rewrite Hreason. simpl. rewrite Hchosen. reflexivity. }
  split; [exact Hexec|].
  unfold run_item_node, stages. rewrite Hprep. unfold pure, mbind, eff_bind.
  destruct (ActionDeciderNode.exec p) as [t r]. simpl in Hexec. subst r.
  unfold ActionDeciderNode.post. simpl. rewrite Hother. reflexivity.
Qed.

(** X12. An answer that names [schedule] gives a converted slot or a falsy
    one; the scheduler raises on a falsy one before anything is asked of
    the calendar. *)
Theorem scheduler_needs_converted_slot (loaded : yaml)
    (d : ActionDeciderNode.Decision) (m : Meeting) :
  ActionDeciderNode.interpret loaded = Ok d ->
  eq_str (ActionDeciderNode.d_action d) "schedule" = true ->
  (exists start stop, ActionDeciderNode.d_chosen_slot d = SlotPair start stop)
  \/ (exists y,
        ActionDeciderNode.d_chosen_slot d = SlotRaw y
        /\ truthy y = false
        /\ fst (MeetingSchedulerNode.exec (m, SlotRaw y)) = []
        /\ raised (snd (MeetingSchedulerNode.exec (m, SlotRaw y)))).
Proof.
  unfold ActionDeciderNode.interpret. intros Hi Hs. ok_steps Hi.
  injection Hi as <-. simpl in Hs. rewrite Hs in *.
  match goal with
  | Hc : (field loaded "chosen_slot" ≫= _) = Ok ?conv |- _ =>
      apply bind_Ok in Hc; destruct Hc as (raw & Hraw & Hconv)
  end.
  match goal with
  | Hc : field loaded "chosen_slot" = Ok ?c |- _ =>
      rewrite Hraw in Hc; injection Hc as <-
  end.
  destruct (truthy raw) eqn:Ht.
  - left. apply bind_Ok in Hconv. destruct Hconv as (slot & Hslot & [= <-]).
    simpl. unfold ActionDeciderNode.convert in Hslot.
    destruct raw; try discriminate Hslot.
    destruct (split " to " s) as [|part1 [|part2 [|part3 parts]]]; try discriminate Hslot.
    ok_steps Hslot. injection Hslot as <-. eauto.
  - right. injection Hconv as <-. simpl. exists raw.
    split; [reflexivity|]. split; [exact Ht|].
    unfold MeetingSchedulerNode.exec, pure. simpl.
    destruct raw; simpl; split; try reflexivity; eexists; reflexivity.
Qed.


(** X14. The draft a drafting node stores is the email the sender
    prepares next: its subject is the subject of the original message (or
    [Meeting Coordination] when that has none), its body the body the
    reasoning step drafted, its recipients the attendees of the meeting,
    and it answers the original message. An answer without [body] raises
    and stores nothing. *)
Theorem draft_reaches_sender (shared : Shared) (email_id : string)
    (exec_res : yaml) (msg : Message) (r : Request) :
  pending_email shared email_id = Ok msg ->
  request msg = Some r ->
  (forall e, field exec_res "body" = Raise e ->
     store_draft shared email_id exec_res = ([], Raise e))
  /\ (forall content,
        field exec_res "body" = Ok content ->
        exists shared',
          store_draft shared email_id exec_res = ([], Ok (shared', "send_email"))
          /\ EmailSenderNode.prep shared' email_id
             = Ok {| out_subject := get_default (subject msg) "Meeting Coordination";
                     out_body := content;
                     out_to_emails := attendees (meeting r);
                     out_from_email := username (email (config shared));
                     out_app_password := password (email (config shared));
                     out_in_reply_to := message_id msg;
                     out_references := get_default (references msg) [] |}).
Proof.
  intros Hmsg Hreq. rewrite store_draft_unfold. unfold pure. rewrite Hmsg.
  split.
  - intros e ->. reflexivity.
  - intros content ->. cbn [mbind result_bind].
    pose proof (update_email_cases shared email_id
                  (fun msg0 =>
                     Ok (set_draft msg0
                           {| draft_subject :=
                                get_default (subject msg0) "Meeting Coordination";
                              draft_body := content |}))) as Hc.
    rewrite Hmsg in Hc. destruct Hc as (d & Hd & ->). cbn [mbind result_bind].
    eexists. split; [reflexivity|].
    unfold EmailSenderNode.prep. rewrite pending_email_set_pending_eq.
    simpl. rewrite Hreq. reflexivity.
Qed.

(** X15. A run of the sender that returns has sent exactly one email, in
    reply to the message, and ends the walk with the workspace as it was:
    the message, with its request and its draft, stays under
    [pending_emails]. When the mailer raises, the node raises. *)
Theorem sender_keeps_the_message (shared : Shared) (email_id : string) :
  (forall t shared' a,
      run_item_node email_id email_sender shared = (t, Ok (shared', a)) ->
      shared' = shared /\ a = "end"
      /\ exists msg draft r,
           pending_email shared email_id = Ok msg
           /\ draft_email msg = Some draft
           /\ request msg = Some r
           /\ t = [SendEmail (message_id msg)])
  /\ (forall p e,
        EmailSenderNode.prep shared email_id = Ok p ->
        send_email p = Raise e ->
        run_item_node email_id email_sender shared
        = ([SendEmail (out_in_reply_to p)], Raise e)).
Proof.
  split.
  - intros t shared' a Hrun. unfold run_item_node in Hrun.
    apply stages_Ok in Hrun.
    destruct Hrun as (p & sent & t1 & t2 & Hprep & Hexec & Hpost & ->).
    unfold EmailSenderNode.post, pure in Hpost. injection Hpost as <- <- <-.
    split; [reflexivity|]. split; [reflexivity|].
    unfold EmailSenderNode.prep in Hprep. ok_steps Hprep. injection Hprep as <-.
    unfold EmailSenderNode.exec, perform, pure in Hexec. simpl in Hexec.
    destruct (send_email _); simpl in Hexec; [|discriminate Hexec].
    injection Hexec as <- _.
    repeat match goal with
      | Hi : item _ _ = Ok _ |- _ => apply item_Ok in Hi
      end.
    eauto 10.
  - intros p e Hprep Hsend. unfold run_item_node, stages. rewrite Hprep.
    unfold pure, EmailSenderNode.exec, perform. simpl. rewrite Hsend. reflexivity.
Qed.

(** X16. A node bound to a message that is not pending raises [KeyError]
    for its identifier in its prepare stage, before any effect; on a
    message without a request, the nodes that read the request raise
    [KeyError] for [request], and the sender, which reads the draft first,
    for [draft_email] when the draft is missing. *)
Theorem prepare_reports_missing_state (shared : Shared)
    (d : PyDict.dict Message) (email_id : string) :
  pending_emails shared = Some d ->
  (PyDict.get email_id d = None ->
     forall n, n <> email_fetcher -> n <> email_analysis ->
       run_item_node email_id n shared = ([], Raise (KeyError email_id)))
  /\ (forall msg,
        PyDict.get email_id d = Some msg -> request msg = None ->
        (forall n,
            In n [availability_checker; action_decider; meeting_scheduler;
                  schedule_confirmation; time_proposal; no_slots] ->
            run_item_node email_id n shared = ([], Raise (KeyError "request")))
        /\ (draft_email msg = None ->
              run_item_node email_id email_sender shared
              = ([], Raise (KeyError "draft_email"))))
  /\ (forall msg draft,
        PyDict.get email_id d = Some msg -> draft_email msg = Some draft ->
        request msg = None ->
        run_item_node email_id email_sender shared
        = ([], Raise (KeyError "request"))).
Proof.
  intros Hd. split; [|split].
  - intros Hget n Hf Ha.
    destruct n; try contradiction;
      unfold run_item_node, stages,
        EmailIntentAnalyzerNode.prep, AvailabilityRangeExtractorNode.prep,
        AvailabilityCheckerNode.prep, ActionDeciderNode.prep,
        MeetingSchedulerNode.prep, ScheduleConfirmationEmailNode.prep,
        ProposalEmailNode.prep, NoSlotsEmailNode.prep, EmailSenderNode.prep,
        pending_email;
      rewrite Hd; simpl; rewrite Hget; reflexivity.
  - intros msg Hget Hreq. split.
    + intros n Hin. simpl in Hin.
      repeat (destruct Hin as [<-|Hin]; [|try contradiction]);
        unfold run_item_node, stages,
          AvailabilityCheckerNode.prep, ActionDeciderNode.prep,
          MeetingSchedulerNode.prep, ScheduleConfirmationEmailNode.prep,
          ProposalEmailNode.prep, NoSlotsEmailNode.prep, pending_email;
        rewrite Hd; simpl; rewrite Hget; simpl; rewrite Hreq; reflexivity.
    + intros Hdraft. unfold run_item_node, stages, EmailSenderNode.prep, pending_email.
      rewrite Hd. simpl. rewrite Hget. simpl. rewrite Hdraft. reflexivity.
  - intros msg draft Hget Hdraft Hreq.
    unfold run_item_node, stages, EmailSenderNode.prep, pending_email.
    rewrite Hd. simpl. rewrite Hget. simpl. rewrite Hdraft. simpl.
    rewrite Hreq. reflexivity.
Qed.

End NodeRuns.

Lemma decider_asks_for_any_other_action_witness :
  snd (Engine.run_item_node
         (H := Examples.deciding (Examples.decision "Schedule" Examples.evening))
         "m1" Graph.action_decider
         (Demo.workspace [Examples.requested [Examples.working_day]]))
  = Ok (Demo.workspace [Examples.requested [Examples.working_day]], "ask_time").
Proof.
  exact (proj2 (decider_asks_for_any_other_action
                  (H := Examples.deciding (Examples.decision "Schedule" Examples.evening))
                  (Demo.workspace [Examples.requested [Examples.working_day]]) "m1"
                  Examples.decider_prepared
                  (Examples.decision "Schedule" Examples.evening)
                  (YStr "Schedule") (YStr "the email names Monday evening")
                  Examples.evening
                  eq_refl eq_refl eq_refl eq_refl eq_refl eq_refl)).
Defined.

Lemma scheduler_needs_converted_slot_witness :
  (exists start stop,
      ActionDeciderNode.d_chosen_slot Cases.slotless_decision = SlotPair start stop)
  \/ (exists y,
        ActionDeciderNode.d_chosen_slot Cases.slotless_decision = SlotRaw y
        /\ truthy y = false
        /\ fst (MeetingSchedulerNode.exec (H := Examples.batching)
                  (Examples.monday_meeting, SlotRaw y)) = []
        /\ raised (snd (MeetingSchedulerNode.exec (H := Examples.batching)
                          (Examples.monday_meeting, SlotRaw y)))).
Proof.
  exact (scheduler_needs_converted_slot (H := Examples.batching)
           (Examples.decision "schedule" YNull) Cases.slotless_decision
           Examples.monday_meeting eq_refl eq_refl).
Defined.


Lemma draft_reaches_sender_witness :
  exists shared' outgoing,
    store_draft (Demo.workspace [Examples.requested [Examples.working_day]]) "m1"
      (YMap [("body", YStr "Which time suits you?")])
    = ([], Ok (shared', "send_email"))
    /\ EmailSenderNode.prep shared' "m1" = Ok outgoing
    /\ out_subject outgoing = "m1"
    /\ out_in_reply_to outgoing = "m1".
Proof.
  destruct (proj2 (draft_reaches_sender
                     (Demo.workspace [Examples.requested [Examples.working_day]]) "m1"
                     (YMap [("body", YStr "Which time suits you?")])
                     (Examples.requested [Examples.working_day])
                     {| status := "pending"; meeting := Examples.monday_meeting;
                        available_slots := [Examples.working_day];
                        chosen_slot := SlotRaw YNull; event := None |}
                     eq_refl eq_refl)
              (YStr "Which time suits you?") eq_refl)
    as (shared' & Hstore & Hprep).
  exists shared'. eexists. split; [exact Hstore|]. split; [exact Hprep|].
  split; reflexivity.
Defined.

Lemma sender_keeps_the_message_witness :
  exists t,
    Engine.run_item_node (H := Examples.batching) "m1" Graph.email_sender
      (Demo.workspace [Cases.drafted_mail])
    = (t, Ok (Demo.workspace [Cases.drafted_mail], "end")).
Proof.
  destruct (Engine.run_item_node (H := Examples.batching) "m1" Graph.email_sender
              (Demo.workspace [Cases.drafted_mail]))
    as [t [[shared' a]|err]] eqn:Hrun; [|vm_compute in Hrun; discriminate Hrun].
  destruct (proj1 (sender_keeps_the_message (H := Examples.batching)
                     (Demo.workspace [Cases.drafted_mail]) "m1") t shared' a Hrun)
    as (-> & -> & _).
  exists t. reflexivity.
Defined.

Lemma prepare_reports_missing_state_witness :
  Engine.run_item_node (H := Examples.batching) "m9" Graph.action_decider
    Examples.batch_workspace = ([], Raise (KeyError "m9"))
  /\ Engine.run_item_node (H := Examples.batching) "m1" Graph.action_decider
       Examples.batch_workspace = ([], Raise (KeyError "request")).
Proof.
  destruct (prepare_reports_missing_state (H := Examples.batching)
              Examples.batch_workspace
              (PyDict.comprehension message_id
                 [Examples.monday_mail; Examples.coffee_mail; Examples.lunch_mail])
              "m9" eq_refl) as (Habsent & _ & _).
  destruct (prepare_reports_missing_state (H := Examples.batching)
              Examples.batch_workspace
              (PyDict.comprehension message_id
                 [Examples.monday_mail; Examples.coffee_mail; Examples.lunch_mail])
              "m1" eq_refl) as (_ & Hbare & _).
  split.
  - apply Habsent; [reflexivity | discriminate | discriminate].
  - destruct (Hbare Examples.monday_mail eq_refl eq_refl) as [Hall _].
    apply Hall. simpl. tauto.
Defined.

(** ** The participant loop and the keys of an answer *)

Section AnswerFacts.
Context `{Collaborators}.

Lemma add_participants_fixed (att : yaml) (addrs : list string) :
  (forall addr, In addr addrs ->
     exists a, getaddress addr = Ok a /\ contains att a = Ok true) ->
  AvailabilityRangeExtractorNode.add_participants att addrs = Ok att.
Proof.
  induction addrs as [|addr rest IH]; intros Hall; simpl; [reflexivity|].
  destruct (Hall addr (or_introl eq_refl)) as (a & Hget & Hin).
  rewrite Hget. simpl. unfold AvailabilityRangeExtractorNode.add_attendee.
  rewrite Hin. simpl. apply IH. intros addr' Hin'. apply Hall. now right.
Qed.

(** X17. The participant loop of the extractor is idempotent: run again on
    its own result, for the same sender, cc and bcc, it adds nothing. *)
Theorem add_participants_idempotent (att att' : yaml) (addrs : list string) :
  AvailabilityRangeExtractorNode.add_participants att addrs = Ok att' ->
  AvailabilityRangeExtractorNode.add_participants att' addrs = Ok att'.
Proof.
  intros Hloop. apply add_participants_fixed.
  now destruct (add_participants_present _ _ _ Hloop).
Qed.

(** X18. The keys an answer must carry. The decider raises [TypeError] on
    an answer that is no mapping and [KeyError] on a mapping without
    [action]; for an action other than [schedule] it still raises
    [KeyError] when [reason] or [chosen_slot] is missing, because its log
    lines read them. The intent analyzer likewise needs both
    [is_scheduling] and [reason]. *)
Theorem answers_must_carry_every_key (loaded : yaml) :
  (is_dict loaded = false ->
     ActionDeciderNode.interpret loaded = Raise TypeError)
  /\ (forall fields,
        loaded = YMap fields ->
        (PyDict.get "action" fields = None ->
           ActionDeciderNode.interpret loaded = Raise (KeyError "action"))
        /\ (forall action,
              PyDict.get "action" fields = Some action ->
              eq_str action "schedule" = false ->
              (PyDict.get "reason" fields = None ->
                 ActionDeciderNode.interpret loaded = Raise (KeyError "reason"))
              /\ (forall reason,
                    PyDict.get "reason" fields = Some reason ->
                    PyDict.get "chosen_slot" fields = None ->
                    ActionDeciderNode.interpret loaded
                    = Raise (KeyError "chosen_slot")))
        /\ (forall flag inputs t,
              PyDict.get "is_scheduling" fields = Some flag ->
              PyDict.get "reason" fields = None ->
              ask (AskIntent (fst inputs) (snd inputs)) = (t, Ok loaded) ->
              EmailIntentAnalyzerNode.exec inputs = (t, Raise (KeyError "reason")))).
Proof.
  split.
  - intros Hdict. unfold ActionDeciderNode.interpret.
    destruct loaded; try discriminate Hdict; reflexivity.
  - intros fields ->. unfold ActionDeciderNode.interpret. cbn [field].
    split; [|split].
    + intros ->. reflexivity.
    + intros action -> Hother. cbn [mbind result_bind]. rewrite Hother.
      cbn [mbind result_bind]. split.
      * intros ->. reflexivity.
      * intros reason -> ->. reflexivity.
    + intros flag [email_body cfg] t Hflag Hreason Hask.
      unfold EmailIntentAnalyzerNode.exec. simpl in Hask. rewrite Hask.
      unfold pure. cbn [mbind eff_bind field]. rewrite Hflag, Hreason.
      cbn [mbind result_bind]. now rewrite app_nil_r.
Qed.

End AnswerFacts.

Lemma add_participants_idempotent_witness :
  exists att',
    AvailabilityRangeExtractorNode.add_participants
      (H := Examples.extracting Examples.good_details)
      (YList [YStr "amy@example.com"]) ["boss@example.com"; "amy@example.com"]
    = Ok att'
    /\ AvailabilityRangeExtractorNode.add_participants
         (H := Examples.extracting Examples.good_details)
         att' ["boss@example.com"; "amy@example.com"]
       = Ok att'.
Proof.
  destruct (AvailabilityRangeExtractorNode.add_participants
              (H := Examples.extracting Examples.good_details)
              (YList [YStr "amy@example.com"]) ["boss@example.com"; "amy@example.com"])
    as [att'|err] eqn:Hloop; [|vm_compute in Hloop; discriminate Hloop].
  exists att'. split; [reflexivity|].
  exact (add_participants_idempotent
           (H := Examples.extracting Examples.good_details) _ _ _ Hloop).
Defined.

Lemma answers_must_carry_every_key_witness :
  ActionDeciderNode.interpret (H := Examples.batching)
    (YMap [("action", YStr "ask_time"); ("reason", YStr "no time named")])
  = Raise (KeyError "chosen_slot").
Proof.
  apply (proj2 (proj1 (proj2 (proj2 (answers_must_carry_every_key
           (H := Examples.batching)
           (YMap [("action", YStr "ask_time"); ("reason", YStr "no time named")]))
           [("action", YStr "ask_time"); ("reason", YStr "no time named")] eq_refl))
           (YStr "ask_time") eq_refl eq_refl) (YStr "no time named"));
    reflexivity.
Defined.
